(** * libcamera4j: the native handle broker of the libcamera JNI bindings

    A shallow embedding of [src/libcamera-4j/src/main/native/libcamera4j.cpp].
    The file keeps every native object in a global [std::map] keyed by a
    [jlong] handle; the Java side only ever sees the handles.  The embedding
    threads the globals explicitly as a [State] record, models [std::map] as
    an association list kept in key order (the order a range-for visits it),
    and models the three collaborators the file calls into (the libcamera
    pipeline, the JNI environment and the kernel's [mmap]/[munmap]) by the
    part of their contract the code relies on. *)

From Stdlib Require Import ZArith List String Ascii Bool Lia Floats Sorting.Sorted.
From Stdlib Require Import DecimalString.
Import ListNotations.
Open Scope Z_scope.

(** ** Machine integers

    [jint] is a signed 32-bit integer, [jlong] a signed 64-bit one,
    [unsigned int] is 32 bits wide and [size_t] 64 bits.  Values are kept in
    [Z]; every conversion the C++ performs is written out. *)

Definition wrap_unsigned (w x : Z) : Z := x mod 2 ^ w.
Definition wrap_signed (w x : Z) : Z := (x + 2 ^ (w - 1)) mod 2 ^ w - 2 ^ (w - 1).

Definition to_jint : Z -> Z := wrap_signed 32.
Definition to_jlong : Z -> Z := wrap_signed 64.
Definition to_uint : Z -> Z := wrap_unsigned 32.
Definition to_size_t : Z -> Z := wrap_unsigned 64.

Definition jlong_max : Z := 2 ^ 63 - 1.

(** ** [std::map<jlong, V>]

    An association list.  [insert] is [m[k] = v] and keeps the keys in
    increasing order, [erase] is [m.erase(k)], [find] is [m.find(k)].
    [first_key p] is the loop
    [for (auto& [k, v] : m) if (p v) return k;], which visits the entries in
    key order and stops at the first hit. *)
Module StdMap.

Definition t (V : Type) : Type := list (Z * V).

Definition empty {V : Type} : t V := [].

Fixpoint find {V : Type} (k : Z) (m : t V) : option V :=
  match m with
  | [] => None
  | (k', v) :: m' => if k' =? k then Some v else find k m'
  end.

Fixpoint insert {V : Type} (k : Z) (v : V) (m : t V) : t V :=
  match m with
  | [] => [(k, v)]
  | (k', v') :: m' =>
      if k <? k' then (k, v) :: m
      else if k =? k' then (k, v) :: m'
      else (k', v') :: insert k v m'
  end.

Definition erase {V : Type} (k : Z) (m : t V) : t V :=
  filter (fun kv => negb (fst kv =? k)) m.

Fixpoint first_key {V : Type} (p : V -> bool) (m : t V) : option Z :=
  match m with
  | [] => None
  | (k, v) :: m' => if p v then Some k else first_key p m'
  end.

(** [m[k]] read as an rvalue: a missing key is created with the default
    value. *)
Definition get_or {V : Type} (d : V) (k : Z) (m : t V) : V :=
  match find k m with
  | Some v => v
  | None => d
  end.

End StdMap.

(** ** The JNI boundary *)

(** The Java exceptions a native call of this file can leave pending. *)
Inductive JavaException : Type :=
| LibCameraException (message : string)
| ArrayIndexOutOfBoundsException.

(** How a native call ends: it returns [v]; it returns [v] with a Java
    exception pending (what [throwLibCameraException] followed by [return v]
    does); or it runs into behaviour C++ leaves undefined. *)
Inductive Outcome (A : Type) : Type :=
| Returns (v : A)
| Throws (e : JavaException) (v : A)
| Undefined.
Arguments Returns {A} v.
Arguments Throws {A} e v.
Arguments Undefined {A}.

(** The call left a Java exception pending. *)
Definition raises {A : Type} (o : Outcome A) : Prop :=
  match o with
  | Throws _ _ => True
  | _ => False
  end.

(** [throwLibCameraException(env, message); return v;], with the exception
    class found by [FindClass] (it ships with the bindings). *)
Definition throwLibCameraException {A : Type} (message : string) (v : A) : Outcome A :=
  Throws (LibCameraException message) v.

(** ** libcamera objects, as far as the bindings look into them *)

(** The controls the bindings name ([libcamera/control_ids.h]). *)
Inductive ControlId : Type :=
| AfMode | LensPosition | AeEnable | ExposureTime | AnalogueGain
| DigitalGain | ColourGains | ColourTemperature | Lux
| SensorBlackLevels | ColourCorrectionMatrix.

Definition ControlId_eqb (a b : ControlId) : bool :=
  match a, b with
  | AfMode, AfMode | LensPosition, LensPosition | AeEnable, AeEnable
  | ExposureTime, ExposureTime | AnalogueGain, AnalogueGain
  | DigitalGain, DigitalGain | ColourGains, ColourGains
  | ColourTemperature, ColourTemperature | Lux, Lux
  | SensorBlackLevels, SensorBlackLevels
  | ColourCorrectionMatrix, ColourCorrectionMatrix => true
  | _, _ => false
  end.

(** A [ControlValue]: 32-bit integers, floats (every C [float] is a
    [double], so one float type serves both), booleans and small arrays. *)
Inductive ControlValue : Type :=
| CInt32 (v : Z)
| CFloat (v : float)
| CBool (v : bool)
| CFloatArray (v : list float)
| CInt32Array (v : list Z).

(** [ControlList]: [set] stores the value under the id, [get] returns the
    stored value or [std::nullopt].  The lists of a request are typed by the
    pipeline: an id holds a value of the type its control declares. *)
Definition ControlList : Type := list (ControlId * ControlValue).

Fixpoint ctl_get (id : ControlId) (l : ControlList) : option ControlValue :=
  match l with
  | [] => None
  | (id', v) :: l' => if ControlId_eqb id' id then Some v else ctl_get id l'
  end.

Fixpoint ctl_set (id : ControlId) (v : ControlValue) (l : ControlList) : ControlList :=
  match l with
  | [] => [(id, v)]
  | (id', v') :: l' =>
      if ControlId_eqb id' id then (id, v) :: l' else (id', v') :: ctl_set id v l'
  end.

(** A [Request] object.  [req_addr] is the address the [unique_ptr] in
    [g_requests] holds ([request.get()]); [controls()] is the outgoing
    control list the setters write, [metadata()] the result list the
    pipeline fills at completion and the getters read. *)
Record Request : Type := mkRequest {
  req_addr : Z;
  req_cookie : Z;
  req_controls : ControlList;
  req_metadata : ControlList
}.

(** A [shared_ptr<Camera>]: the address of the native camera, which is all
    the bindings compare. *)
Definition Camera : Type := Z.

(** A [CameraManager]: [get(id)] finds a camera by its id. *)
Definition CameraManager : Type := list (string * Camera).

Fixpoint cm_get (id : string) (cm : CameraManager) : option Camera :=
  match cm with
  | [] => None
  | (id', c) :: cm' => if String.eqb id' id then Some c else cm_get id cm'
  end.

(** [FrameBuffer::Plane]: a dmabuf descriptor, and the plane's offset and
    length in it (both [unsigned int]). *)
Record Plane : Type := mkPlane {
  pl_fd : Z;
  pl_offset : Z;
  pl_length : Z
}.

Record FrameBuffer : Type := mkFrameBuffer {
  fb_planes : list Plane
}.

(** A [StreamConfiguration]; [sc_stream] is the [Stream*] that [stream()]
    returns. *)
Record StreamConfiguration : Type := mkStreamConfiguration {
  sc_width : Z;
  sc_height : Z;
  sc_stride : Z;
  sc_pixelFormat : Z;
  sc_bufferCount : Z;
  sc_stream : Z
}.

(** A [CameraConfiguration] is a vector of stream configurations.
    [at(index)] takes an [unsigned int] and indexes the vector without a
    range check: [None] stands for the out-of-range access. *)
Definition CameraConfiguration : Type := list StreamConfiguration.

Definition config_size (c : CameraConfiguration) : Z := Z.of_nat (List.length c).

Definition config_at (c : CameraConfiguration) (index : Z) : option StreamConfiguration :=
  nth_error c (Z.to_nat (to_uint index)).

(** A [FrameBufferAllocator]: the buffers allocated per stream;
    [buffers(stream)] is empty for a stream with none. *)
Definition FrameBufferAllocator : Type := list (Z * list FrameBuffer).

Fixpoint buffers (a : FrameBufferAllocator) (stream : Z) : list FrameBuffer :=
  match a with
  | [] => []
  | (st, bs) :: a' => if st =? stream then bs else buffers a' stream
  end.

(** ** The process address space behind [mmap] and [munmap]

    A mapping is a range of addresses backed by a descriptor.  [mmap] with a
    null hint picks an address above every mapping there is; whether it
    fails, and with which [strerror] text, is the kernel's decision
    ([k_mmap_errno]).  [munmap] drops the mappings that lie in the range it
    is given.  [k_file fd i] is byte [i] of the memory behind [fd]. *)
Record Mapping : Type := mkMapping {
  m_addr : Z;
  m_len : Z;
  m_fd : Z
}.

Record Kernel : Type := mkKernel {
  k_mappings : list Mapping;
  k_mmap_errno : list Mapping -> Z -> Z -> option string;
  k_file : Z -> Z -> Byte.byte
}.

Definition page_size : Z := 4096.

(** The first address above a mapping. *)
Definition mapping_top (m : Mapping) : Z := Z.max (m_addr m) (m_addr m + m_len m).

(** The address a [mmap] with a null hint returns: a page above every
    mapping there is. *)
Definition fresh_addr (ms : list Mapping) : Z :=
  fold_right (fun m acc => Z.max (mapping_top m) acc) 0 ms + page_size.

(** [mmap(nullptr, len, PROT_READ, MAP_SHARED, fd, 0)]: the [strerror] text
    of the failure, or the address and the address space afterwards. *)
Definition mmap (k : Kernel) (len fd : Z) : string + (Z * Kernel) :=
  match k_mmap_errno k (k_mappings k) fd len with
  | Some err => inl err
  | None =>
      let a := fresh_addr (k_mappings k) in
      inr (a, mkKernel (mkMapping a len fd :: k_mappings k) (k_mmap_errno k) (k_file k))
  end.

(** The mapping [m] lies in the range of [len] bytes at [addr]. *)
Definition in_range (addr len : Z) (m : Mapping) : bool :=
  (addr <=? m_addr m) && (m_addr m + m_len m <=? addr + len).

(** [munmap(addr, len)]. *)
Definition munmap (addr len : Z) (k : Kernel) : Kernel :=
  mkKernel (filter (fun m => negb (in_range addr len m)) (k_mappings k))
           (k_mmap_errno k) (k_file k).

(** Reading process memory: the byte at [a], when [a] is mapped. *)
Definition load (k : Kernel) (a : Z) : option Byte.byte :=
  match List.find (fun m => (m_addr m <=? a) && (a <? m_addr m + m_len m)) (k_mappings k) with
  | Some m => Some (k_file k (m_fd m) (a - m_addr m))
  | None => None
  end.

Fixpoint load_bytes (k : Kernel) (a : Z) (n : nat) : option (list Byte.byte) :=
  match n with
  | O => Some []
  | S n' =>
      match load k a, load_bytes k (a + 1) n' with
      | Some b, Some bs => Some (b :: bs)
      | _, _ => None
      end
  end.

(** ** The globals of the file *)

(** [struct MappedPlane] and [struct MappedBuffer]. *)
Record MappedPlane : Type := mkMappedPlane {
  mp_data : Z;
  mp_length : Z;
  mp_offset : Z
}.

Record MappedBuffer : Type := mkMappedBuffer {
  mb_planes : list MappedPlane;
  mb_totalLength : Z
}.

Record State : Type := mkState {
  g_cameraManagers : StdMap.t CameraManager;
  g_cameras : StdMap.t Camera;
  g_configurations : StdMap.t CameraConfiguration;
  g_allocators : StdMap.t FrameBufferAllocator;
  g_requests : StdMap.t Request;
  g_nextHandle : Z;
  g_completedRequests : StdMap.t (list Z);
  g_mappedBuffers : StdMap.t MappedBuffer;
  kernel : Kernel
}.

Definition with_cameras (v : StdMap.t Camera) (s : State) : State :=
  mkState (g_cameraManagers s) v (g_configurations s) (g_allocators s) (g_requests s)
          (g_nextHandle s) (g_completedRequests s) (g_mappedBuffers s) (kernel s).

Definition with_allocators (v : StdMap.t FrameBufferAllocator) (s : State) : State :=
  mkState (g_cameraManagers s) (g_cameras s) (g_configurations s) v (g_requests s)
          (g_nextHandle s) (g_completedRequests s) (g_mappedBuffers s) (kernel s).

Definition with_requests (v : StdMap.t Request) (s : State) : State :=
  mkState (g_cameraManagers s) (g_cameras s) (g_configurations s) (g_allocators s) v
          (g_nextHandle s) (g_completedRequests s) (g_mappedBuffers s) (kernel s).

Definition with_nextHandle (v : Z) (s : State) : State :=
  mkState (g_cameraManagers s) (g_cameras s) (g_configurations s) (g_allocators s)
          (g_requests s) v (g_completedRequests s) (g_mappedBuffers s) (kernel s).

Definition with_completedRequests (v : StdMap.t (list Z)) (s : State) : State :=
  mkState (g_cameraManagers s) (g_cameras s) (g_configurations s) (g_allocators s)
          (g_requests s) (g_nextHandle s) v (g_mappedBuffers s) (kernel s).

Definition with_mappedBuffers (v : StdMap.t MappedBuffer) (s : State) : State :=
  mkState (g_cameraManagers s) (g_cameras s) (g_configurations s) (g_allocators s)
          (g_requests s) (g_nextHandle s) (g_completedRequests s) v (kernel s).

Definition with_kernel (v : Kernel) (s : State) : State :=
  mkState (g_cameraManagers s) (g_cameras s) (g_configurations s) (g_allocators s)
          (g_requests s) (g_nextHandle s) (g_completedRequests s) (g_mappedBuffers s) v.

(** A kernel with nothing mapped in which every [mmap] succeeds. *)
Definition quiet_kernel : Kernel :=
  mkKernel [] (fun _ _ _ => None) (fun _ _ => Byte.x00).

(** The state at load time: empty tables and [g_nextHandle = 1]. *)
Definition initial_state : State :=
  mkState StdMap.empty StdMap.empty StdMap.empty StdMap.empty StdMap.empty
          1 StdMap.empty StdMap.empty quiet_kernel.

(** ** Native handle management *)

(** [allocHandle]: [return g_nextHandle++;]. *)
Definition allocHandle (s : State) : Z * State :=
  (g_nextHandle s, with_nextHandle (to_jlong (g_nextHandle s + 1)) s).

(** [n] calls of [allocHandle] in a row, and the handles they return. *)
Fixpoint allocHandle_n (n : nat) (s : State) : list Z * State :=
  match n with
  | O => ([], s)
  | S n' =>
      let (h, s1) := allocHandle s in
      let (hs, s2) := allocHandle_n n' s1 in
      (h :: hs, s2)
  end.

(** ** CameraManager and Camera native methods *)

(** [CameraManager_nativeGetCamera]: a known camera gets a fresh handle and
    an empty completion queue. *)
Definition CameraManager_nativeGetCamera (handle : Z) (cameraId : string) (s : State)
  : Outcome Z * State :=
  match StdMap.find handle (g_cameraManagers s) with
  | None => (throwLibCameraException "Invalid CameraManager handle" 0, s)
  | Some cm =>
      match cm_get cameraId cm with
      | None => (Returns 0, s)
      | Some camera =>
          let (camHandle, s1) := allocHandle s in
          let s2 := with_cameras (StdMap.insert camHandle camera (g_cameras s1)) s1 in
          (Returns camHandle,
           with_completedRequests (StdMap.insert camHandle [] (g_completedRequests s2)) s2)
      end
  end.

(** [requestCompleted], the slot connected to the camera's completion
    signal: the cookie of the request is the address of its camera; the
    session table is scanned for the first handle holding that camera and
    the request pointer is pushed on that handle's queue. *)
Definition requestCompleted (request : Request) (s : State) : State :=
  if req_cookie request =? 0 then s
  else
    match StdMap.first_key (fun camera => camera =? req_cookie request) (g_cameras s) with
    | Some handle =>
        with_completedRequests
          (StdMap.insert handle
             (StdMap.get_or [] handle (g_completedRequests s) ++ [req_addr request])
             (g_completedRequests s)) s
    | None => s
    end.

(** [Camera_nativeCreateRequest].  [created] is what the pipeline's
    [createRequest] gave back: the address of the new request, or [None] for
    a null pointer.  The cookie passed down is the camera's address, not the
    [cookie] argument. *)
Definition Camera_nativeCreateRequest (handle cookie : Z) (created : option Z) (s : State)
  : Outcome Z * State :=
  match StdMap.find handle (g_cameras s) with
  | None => (throwLibCameraException "Invalid Camera handle" 0, s)
  | Some camera =>
      match created with
      | None => (Returns 0, s)
      | Some addr =>
          let (reqHandle, s1) := allocHandle s in
          (Returns reqHandle,
           with_requests (StdMap.insert reqHandle (mkRequest addr camera [] []) (g_requests s1)) s1)
      end
  end.

(** [Camera_nativeQueueRequest].  [status] is the pipeline's answer to
    [queueRequest]. *)
Definition Camera_nativeQueueRequest (handle requestHandle : Z) (status : Z) (s : State)
  : Outcome Z :=
  match StdMap.find handle (g_cameras s) with
  | None => throwLibCameraException "Invalid Camera handle" (-1)
  | Some _ =>
      match StdMap.find requestHandle (g_requests s) with
      | None => throwLibCameraException "Invalid Request handle" (-1)
      | Some _ => Returns status
      end
  end.

(** [Camera_nativePollCompletedRequest]. *)
Definition Camera_nativePollCompletedRequest (handle : Z) (s : State) : Z * State :=
  match StdMap.find handle (g_completedRequests s) with
  | None => (0, s)
  | Some [] => (0, s)
  | Some (req :: rest) =>
      let s1 := with_completedRequests (StdMap.insert handle rest (g_completedRequests s)) s in
      match StdMap.first_key (fun request => req_addr request =? req) (g_requests s1) with
      | Some reqHandle => (reqHandle, s1)
      | None => (0, s1)
      end
  end.

(** ** FrameBufferAllocator native methods *)

(** [FrameBufferAllocator_nativeAllocate].  [pipeline] is the allocator's
    own [allocate(stream)]: its return code and the allocator afterwards. *)
Definition FrameBufferAllocator_nativeAllocate
  (handle configHandle streamIndex : Z)
  (pipeline : FrameBufferAllocator -> Z -> Z * FrameBufferAllocator) (s : State)
  : Outcome Z * State :=
  match StdMap.find handle (g_allocators s) with
  | None => (throwLibCameraException "Invalid FrameBufferAllocator handle" (-1), s)
  | Some alloc =>
      match StdMap.find configHandle (g_configurations s) with
      | None => (throwLibCameraException "Invalid CameraConfiguration handle" (-1), s)
      | Some conf =>
          if (streamIndex <? 0) || (config_size conf <=? streamIndex)
          then (throwLibCameraException "Invalid stream index" (-1), s)
          else
            match config_at conf streamIndex with
            | None => (Undefined, s)
            | Some sc =>
                let (rc, alloc') := pipeline alloc (sc_stream sc) in
                (Returns rc, with_allocators (StdMap.insert handle alloc' (g_allocators s)) s)
            end
      end
  end.

(** [FrameBufferAllocator_nativeGetBufferCount]. *)
Definition FrameBufferAllocator_nativeGetBufferCount
  (handle configHandle streamIndex : Z) (s : State) : Outcome Z :=
  match StdMap.find handle (g_allocators s) with
  | None => Returns 0
  | Some alloc =>
      match StdMap.find configHandle (g_configurations s) with
      | None => Returns 0
      | Some conf =>
          if (streamIndex <? 0) || (config_size conf <=? streamIndex) then Returns 0
          else
            match config_at conf streamIndex with
            | None => Undefined
            | Some sc =>
                Returns (to_jint (Z.of_nat (List.length (buffers alloc (sc_stream sc)))))
            end
      end
  end.

(** ** Request native methods *)

Definition Request_nativeDestroy (handle : Z) (s : State) : State :=
  with_requests (StdMap.erase handle (g_requests s)) s.

(** The body the five control setters share:
    [it->second->controls().set(id, value)] on a handle that is found, a
    plain [return] on one that is not. *)
Definition set_control (handle : Z) (id : ControlId) (v : ControlValue) (s : State)
  : Outcome unit * State :=
  match StdMap.find handle (g_requests s) with
  | None => (Returns tt, s)
  | Some r =>
      let r' := mkRequest (req_addr r) (req_cookie r)
                          (ctl_set id v (req_controls r)) (req_metadata r) in
      (Returns tt, with_requests (StdMap.insert handle r' (g_requests s)) s)
  end.

Definition Request_nativeSetAfMode (handle mode : Z) (s : State) : Outcome unit * State :=
  set_control handle AfMode (CInt32 mode) s.

Definition Request_nativeSetLensPosition (handle : Z) (position : float) (s : State)
  : Outcome unit * State :=
  set_control handle LensPosition (CFloat position) s.

Definition Request_nativeSetAeEnable (handle : Z) (enable : bool) (s : State)
  : Outcome unit * State :=
  set_control handle AeEnable (CBool enable) s.

Definition Request_nativeSetExposureTime (handle microseconds : Z) (s : State)
  : Outcome unit * State :=
  set_control handle ExposureTime (CInt32 microseconds) s.

Definition Request_nativeSetAnalogueGain (handle : Z) (gain : float) (s : State)
  : Outcome unit * State :=
  set_control handle AnalogueGain (CFloat gain) s.

(** [metadata.get(control)] at the control's type. *)
Definition get_int32 (id : ControlId) (l : ControlList) : option Z :=
  match ctl_get id l with
  | Some (CInt32 v) => Some v
  | _ => None
  end.

Definition get_float (id : ControlId) (l : ControlList) : option float :=
  match ctl_get id l with
  | Some (CFloat v) => Some v
  | _ => None
  end.

(** [Request_nativeGetExposureTime]: reads the result metadata. *)
Definition Request_nativeGetExposureTime (handle : Z) (s : State) : Outcome Z :=
  match StdMap.find handle (g_requests s) with
  | None => Returns 0
  | Some r =>
      match get_int32 ExposureTime (req_metadata r) with
      | Some expTime => Returns expTime
      | None => Returns 0
      end
  end.

(** [Request_nativeGetAnalogueGain]: reads the result metadata. *)
Definition Request_nativeGetAnalogueGain (handle : Z) (s : State) : Outcome float :=
  match StdMap.find handle (g_requests s) with
  | None => Returns 1.0%float
  | Some r =>
      match get_float AnalogueGain (req_metadata r) with
      | Some gain => Returns gain
      | None => Returns 1.0%float
      end
  end.

(** ** Buffer access for captured frames *)

Definition string_of_Z (z : Z) : string := NilZero.string_of_int (Z.to_int z).

(** [snprintf(errMsg, sizeof(errMsg), ...)] with [char errMsg[128]]: at most
    127 characters are kept. *)
Definition snprintf128 (msg : string) : string := substring 0 127 msg.

(** [for (auto& mp : mappedBuffer.planes) munmap(mp.data, mp.length);] *)
Fixpoint munmap_planes (planes : list MappedPlane) (k : Kernel) : Kernel :=
  match planes with
  | [] => k
  | mp :: rest => munmap_planes rest (munmap (mp_data mp) (mp_length mp) k)
  end.

(** The [size_t mapSize = plane.offset + plane.length;] of the loop: the sum
    is taken in [unsigned int] and then widened. *)
Definition mapSize (plane : Plane) : Z := to_uint (pl_offset plane + pl_length plane).

(** The loop over [fbPlanes] of [nativeMapBuffer], from plane [i] on.  The
    result is the exception message of the plane that was refused, or the
    finished [MappedBuffer]; on every refusal the planes mapped so far are
    unmapped first. *)
Fixpoint map_planes (fbPlanes : list Plane) (i : nat) (mappedBuffer : MappedBuffer)
  (k : Kernel) : (string + MappedBuffer) * Kernel :=
  match fbPlanes with
  | [] => (inr mappedBuffer, k)
  | plane :: rest =>
      if pl_fd plane <? 0 then
        (inl (snprintf128 ("Invalid plane fd at index " ++ string_of_Z (Z.of_nat i))),
         munmap_planes (mb_planes mappedBuffer) k)
      else if mapSize plane =? 0 then
        (inl (snprintf128 ("Zero-size plane at index " ++ string_of_Z (Z.of_nat i))),
         munmap_planes (mb_planes mappedBuffer) k)
      else
        match mmap k (mapSize plane) (pl_fd plane) with
        | inl err =>
            (inl (snprintf128 ("Failed to mmap buffer plane " ++ string_of_Z (Z.of_nat i)
                               ++ " (fd=" ++ string_of_Z (pl_fd plane)
                               ++ ", size=" ++ string_of_Z (mapSize plane)
                               ++ "): " ++ err)),
             munmap_planes (mb_planes mappedBuffer) k)
        | inr (data, k') =>
            map_planes rest (S i)
              (mkMappedBuffer
                 (mb_planes mappedBuffer ++ [mkMappedPlane data (mapSize plane) (pl_offset plane)])
                 (to_size_t (mb_totalLength mappedBuffer + pl_length plane)))
              k'
        end
  end.

(** [FrameBuffer_nativeMapBuffer]. *)
Definition FrameBuffer_nativeMapBuffer
  (allocatorHandle configHandle streamIndex bufferIndex : Z) (s : State)
  : Outcome Z * State :=
  match StdMap.find allocatorHandle (g_allocators s) with
  | None => (throwLibCameraException "Invalid FrameBufferAllocator handle" 0, s)
  | Some alloc =>
      match StdMap.find configHandle (g_configurations s) with
      | None => (throwLibCameraException "Invalid CameraConfiguration handle" 0, s)
      | Some conf =>
          match config_at conf streamIndex with
          | None => (Undefined, s)
          | Some sc =>
              let bufs := buffers alloc (sc_stream sc) in
              if (bufferIndex <? 0) || (Z.of_nat (List.length bufs) <=? bufferIndex)
              then (throwLibCameraException "Invalid buffer index" 0, s)
              else
                match nth_error bufs (Z.to_nat bufferIndex) with
                | None => (Undefined, s)
                | Some fb =>
                    match fb_planes fb with
                    | [] => (throwLibCameraException "FrameBuffer has no planes" 0, s)
                    | fbPlanes =>
                        match map_planes fbPlanes 0 (mkMappedBuffer [] 0) (kernel s) with
                        | (inl errMsg, k') =>
                            (throwLibCameraException errMsg 0, with_kernel k' s)
                        | (inr mappedBuffer, k') =>
                            let (mapHandle, s1) := allocHandle (with_kernel k' s) in
                            (Returns mapHandle,
                             with_mappedBuffers
                               (StdMap.insert mapHandle mappedBuffer (g_mappedBuffers s1)) s1)
                        end
                    end
                end
          end
      end
  end.

(** [FrameBuffer_nativeUnmapBuffer]. *)
Definition FrameBuffer_nativeUnmapBuffer (mapHandle : Z) (s : State) : State :=
  match StdMap.find mapHandle (g_mappedBuffers s) with
  | None => s
  | Some mb =>
      with_mappedBuffers (StdMap.erase mapHandle (g_mappedBuffers s))
        (with_kernel (munmap_planes (mb_planes mb) (kernel s)) s)
  end.

(** [FrameBuffer_nativeGetBufferSize]: [totalLength] narrowed to [jint]. *)
Definition FrameBuffer_nativeGetBufferSize (mapHandle : Z) (s : State) : Z :=
  match StdMap.find mapHandle (g_mappedBuffers s) with
  | None => 0
  | Some mb => to_jint (mb_totalLength mb)
  end.

(** JNI's [SetByteArrayRegion(array, start, len, buf)]: a region that is not
    inside the array raises [ArrayIndexOutOfBoundsException] and copies
    nothing; otherwise [len] bytes are read at [buf] and written at [start].
    The result is the array afterwards, or [None] when [buf] is not
    readable. *)
Definition SetByteArrayRegion (k : Kernel) (array : list Byte.byte) (start len buf : Z)
  : option (list Byte.byte * bool) :=
  if (start <? 0) || (len <? 0) || (Z.of_nat (List.length array) <? start + len)
  then Some (array, true)
  else
    match load_bytes k buf (Z.to_nat len) with
    | None => None
    | Some bytes =>
        Some (firstn (Z.to_nat start) array ++ bytes
              ++ skipn (Z.to_nat (start + len)) array, false)
    end.

(** The loop over [it->second.planes] of [nativeCopyBuffer].  [pending]
    records that an earlier array write raised. *)
Fixpoint copy_planes (k : Kernel) (planes : list MappedPlane) (dest : list Byte.byte)
  (destOffset remaining : Z) (pending : bool) : option (list Byte.byte * bool) :=
  match planes with
  | [] => Some (dest, pending)
  | plane :: rest =>
      if remaining =? 0 then Some (dest, pending)
      else
        let planeData := mp_data plane + mp_offset plane in
        let planeDataLen := to_size_t (mp_length plane - mp_offset plane) in
        let copyLen := Z.min remaining planeDataLen in
        match SetByteArrayRegion k dest destOffset (to_jint copyLen) planeData with
        | None => None
        | Some (dest', raised) =>
            copy_planes k rest dest' (to_jint (destOffset + copyLen))
                        (remaining - copyLen) (pending || raised)
        end
  end.

(** [FrameBuffer_nativeCopyBuffer]: the outcome and the destination array
    afterwards. *)
Definition FrameBuffer_nativeCopyBuffer
  (mapHandle : Z) (dest : list Byte.byte) (offset length : Z) (s : State)
  : Outcome unit * list Byte.byte :=
  match StdMap.find mapHandle (g_mappedBuffers s) with
  | None => (throwLibCameraException "Invalid map handle" tt, dest)
  | Some mb =>
      let remaining := Z.min (to_size_t length) (mb_totalLength mb) in
      match copy_planes (kernel s) (mb_planes mb) dest offset remaining false with
      | None => (Undefined, dest)
      | Some (dest', true) => (Throws ArrayIndexOutOfBoundsException tt, dest')
      | Some (dest', false) => (Returns tt, dest')
      end
  end.

(** ** The rest of the handle lifecycle *)

Definition with_cameraManagers (v : StdMap.t CameraManager) (s : State) : State :=
  mkState v (g_cameras s) (g_configurations s) (g_allocators s) (g_requests s)
          (g_nextHandle s) (g_completedRequests s) (g_mappedBuffers s) (kernel s).

Definition with_configurations (v : StdMap.t CameraConfiguration) (s : State) : State :=
  mkState (g_cameraManagers s) (g_cameras s) v (g_allocators s) (g_requests s)
          (g_nextHandle s) (g_completedRequests s) (g_mappedBuffers s) (kernel s).

(** [CameraManager_nativeCreate].  [made] is what
    [std::make_shared<CameraManager>()] did: it threw an exception with the
    given [what()], or it built the manager. *)
Definition CameraManager_nativeCreate (made : string + CameraManager) (s : State)
  : Outcome Z * State :=
  match made with
  | inl what => (throwLibCameraException what 0, s)
  | inr cm =>
      let (handle, s1) := allocHandle s in
      (Returns handle,
       with_cameraManagers (StdMap.insert handle cm (g_cameraManagers s1)) s1)
  end.

Definition CameraManager_nativeDestroy (handle : Z) (s : State) : State :=
  with_cameraManagers (StdMap.erase handle (g_cameraManagers s)) s.

(** [CameraManager_nativeGetCameraIds]: the ids of [cameras()], in order;
    [None] is the null array returned with the exception. *)
Definition CameraManager_nativeGetCameraIds (handle : Z) (s : State)
  : Outcome (option (list string)) :=
  match StdMap.find handle (g_cameraManagers s) with
  | None => throwLibCameraException "Invalid CameraManager handle" None
  | Some cm => Returns (Some (map fst cm))
  end.

(** [Camera_nativeRelease]: the session and its completion queue leave
    their tables. *)
Definition Camera_nativeRelease (handle : Z) (s : State) : State :=
  match StdMap.find handle (g_cameras s) with
  | None => s
  | Some _ =>
      let s1 := with_cameras (StdMap.erase handle (g_cameras s)) s in
      with_completedRequests (StdMap.erase handle (g_completedRequests s1)) s1
  end.

(** [Camera_nativeGenerateConfiguration].  The roles are handed to the
    pipeline as they come; [generated] is the configuration it gave back, or
    [None] for a null pointer. *)
Definition Camera_nativeGenerateConfiguration
  (handle : Z) (roles : list Z) (generated : option CameraConfiguration) (s : State)
  : Outcome Z * State :=
  match StdMap.find handle (g_cameras s) with
  | None => (throwLibCameraException "Invalid Camera handle" 0, s)
  | Some _ =>
      match generated with
      | None => (Returns 0, s)
      | Some config =>
          let (configHandle, s1) := allocHandle s in
          (Returns configHandle,
           with_configurations (StdMap.insert configHandle config (g_configurations s1)) s1)
      end
  end.

(** [Camera_nativeConfigure].  [pipeline] is the camera's own [configure]:
    its return code and the configuration as it leaves it. *)
Definition Camera_nativeConfigure (handle configHandle : Z)
  (pipeline : CameraConfiguration -> Z * CameraConfiguration) (s : State)
  : Outcome Z * State :=
  match StdMap.find handle (g_cameras s) with
  | None => (throwLibCameraException "Invalid Camera handle" (-1), s)
  | Some _ =>
      match StdMap.find configHandle (g_configurations s) with
      | None => (throwLibCameraException "Invalid CameraConfiguration handle" (-1), s)
      | Some conf =>
          let (rc, conf') := pipeline conf in
          (Returns rc,
           with_configurations (StdMap.insert configHandle conf' (g_configurations s)) s)
      end
  end.

(** [while (!q.empty()) q.pop();] *)
Fixpoint pop_all (q : list Z) : list Z :=
  match q with
  | [] => []
  | _ :: rest => pop_all rest
  end.

(** [Camera_nativeStop]: after the camera's own [stop()], the loop over
    [g_completedRequests[handle]], an entry that [operator[]] makes when it
    is not there. *)
Definition Camera_nativeStop (handle : Z) (s : State) : State :=
  match StdMap.find handle (g_cameras s) with
  | None => s
  | Some _ =>
      with_completedRequests
        (StdMap.insert handle (pop_all (StdMap.get_or [] handle (g_completedRequests s)))
                       (g_completedRequests s)) s
  end.

(** ** CameraConfiguration native methods *)

Definition CameraConfiguration_nativeDestroy (handle : Z) (s : State) : State :=
  with_configurations (StdMap.erase handle (g_configurations s)) s.

Definition CameraConfiguration_nativeSize (handle : Z) (s : State) : Z :=
  match StdMap.find handle (g_configurations s) with
  | None => 0
  | Some conf => to_jint (config_size conf)
  end.

(** The body the four per-stream getters share: 0 for a handle that is not
    found and for an index outside [0, size()), the field of
    [at(index)], narrowed to [jint], otherwise. *)
Definition config_get (field : StreamConfiguration -> Z) (handle index : Z) (s : State)
  : Outcome Z :=
  match StdMap.find handle (g_configurations s) with
  | None => Returns 0
  | Some conf =>
      if (index <? 0) || (config_size conf <=? index) then Returns 0
      else
        match config_at conf index with
        | None => Undefined
        | Some sc => Returns (to_jint (field sc))
        end
  end.

Definition CameraConfiguration_nativeGetWidth : Z -> Z -> State -> Outcome Z :=
  config_get sc_width.
Definition CameraConfiguration_nativeGetHeight : Z -> Z -> State -> Outcome Z :=
  config_get sc_height.
Definition CameraConfiguration_nativeGetStride : Z -> Z -> State -> Outcome Z :=
  config_get sc_stride.
Definition CameraConfiguration_nativeGetPixelFormat : Z -> Z -> State -> Outcome Z :=
  config_get sc_pixelFormat.

(** [l] with [f] applied to its element [n]. *)
Fixpoint update_nth {A : Type} (n : nat) (f : A -> A) (l : list A) : list A :=
  match l, n with
  | [], _ => []
  | x :: l', O => f x :: l'
  | x :: l', S n' => x :: update_nth n' f l'
  end.

(** The body the three per-stream setters share: a plain [return] for a
    handle that is not found and for an index outside [0, size()), the
    assignment to the fields of [at(index)] otherwise. *)
Definition config_set (assign : StreamConfiguration -> StreamConfiguration)
  (handle index : Z) (s : State) : Outcome unit * State :=
  match StdMap.find handle (g_configurations s) with
  | None => (Returns tt, s)
  | Some conf =>
      if (index <? 0) || (config_size conf <=? index) then (Returns tt, s)
      else
        match config_at conf index with
        | None => (Undefined, s)
        | Some _ =>
            (Returns tt,
             with_configurations
               (StdMap.insert handle (update_nth (Z.to_nat (to_uint index)) assign conf)
                              (g_configurations s)) s)
        end
  end.

(** The fields are [unsigned int] (and the fourcc a [uint32_t]): a [jint] is
    converted on the way in. *)
Definition CameraConfiguration_nativeSetSize (handle index width height : Z) (s : State)
  : Outcome unit * State :=
  config_set (fun sc => mkStreamConfiguration (to_uint width) (to_uint height) (sc_stride sc)
                          (sc_pixelFormat sc) (sc_bufferCount sc) (sc_stream sc))
             handle index s.

Definition CameraConfiguration_nativeSetPixelFormat (handle index fourcc : Z) (s : State)
  : Outcome unit * State :=
  config_set (fun sc => mkStreamConfiguration (sc_width sc) (sc_height sc) (sc_stride sc)
                          (to_uint fourcc) (sc_bufferCount sc) (sc_stream sc))
             handle index s.

Definition CameraConfiguration_nativeSetBufferCount (handle index count : Z) (s : State)
  : Outcome unit * State :=
  config_set (fun sc => mkStreamConfiguration (sc_width sc) (sc_height sc) (sc_stride sc)
                          (sc_pixelFormat sc) (to_uint count) (sc_stream sc))
             handle index s.

(** ** FrameBufferAllocator lifecycle *)

(** [FrameBufferAllocator_nativeCreate]: a new allocator for the camera,
    with no buffers yet. *)
Definition FrameBufferAllocator_nativeCreate (cameraHandle : Z) (s : State)
  : Outcome Z * State :=
  match StdMap.find cameraHandle (g_cameras s) with
  | None => (throwLibCameraException "Invalid Camera handle" 0, s)
  | Some _ =>
      let (handle, s1) := allocHandle s in
      (Returns handle, with_allocators (StdMap.insert handle [] (g_allocators s1)) s1)
  end.

Definition FrameBufferAllocator_nativeDestroy (handle : Z) (s : State) : State :=
  with_allocators (StdMap.erase handle (g_allocators s)) s.

(** ** The other metadata getters *)

(** The body the metadata getters share: the default for a handle that is
    not found and for a property the metadata does not hold, the reported
    value otherwise. *)
Definition metadata_getter {A : Type} (read : ControlList -> option A) (default : A)
  (handle : Z) (s : State) : Outcome A :=
  match StdMap.find handle (g_requests s) with
  | None => Returns default
  | Some r =>
      match read (req_metadata r) with
      | Some v => Returns v
      | None => Returns default
      end
  end.

(** [metadata.get(control)] at the control's type [Span<const T, n>], a
    span of exactly [n] elements, followed by the reads of the elements
    [0] to [n-1] with which the getter copies them out. *)
Definition get_float_span (n : nat) (id : ControlId) (l : ControlList) : option (list float) :=
  match ctl_get id l with
  | Some (CFloatArray v) =>
      if Nat.eqb (List.length v) n
      then Some (map (fun i => nth i v 0%float) (seq 0 n))
      else None
  | _ => None
  end.

Definition get_int32_span (n : nat) (id : ControlId) (l : ControlList) : option (list Z) :=
  match ctl_get id l with
  | Some (CInt32Array v) =>
      if Nat.eqb (List.length v) n
      then Some (map (fun i => nth i v 0) (seq 0 n))
      else None
  | _ => None
  end.

Definition Request_nativeGetDigitalGain : Z -> State -> Outcome float :=
  metadata_getter (get_float DigitalGain) 1.0%float.

Definition Request_nativeGetColourGains : Z -> State -> Outcome (list float) :=
  metadata_getter (get_float_span 2 ColourGains) [1.0%float; 1.0%float].

Definition Request_nativeGetColourTemperature : Z -> State -> Outcome Z :=
  metadata_getter (get_int32 ColourTemperature) 0.

Definition Request_nativeGetLux : Z -> State -> Outcome float :=
  metadata_getter (get_float Lux) 0.0%float.

Definition Request_nativeGetSensorBlackLevels : Z -> State -> Outcome (list Z) :=
  metadata_getter (get_int32_span 4 SensorBlackLevels) [4096; 4096; 4096; 4096].

Definition Request_nativeGetColourCorrectionMatrix : Z -> State -> Outcome (list float) :=
  metadata_getter (get_float_span 9 ColourCorrectionMatrix)
                  [1.0%float; 0.0%float; 0.0%float;
                   0.0%float; 1.0%float; 0.0%float;
                   0.0%float; 0.0%float; 1.0%float].

(** ** The natives that look a buffer up

    [Request_nativeAddBuffer], [Request_nativeGetTimestamp] and
    [Request_nativeGetSequence] find their buffer as [nativeMapBuffer]
    does, through [at(streamIndex)] without a range check. *)

(** [Request_nativeAddBuffer].  [addBuffer] is the request's own
    [addBuffer(stream, buffer)]: its return code. *)
Definition Request_nativeAddBuffer
  (handle configHandle streamIndex allocatorHandle bufferIndex : Z)
  (addBuffer : Request -> Z -> FrameBuffer -> Z) (s : State) : Outcome Z :=
  match StdMap.find handle (g_requests s) with
  | None => throwLibCameraException "Invalid Request handle" (-1)
  | Some r =>
      match StdMap.find configHandle (g_configurations s) with
      | None => throwLibCameraException "Invalid CameraConfiguration handle" (-1)
      | Some conf =>
          match StdMap.find allocatorHandle (g_allocators s) with
          | None => throwLibCameraException "Invalid FrameBufferAllocator handle" (-1)
          | Some alloc =>
              match config_at conf streamIndex with
              | None => Undefined
              | Some sc =>
                  let bufs := buffers alloc (sc_stream sc) in
                  if (bufferIndex <? 0) || (Z.of_nat (List.length bufs) <=? bufferIndex)
                  then throwLibCameraException "Invalid buffer index" (-1)
                  else
                    match nth_error bufs (Z.to_nat bufferIndex) with
                    | None => Undefined
                    | Some fb => Returns (addBuffer r (sc_stream sc) fb)
                    end
              end
          end
      end
  end.

(** The body [Request_nativeGetTimestamp] and [Request_nativeGetSequence]
    share; [field] is the field of [buffers[bufferIndex]->metadata()] that
    is read, as the pipeline filled it in.  The request handle is not
    looked at. *)
Definition buffer_metadata (field : FrameBuffer -> Z)
  (handle configHandle streamIndex allocatorHandle bufferIndex : Z) (s : State)
  : Outcome Z :=
  match StdMap.find allocatorHandle (g_allocators s),
        StdMap.find configHandle (g_configurations s) with
  | Some alloc, Some conf =>
      match config_at conf streamIndex with
      | None => Undefined
      | Some sc =>
          let bufs := buffers alloc (sc_stream sc) in
          if (0 <=? bufferIndex) && (bufferIndex <? Z.of_nat (List.length bufs))
          then
            match nth_error bufs (Z.to_nat bufferIndex) with
            | None => Undefined
            | Some fb => Returns (to_jlong (field fb))
            end
          else Returns 0
      end
  | _, _ => Returns 0
  end.

Definition Request_nativeGetTimestamp (timestamp : FrameBuffer -> Z)
  : Z -> Z -> Z -> Z -> Z -> State -> Outcome Z :=
  buffer_metadata timestamp.

Definition Request_nativeGetSequence (sequence : FrameBuffer -> Z)
  : Z -> Z -> Z -> Z -> Z -> State -> Outcome Z :=
  buffer_metadata sequence.

(** ** The natives that hand over to libcamera

    Each finds its object and calls one method of it; what the method
    returns, and how it leaves the object, is the library's and is given. *)

(** [CameraManager_nativeStart].  [pipeline] is the manager's own
    [start()]: its return code and the manager, with the cameras it lists,
    afterwards. *)
Definition CameraManager_nativeStart (handle : Z)
  (pipeline : CameraManager -> Z * CameraManager) (s : State) : Outcome Z * State :=
  match StdMap.find handle (g_cameraManagers s) with
  | None => (throwLibCameraException "Invalid CameraManager handle" (-1), s)
  | Some cm =>
      let (rc, cm') := pipeline cm in
      (Returns rc, with_cameraManagers (StdMap.insert handle cm' (g_cameraManagers s)) s)
  end.

(** [CameraManager_nativeStop].  [pipeline] is the manager's own
    [stop()]. *)
Definition CameraManager_nativeStop (handle : Z)
  (pipeline : CameraManager -> CameraManager) (s : State) : State :=
  match StdMap.find handle (g_cameraManagers s) with
  | None => s
  | Some cm => with_cameraManagers (StdMap.insert handle (pipeline cm) (g_cameraManagers s)) s
  end.

(** [Camera_nativeAcquire].  [acquired] is what the camera's [acquire()]
    returns. *)
Definition Camera_nativeAcquire (handle acquired : Z) (s : State) : Outcome Z :=
  match StdMap.find handle (g_cameras s) with
  | None => throwLibCameraException "Invalid Camera handle" (-1)
  | Some _ => Returns acquired
  end.

(** The slots connected to [camera->requestCompleted], per camera.  The
    only slot this file connects is [requestCompleted], so the number of
    connections is what is kept. *)
Definition Signals : Type := StdMap.t nat.

Definition slots (camera : Camera) (sig : Signals) : nat := StdMap.get_or 0%nat camera sig.

(** [Camera_nativeStart]: [requestCompleted.connect(requestCompleted)] at
    every call, with no [disconnect] anywhere in the file, and then the
    camera's own [start()], which returns [started]. *)
Definition Camera_nativeStart (handle started : Z) (s : State) (sig : Signals)
  : Outcome Z * Signals :=
  match StdMap.find handle (g_cameras s) with
  | None => (throwLibCameraException "Invalid Camera handle" (-1), sig)
  | Some camera => (Returns started, StdMap.insert camera (S (slots camera sig)) sig)
  end.


(** [CameraConfiguration_nativeValidate].  [pipeline] is the
    configuration's own [validate()]: its status and the configuration as
    adjusted. *)
Definition CameraConfiguration_nativeValidate (handle : Z)
  (pipeline : CameraConfiguration -> Z * CameraConfiguration) (s : State)
  : Z * State :=
  match StdMap.find handle (g_configurations s) with
  | None => (-1, s)
  | Some conf =>
      let (status, conf') := pipeline conf in
      (to_jint status,
       with_configurations (StdMap.insert handle conf' (g_configurations s)) s)
  end.

(** [Request_nativeReuse]: [reuse(Request::ReuseBuffers)] puts the request
    back to pending and clears its controls and its metadata. *)
Definition Request_nativeReuse (handle : Z) (s : State) : Z * State :=
  match StdMap.find handle (g_requests s) with
  | None => (-1, s)
  | Some r =>
      (0, with_requests
            (StdMap.insert handle (mkRequest (req_addr r) (req_cookie r) [] [])
                           (g_requests s)) s)
  end.

(** ** What the pipeline writes

    Between the calls the camera fills what the bindings only read: the
    memory behind the buffers (mapped [MAP_SHARED]) and the metadata of a
    request it completes. *)

(** The memory behind the descriptors now reads [file]. *)
Definition buffers_written (file : Z -> Z -> Byte.byte) (s : State) : State :=
  with_kernel (mkKernel (k_mappings (kernel s)) (k_mmap_errno (kernel s)) file) s.

(** The request under [requestHandle] now holds [metadata]. *)
Definition metadata_written (requestHandle : Z) (metadata : ControlList) (s : State)
  : State :=
  match StdMap.find requestHandle (g_requests s) with
  | None => s
  | Some r =>
      with_requests
        (StdMap.insert requestHandle
           (mkRequest (req_addr r) (req_cookie r) (req_controls r) metadata)
           (g_requests s)) s
  end.

(** ** A process as a sequence of calls

    The calls of the Java side, each with what its collaborators answered,
    one run of the completion slot ([Completed]), and what the pipeline
    writes between the calls ([BuffersWritten], [MetadataWritten]). *)
Inductive Call : Type :=
| ManagerCreate (made : string + CameraManager)
| ManagerDestroy (handle : Z)
| GetCamera (handle : Z) (cameraId : string)
| Release (handle : Z)
| GenerateConfiguration (handle : Z) (roles : list Z) (generated : option CameraConfiguration)
| Configure (handle configHandle : Z) (pipeline : CameraConfiguration -> Z * CameraConfiguration)
| Stop (handle : Z)
| CreateRequest (handle cookie : Z) (created : option Z)
| Completed (request : Request)
| Poll (handle : Z)
| ConfigurationDestroy (handle : Z)
| ConfigurationSet (assign : StreamConfiguration -> StreamConfiguration) (handle index : Z)
| AllocatorCreate (cameraHandle : Z)
| AllocatorDestroy (handle : Z)
| Allocate (handle configHandle streamIndex : Z)
           (pipeline : FrameBufferAllocator -> Z -> Z * FrameBufferAllocator)
| RequestDestroy (handle : Z)
| SetControl (handle : Z) (id : ControlId) (v : ControlValue)
| MapBuffer (allocatorHandle configHandle streamIndex bufferIndex : Z)
| UnmapBuffer (mapHandle : Z)
| AddBuffer (handle configHandle streamIndex allocatorHandle bufferIndex : Z)
            (addBuffer : Request -> Z -> FrameBuffer -> Z)
| GetTimestamp (timestamp : FrameBuffer -> Z)
               (handle configHandle streamIndex allocatorHandle bufferIndex : Z)
| GetSequence (sequence : FrameBuffer -> Z)
              (handle configHandle streamIndex allocatorHandle bufferIndex : Z)
| ManagerStart (handle : Z) (pipeline : CameraManager -> Z * CameraManager)
| ManagerStop (handle : Z) (pipeline : CameraManager -> CameraManager)
| Acquire (handle acquired : Z)
| Start (handle started : Z)
| QueueRequest (handle requestHandle status : Z)
| Validate (handle : Z) (pipeline : CameraConfiguration -> Z * CameraConfiguration)
| Reuse (handle : Z)
| CopyBuffer (mapHandle : Z) (dest : list Byte.byte) (destOffset length : Z)
| BuffersWritten (file : Z -> Z -> Byte.byte)
| MetadataWritten (requestHandle : Z) (metadata : ControlList).

(** The state a call is known to leave. *)
Definition defined {A : Type} (r : Outcome A * State) : option State :=
  match fst r with
  | Undefined => None
  | _ => Some (snd r)
  end.

(** One call: the state after it, or [None] when the call runs into
    undefined behaviour.  The connections [Start] makes are kept by the
    camera, not by the globals; the natives that only read a table
    ([getCameraIds], [getId], [nativeStatus], [nativeVersion], the buffer
    count, the configuration and metadata getters, the length of a view)
    change nothing and are left out. *)
Definition step (c : Call) (s : State) : option State :=
  match c with
  | ManagerCreate made => defined (CameraManager_nativeCreate made s)
  | ManagerDestroy handle => Some (CameraManager_nativeDestroy handle s)
  | GetCamera handle cameraId => defined (CameraManager_nativeGetCamera handle cameraId s)
  | Release handle => Some (Camera_nativeRelease handle s)
  | GenerateConfiguration handle roles generated =>
      defined (Camera_nativeGenerateConfiguration handle roles generated s)
  | Configure handle configHandle pipeline =>
      defined (Camera_nativeConfigure handle configHandle pipeline s)
  | Stop handle => Some (Camera_nativeStop handle s)
  | CreateRequest handle cookie created =>
      defined (Camera_nativeCreateRequest handle cookie created s)
  | Completed request => Some (requestCompleted request s)
  | Poll handle => Some (snd (Camera_nativePollCompletedRequest handle s))
  | ConfigurationDestroy handle => Some (CameraConfiguration_nativeDestroy handle s)
  | ConfigurationSet assign handle index => defined (config_set assign handle index s)
  | AllocatorCreate cameraHandle => defined (FrameBufferAllocator_nativeCreate cameraHandle s)
  | AllocatorDestroy handle => Some (FrameBufferAllocator_nativeDestroy handle s)
  | Allocate handle configHandle streamIndex pipeline =>
      defined (FrameBufferAllocator_nativeAllocate handle configHandle streamIndex pipeline s)
  | RequestDestroy handle => Some (Request_nativeDestroy handle s)
  | SetControl handle id v => defined (set_control handle id v s)
  | MapBuffer allocatorHandle configHandle streamIndex bufferIndex =>
      defined (FrameBuffer_nativeMapBuffer allocatorHandle configHandle streamIndex
                                           bufferIndex s)
  | UnmapBuffer mapHandle => Some (FrameBuffer_nativeUnmapBuffer mapHandle s)
  | AddBuffer handle configHandle streamIndex allocatorHandle bufferIndex addBuffer =>
      defined (Request_nativeAddBuffer handle configHandle streamIndex allocatorHandle
                                       bufferIndex addBuffer s, s)
  | GetTimestamp timestamp handle configHandle streamIndex allocatorHandle bufferIndex =>
      defined (Request_nativeGetTimestamp timestamp handle configHandle streamIndex
                                          allocatorHandle bufferIndex s, s)
  | GetSequence sequence handle configHandle streamIndex allocatorHandle bufferIndex =>
      defined (Request_nativeGetSequence sequence handle configHandle streamIndex
                                         allocatorHandle bufferIndex s, s)
  | ManagerStart handle pipeline => defined (CameraManager_nativeStart handle pipeline s)
  | ManagerStop handle pipeline => Some (CameraManager_nativeStop handle pipeline s)
  | Acquire handle acquired => defined (Camera_nativeAcquire handle acquired s, s)
  | Start handle started =>
      defined (fst (Camera_nativeStart handle started s StdMap.empty), s)
  | QueueRequest handle requestHandle status =>
      defined (Camera_nativeQueueRequest handle requestHandle status s, s)
  | Validate handle pipeline =>
      Some (snd (CameraConfiguration_nativeValidate handle pipeline s))
  | Reuse handle => Some (snd (Request_nativeReuse handle s))
  | CopyBuffer mapHandle dest destOffset length =>
      defined (fst (FrameBuffer_nativeCopyBuffer mapHandle dest destOffset length s), s)
  | BuffersWritten file => Some (buffers_written file s)
  | MetadataWritten requestHandle metadata =>
      Some (metadata_written requestHandle metadata s)
  end.

(** A sequence of calls, one after the other. *)
Fixpoint run (calls : list Call) (s : State) : option State :=
  match calls with
  | [] => Some s
  | c :: rest =>
      match step c s with
      | Some s1 => run rest s1
      | None => None
      end
  end.

(** [h] names a resource in table [m]. *)
Definition has {V : Type} (h : Z) (m : StdMap.t V) : bool :=
  match StdMap.find h m with
  | Some _ => true
  | None => false
  end.

(** In how many of the six resource tables [h] names a resource. *)
Definition kinds (h : Z) (s : State) : nat :=
  (Nat.b2n (has h (g_cameraManagers s)) + Nat.b2n (has h (g_cameras s))
   + Nat.b2n (has h (g_configurations s)) + Nat.b2n (has h (g_allocators s))
   + Nat.b2n (has h (g_requests s)) + Nat.b2n (has h (g_mappedBuffers s)))%nat.

(** The handle discipline of the tables: the counter is positive; a handle
    that names anything was handed out by the counter; no handle names
    resources of two kinds; and the sessions are exactly the handles that
    have a completion queue. *)
Definition handles_ok (s : State) : Prop :=
  1 <= g_nextHandle s
  /\ (forall h, (kinds h s <> 0)%nat -> 1 <= h < g_nextHandle s)
  /\ (forall h, (kinds h s <= 1)%nat)
  /\ (forall h, has h (g_completedRequests s) = has h (g_cameras s)).

(** ** Runs of calls *)



(** [n] polls of one session in a row, and what they return. *)
Fixpoint poll_n (n : nat) (handle : Z) (s : State) : list Z * State :=
  match n with
  | O => ([], s)
  | S n' =>
      let (ret, s1) := Camera_nativePollCompletedRequest handle s in
      let (rets, s2) := poll_n n' handle s1 in
      (ret :: rets, s2)
  end.

(** ** Vocabulary of the properties *)

(** The completion queue of a session, empty when it has none. *)
Definition queue_of (handle : Z) (s : State) : list Z :=
  StdMap.get_or [] handle (g_completedRequests s).


(** [r] is the request registered under [rh], and no other entry of the
    table holds an object at its address (the table owns its requests
    through [unique_ptr]). *)
Definition registered (requests : StdMap.t Request) (rh : Z) (r : Request) : Prop :=
  In (rh, r) requests
  /\ forall rh' r', In (rh', r') requests -> req_addr r' = req_addr r -> rh' = rh.

(** The buffer a [map] call is about: buffer [bufferIndex] of the stream
    that stream configuration [streamIndex] names. *)
Definition target_buffer (allocatorHandle configHandle streamIndex bufferIndex : Z)
  (s : State) : option FrameBuffer :=
  match StdMap.find allocatorHandle (g_allocators s),
        StdMap.find configHandle (g_configurations s) with
  | Some alloc, Some conf =>
      match config_at conf streamIndex with
      | Some sc => nth_error (buffers alloc (sc_stream sc)) (Z.to_nat bufferIndex)
      | None => None
      end
  | _, _ => None
  end.

(** The declared lengths of the planes of a buffer, added up. *)
Definition sum_lengths (planes : list Plane) : Z :=
  fold_right (fun p acc => pl_length p + acc) 0 planes.

(** What [copyOut] reads of a mapped plane: the bytes behind its leading
    offset, [mp_length - mp_offset] of them. *)
Definition payload_length (mp : MappedPlane) : Z := to_size_t (mp_length mp - mp_offset mp).

(** The payload lengths of the planes of a view, added up. *)
Definition sum_payload_lengths (planes : list MappedPlane) : Z :=
  fold_right (fun mp acc => payload_length mp + acc) 0 planes.

(** A plane whose [unsigned int] fields are in range and whose
    [offset + length] does not wrap. *)
Definition plane_in_range (p : Plane) : Prop :=
  0 <= pl_offset p /\ 0 <= pl_length p /\ pl_offset p + pl_length p < 2 ^ 32.

(** A plane the loop of [nativeMapBuffer] refuses: an invalid descriptor, a
    zero computed size, or one that the kernel will not map. *)
Definition refused_plane (k : Kernel) (p : Plane) : Prop :=
  pl_fd p < 0
  \/ mapSize p = 0
  \/ forall ms, k_mmap_errno k ms (pl_fd p) (mapSize p) <> None.

(** The address space with one more mapping: what a successful [mmap]
    leaves. *)
Definition add_mapping (m : Mapping) (k : Kernel) : Kernel :=
  mkKernel (m :: k_mappings k) (k_mmap_errno k) (k_file k).

(** Every plane mapped so far ends at or below the address the next [mmap]
    will pick. *)
Definition below_fresh (planes : list MappedPlane) (k : Kernel) : Prop :=
  Forall (fun mp => mp_data mp + mp_length mp <= fresh_addr (k_mappings k)) planes.

(** [dest] with [bytes] written over it from index [start] on. *)
Definition splice (dest : list Byte.byte) (start : nat) (bytes : list Byte.byte)
  : list Byte.byte :=
  firstn start dest ++ bytes ++ skipn (start + List.length bytes) dest.

(** The bytes of a mapped plane behind its leading offset. *)
Definition plane_payload (k : Kernel) (mp : MappedPlane) : option (list Byte.byte) :=
  load_bytes k (mp_data mp + mp_offset mp) (Z.to_nat (mp_length mp - mp_offset mp)).

(** A mapped plane whose offset lies inside the mapped length. *)
Definition offset_inside (mp : MappedPlane) : Prop :=
  0 <= mp_offset mp <= mp_length mp /\ mp_length mp < 2 ^ 64.

(** A view whose planes are mapped and readable, plane [i] holding
    [payloads[i]] behind its offset, and whose total length is the number of
    those bytes. *)
Definition readable_view (k : Kernel) (view : MappedBuffer)
  (payloads : list (list Byte.byte)) : Prop :=
  Forall2 (fun mp bytes => offset_inside mp /\ plane_payload k mp = Some bytes)
          (mb_planes view) payloads
  /\ mb_totalLength view = Z.of_nat (List.length (List.concat payloads)).

(** [copyOut] as the specification words it: the first
    [min(maxLength, totalLength)] bytes of the payloads, cut down to what
    fits the destination behind [destOffset], written from [destOffset]
    on. *)
Definition copyOut_as_specified (payloads : list (list Byte.byte)) (totalLength : Z)
  (dest : list Byte.byte) (destOffset maxLength : Z) : list Byte.byte :=
  let n := Z.min (Z.min maxLength totalLength) (Z.of_nat (List.length dest) - destOffset) in
  splice dest (Z.to_nat destOffset) (firstn (Z.to_nat n) (List.concat payloads)).

(** What a creating call returned is 0 or a handle that named nothing
    before the call and names one resource after it. *)
Definition returns_fresh_handle (s : State) (r : Outcome Z * State) : Prop :=
  forall h,
    fst r = Returns h -> h <> 0 ->
    h = g_nextHandle s
    /\ kinds h s = 0%nat
    /\ has h (g_completedRequests s) = false
    /\ kinds h (snd r) = 1%nat
    /\ handles_ok (snd r).

(** The metadata of the request under [handle], if there is one, holds no
    value for [id]. *)
Definition not_reported (id : ControlId) (handle : Z) (s : State) : Prop :=
  forall r, StdMap.find handle (g_requests s) = Some r -> ctl_get id (req_metadata r) = None.

(** Plane [i] of the view under handle [h]. *)
Definition plane_of (s : State) (h : Z) (i : nat) : option MappedPlane :=
  match StdMap.find h (g_mappedBuffers s) with
  | Some view => nth_error (mb_planes view) i
  | None => None
  end.

(** Two mapped planes that share no address. *)
Definition apart (p q : MappedPlane) : Prop :=
  mp_data p + mp_length p <= mp_data q \/ mp_data q + mp_length q <= mp_data p.

(** A mapped plane of positive length that is one of the mappings of the
    address space. *)
Definition backed (k : Kernel) (p : MappedPlane) : Prop :=
  0 < mp_length p
  /\ exists m, In m (k_mappings k) /\ m_addr m = mp_data p /\ m_len m = mp_length p.

(** Every plane of every view is mapped, and no two of them overlap. *)
Definition views_ok (s : State) : Prop :=
  (forall h i p, plane_of s h i = Some p -> backed (kernel s) p)
  /\ (forall h i p h' i' p',
         plane_of s h i = Some p -> plane_of s h' i' = Some p' ->
         (h, i) <> (h', i') -> apart p p').

(** The process some calls after load time, on the kernel [k]. *)
Definition process (k : Kernel) (calls : list Call) : option State :=
  run calls (with_kernel k initial_state).

(** The stream index a call hands to [at(index)] without a range check,
    with the configuration it indexes: the four natives that look a buffer
    up do so once their handles are found. *)
Definition unchecked_index (c : Call) (s : State) : option (CameraConfiguration * Z) :=
  match c with
  | MapBuffer allocatorHandle configHandle streamIndex _ =>
      match StdMap.find allocatorHandle (g_allocators s),
            StdMap.find configHandle (g_configurations s) with
      | Some _, Some conf => Some (conf, streamIndex)
      | _, _ => None
      end
  | AddBuffer handle configHandle streamIndex allocatorHandle _ _ =>
      match StdMap.find handle (g_requests s),
            StdMap.find configHandle (g_configurations s),
            StdMap.find allocatorHandle (g_allocators s) with
      | Some _, Some conf, Some _ => Some (conf, streamIndex)
      | _, _, _ => None
      end
  | GetTimestamp _ _ configHandle streamIndex allocatorHandle _
  | GetSequence _ _ configHandle streamIndex allocatorHandle _ =>
      match StdMap.find allocatorHandle (g_allocators s),
            StdMap.find configHandle (g_configurations s) with
      | Some _, Some conf => Some (conf, streamIndex)
      | _, _ => None
      end
  | _ => None
  end.

(** ** Example processes *)

(** After [CameraManager_nativeCreate] and [start]: one manager under handle
    1 that knows the camera ["cam0"]. *)
Definition manager_state : State :=
  mkState [(1, [("cam0"%string, 61440)])] [] [] [] [] 2 [] [] quiet_kernel.

(** ... after opening ["cam0"]: the session has handle 2. *)
Definition session_state : State :=
  snd (CameraManager_nativeGetCamera 1 "cam0" manager_state).

(** ... after creating one request, at address 65536: it has handle 3. *)
Definition request_state : State :=
  snd (Camera_nativeCreateRequest 2 0 (Some 65536) session_state).

(** The buffer of two planes used below: 12288 bytes at offset 0 and 6144
    bytes at offset 12288 of descriptor 9. *)
Definition two_plane_buffer : FrameBuffer :=
  mkFrameBuffer [mkPlane 9 0 12288; mkPlane 9 12288 6144].

(** [session_state] some calls later: a configuration of one stream under
    handle 3 and an allocator under handle 4 that holds the one buffer [fb]
    for that stream; [k] is the kernel the process runs on. *)
Definition buffer_process (fb : FrameBuffer) (k : Kernel) : State :=
  mkState (g_cameraManagers session_state) (g_cameras session_state)
          [(3, [mkStreamConfiguration 128 96 128 842094158 4 20480])]
          [(4, [(20480, [fb])])] [] 5 (g_completedRequests session_state) [] k.

Definition buffer_state : State := buffer_process two_plane_buffer quiet_kernel.

(** The allocator's own [allocate], as far as an example needs it: it
    allocates nothing and reports 0 buffers. *)
Definition idle_pipeline (a : FrameBufferAllocator) (stream : Z) : Z * FrameBufferAllocator :=
  (0, a).

(** A kernel that maps one region and then reports it is out of memory. *)
Definition low_memory_kernel : Kernel :=
  mkKernel []
           (fun ms _ _ => match ms with
                          | [] => None
                          | _ :: _ => Some "Cannot allocate memory"%string
                          end)
           (fun _ _ => Byte.x00).

Definition low_memory_state : State := buffer_process two_plane_buffer low_memory_kernel.

(** The byte with value [z mod 256]. *)
Definition byte_of_Z (z : Z) : Byte.byte :=
  match Byte.of_N (Z.to_N (z mod 256)) with
  | Some b => b
  | None => Byte.x00
  end.

(** A kernel where byte [i] behind every descriptor is [i]. *)
Definition counting_kernel : Kernel :=
  mkKernel [] (fun _ _ _ => None) (fun _ i => byte_of_Z i).

(** A process with a small buffer: 3 bytes at offset 2 of descriptor 9 and 2
    bytes at offset 1 of descriptor 10. *)
Definition small_buffer_state : State :=
  buffer_process (mkFrameBuffer [mkPlane 9 2 3; mkPlane 10 1 2]) counting_kernel.

(** ... after mapping that buffer: the view has handle 5. *)
Definition small_view_state : State :=
  snd (FrameBuffer_nativeMapBuffer 4 3 0 0 small_buffer_state).

(** The pipeline behind [small_buffer_state]: [allocate] leaves the stream
    with that one buffer. *)
Definition small_pipeline (a : FrameBufferAllocator) (stream : Z) : Z * FrameBufferAllocator :=
  (1, [(stream, [mkFrameBuffer [mkPlane 9 2 3; mkPlane 10 1 2]])]).

(** The calls that lead from load time to [small_view_state]. *)
Definition small_view_calls : list Call :=
  [ManagerCreate (inr [("cam0"%string, 61440)]); GetCamera 1 "cam0";
   GenerateConfiguration 2 [] (Some [mkStreamConfiguration 128 96 128 842094158 4 20480]);
   AllocatorCreate 2; Allocate 4 3 0 small_pipeline; MapBuffer 4 3 0 0].

(** ... after mapping the buffer once more: the second view has handle 6. *)
Definition two_views_state : State :=
  snd (FrameBuffer_nativeMapBuffer 4 3 0 0 small_view_state).

(** * Properties *)

(** ** Machine integers *)

Lemma to_jlong_in_range (x : Z) :
  - 2 ^ 63 <= x < 2 ^ 63 -> to_jlong x = x.
Proof.
  intros H. unfold to_jlong, wrap_signed.
  replace (64 - 1) with 63 by lia.
  rewrite Z.mod_small; lia.
Qed.

Lemma to_jint_in_range (x : Z) :
  - 2 ^ 31 <= x < 2 ^ 31 -> to_jint x = x.
Proof.
  intros H. unfold to_jint, wrap_signed.
  replace (32 - 1) with 31 by lia.
  rewrite Z.mod_small; lia.
Qed.

Lemma to_size_t_in_range (x : Z) :
  0 <= x < 2 ^ 64 -> to_size_t x = x.
Proof. intros H. unfold to_size_t, wrap_unsigned. apply Z.mod_small; lia. Qed.

Lemma to_uint_in_range (x : Z) :
  0 <= x < 2 ^ 32 -> to_uint x = x.
Proof. intros H. unfold to_uint, wrap_unsigned. apply Z.mod_small; lia. Qed.

(** ** Handle allocation *)

(** The handles of [n] allocations in a row are the [n] integers from
    [g_nextHandle] on, as long as the counter stays a [jlong]. *)
Lemma allocHandle_n_handles (n : nat) :
  forall s : State,
    - 2 ^ 63 <= g_nextHandle s ->
    g_nextHandle s + Z.of_nat n <= jlong_max + 1 ->
    fst (allocHandle_n n s)
    = map (fun i => g_nextHandle s + Z.of_nat i) (seq 0 n).
Proof.
  induction n as [|n IH]; intros s Hmin Hmax; [reflexivity|].
  cbn [allocHandle_n]. unfold allocHandle.
  destruct (allocHandle_n n _) as [hs s2] eqn:E.
  cbn [fst seq map]. rewrite Z.add_0_r. f_equal.
  destruct n as [|n'].
  - cbn in E. injection E as <- _. reflexivity.
  - unfold jlong_max in Hmax.
    specialize (IH (with_nextHandle (to_jlong (g_nextHandle s + 1)) s)).
    rewrite E in IH. cbn [fst with_nextHandle g_nextHandle] in IH.
    rewrite to_jlong_in_range in IH by lia.
    rewrite IH by (unfold jlong_max; lia).
    rewrite <- seq_shift, map_map.
    apply map_ext; intros i. lia.
Qed.

Lemma StronglySorted_consecutive (a : Z) (n : nat) :
  forall k : nat,
    StronglySorted Z.lt (map (fun i => a + Z.of_nat i) (seq k n)).
Proof.
  induction n as [|n IH]; intros k; cbn [seq map]; constructor.
  - apply IH.
  - apply Forall_forall. intros x Hx.
    apply in_map_iff in Hx. destruct Hx as [i [<- Hi]].
    apply in_seq in Hi. lia.
Qed.

Lemma StronglySorted_lt_NoDup (l : list Z) :
  StronglySorted Z.lt l -> NoDup l.
Proof.
  induction 1 as [|x l _ IH Hall]; constructor; [|exact IH].
  intros Hin. rewrite Forall_forall in Hall.
  specialize (Hall x Hin). lia.
Qed.

(** C8. From any state whose counter is positive (it starts at 1), [N]
    calls of [allocHandle] that keep the counter within [jlong] return [N]
    strictly increasing values, hence never the same value twice, and never
    0. *)
Theorem allocHandle_strictly_increasing (N : nat) (s : State) :
  1 <= g_nextHandle s ->
  g_nextHandle s + Z.of_nat N <= jlong_max + 1 ->
  let hs := fst (allocHandle_n N s) in
  List.length hs = N
  /\ StronglySorted Z.lt hs
  /\ NoDup hs
  /\ ~ In 0 hs
  /\ hs = map (fun i => g_nextHandle s + Z.of_nat i) (seq 0 N).
Proof.
  intros Hpos Hmax hs.
  assert (E : hs = map (fun i => g_nextHandle s + Z.of_nat i) (seq 0 N)).
  { apply allocHandle_n_handles; [lia|exact Hmax]. }
  assert (Hsorted : StronglySorted Z.lt hs).
  { rewrite E. apply StronglySorted_consecutive. }
  repeat split.
  - rewrite E, length_map, length_seq. reflexivity.
  - exact Hsorted.
  - apply StronglySorted_lt_NoDup, Hsorted.
  - rewrite E. intros Hin. apply in_map_iff in Hin.
    destruct Hin as [i [Hi _]]. lia.
  - exact E.
Qed.

(** The first five handles of a process are 1, 2, 3, 4, 5. *)
Lemma allocHandle_strictly_increasing_witness :
  let hs := fst (allocHandle_n 5 initial_state) in
  List.length hs = 5%nat
  /\ StronglySorted Z.lt hs
  /\ NoDup hs
  /\ ~ In 0 hs
  /\ hs = map (fun i => g_nextHandle initial_state + Z.of_nat i) (seq 0 5).
Proof.
  apply (allocHandle_strictly_increasing 5 initial_state).
  - cbn. lia.
  - vm_compute. discriminate.
Defined.

(** ** The handle tables *)

Lemma find_insert_same {V : Type} (k : Z) (v : V) (m : StdMap.t V) :
  StdMap.find k (StdMap.insert k v m) = Some v.
Proof.
  induction m as [|[k' v'] m IH]; cbn [StdMap.insert StdMap.find].
  - rewrite Z.eqb_refl. reflexivity.
  - destruct (k <? k') eqn:Hlt; cbn [StdMap.find].
    + rewrite Z.eqb_refl. reflexivity.
    + destruct (k =? k') eqn:Heq; cbn [StdMap.find].
      * rewrite Z.eqb_refl. reflexivity.
      * rewrite Z.eqb_sym, Heq. exact IH.
Qed.

Lemma find_insert_other {V : Type} (k k0 : Z) (v : V) (m : StdMap.t V) :
  k0 <> k -> StdMap.find k0 (StdMap.insert k v m) = StdMap.find k0 m.
Proof.
  intros Hne.
  assert (Hk : (k =? k0) = false) by (apply Z.eqb_neq; congruence).
  induction m as [|[k' v'] m IH]; cbn [StdMap.insert StdMap.find].
  - rewrite Hk. reflexivity.
  - destruct (k <? k') eqn:Hlt; cbn [StdMap.find].
    + rewrite Hk. reflexivity.
    + destruct (k =? k') eqn:Heq; cbn [StdMap.find].
      * apply Z.eqb_eq in Heq. subst k'. rewrite Hk. reflexivity.
      * rewrite IH. reflexivity.
Qed.

Lemma find_erase_same {V : Type} (k : Z) (m : StdMap.t V) :
  StdMap.find k (StdMap.erase k m) = None.
Proof.
  unfold StdMap.erase.
  induction m as [|[k' v'] m IH]; cbn [filter StdMap.find fst]; [reflexivity|].
  destruct (k' =? k) eqn:Heq; cbn [negb StdMap.find]; [exact IH|].
  rewrite Heq. exact IH.
Qed.

Lemma find_Some_In {V : Type} (k : Z) (v : V) (m : StdMap.t V) :
  StdMap.find k m = Some v -> In (k, v) m.
Proof.
  induction m as [|[k' v'] m IH]; cbn [StdMap.find]; [discriminate|].
  destruct (k' =? k) eqn:Heq.
  - apply Z.eqb_eq in Heq. subst k'. injection 1 as ->. left. reflexivity.
  - intros H. right. apply IH, H.
Qed.

(** The scan finds [k] when every entry that satisfies [p] sits under key
    [k] and there is one. *)
Lemma first_key_unique {V : Type} (p : V -> bool) (k : Z) (v : V) (m : StdMap.t V) :
  In (k, v) m -> p v = true ->
  (forall k' v', In (k', v') m -> p v' = true -> k' = k) ->
  StdMap.first_key p m = Some k.
Proof.
  induction m as [|[k0 v0] m IH]; intros Hin Hp Huniq; [destruct Hin|].
  cbn [StdMap.first_key].
  destruct (p v0) eqn:Hp0.
  - f_equal. apply (Huniq k0 v0); [left; reflexivity|exact Hp0].
  - destruct Hin as [Heq|Hin]; [congruence|].
    apply IH; [exact Hin|exact Hp|].
    intros k' v' Hin' Hp'. apply (Huniq k' v'); [right; exact Hin'|exact Hp'].
Qed.

Lemma first_key_none {V : Type} (p : V -> bool) (m : StdMap.t V) :
  (forall k v, In (k, v) m -> p v = false) ->
  StdMap.first_key p m = None.
Proof.
  induction m as [|[k0 v0] m IH]; intros Hall; [reflexivity|].
  cbn [StdMap.first_key].
  rewrite (Hall k0 v0) by (left; reflexivity).
  apply IH. intros k v Hin. apply (Hall k v). right. exact Hin.
Qed.

Lemma In_erase {V : Type} (k k' : Z) (v : V) (m : StdMap.t V) :
  In (k', v) (StdMap.erase k m) <-> In (k', v) m /\ k' <> k.
Proof.
  unfold StdMap.erase. rewrite filter_In. cbn [fst].
  rewrite negb_true_iff, Z.eqb_neq. reflexivity.
Qed.

(** ** Controls and metadata *)

Lemma ControlId_eqb_refl (id : ControlId) : ControlId_eqb id id = true.
Proof. destruct id; reflexivity. Qed.

Lemma ctl_get_set_same (id : ControlId) (v : ControlValue) (l : ControlList) :
  ctl_get id (ctl_set id v l) = Some v.
Proof.
  induction l as [|[id' v'] l IH]; cbn [ctl_set ctl_get].
  - rewrite ControlId_eqb_refl. reflexivity.
  - destruct (ControlId_eqb id' id) eqn:E; cbn [ctl_get].
    + rewrite ControlId_eqb_refl. reflexivity.
    + rewrite E. exact IH.
Qed.

(** A setter on a valid handle rewrites the request's outgoing controls and
    nothing else of it. *)
Lemma set_control_valid (handle : Z) (id : ControlId) (v : ControlValue)
  (r : Request) (s : State) :
  StdMap.find handle (g_requests s) = Some r ->
  exists r',
    set_control handle id v s
    = (Returns tt, with_requests (StdMap.insert handle r' (g_requests s)) s)
    /\ ctl_get id (req_controls r') = Some v
    /\ req_metadata r' = req_metadata r
    /\ req_addr r' = req_addr r
    /\ req_cookie r' = req_cookie r.
Proof.
  intros Hfind. unfold set_control. rewrite Hfind.
  eexists. split; [reflexivity|]. cbn.
  repeat split. apply ctl_get_set_same.
Qed.

(** A setter on a handle that is not in the table returns without a trace. *)
Lemma set_control_invalid (handle : Z) (id : ControlId) (v : ControlValue) (s : State) :
  StdMap.find handle (g_requests s) = None ->
  set_control handle id v s = (Returns tt, s).
Proof. intros Hfind. unfold set_control. rewrite Hfind. reflexivity. Qed.

(** C1 (as amended).  On a handle valid in the Request table, setting the
    exposure time to 15000 stores 15000 in the request's outgoing controls
    and leaves its result metadata as it was; the exposure-time getter reads
    the result metadata, so it returns what it returned before the set, and
    0 when the metadata holds no exposure time. *)
Theorem set_exposure_writes_controls_get_reads_metadata
  (handle : Z) (r : Request) (s : State) :
  StdMap.find handle (g_requests s) = Some r ->
  let s' := snd (Request_nativeSetExposureTime handle 15000 s) in
  fst (Request_nativeSetExposureTime handle 15000 s) = Returns tt
  /\ (exists r', StdMap.find handle (g_requests s') = Some r'
                 /\ get_int32 ExposureTime (req_controls r') = Some 15000
                 /\ req_metadata r' = req_metadata r)
  /\ Request_nativeGetExposureTime handle s' = Request_nativeGetExposureTime handle s
  /\ (get_int32 ExposureTime (req_metadata r) = None ->
      Request_nativeGetExposureTime handle s' = Returns 0).
Proof.
  intros Hfind s'.
  destruct (set_control_valid handle ExposureTime (CInt32 15000) r s Hfind)
    as [r' [Hset [Hctl [Hmeta _]]]].
  unfold Request_nativeSetExposureTime in *. subst s'. rewrite Hset.
  cbn [fst snd].
  assert (Hfind' : StdMap.find handle
                     (g_requests (with_requests (StdMap.insert handle r' (g_requests s)) s))
                   = Some r').
  { cbn [with_requests g_requests]. apply find_insert_same. }
  assert (Hget : Request_nativeGetExposureTime handle
                   (with_requests (StdMap.insert handle r' (g_requests s)) s)
                 = Request_nativeGetExposureTime handle s).
  { unfold Request_nativeGetExposureTime. rewrite Hfind', Hfind, Hmeta. reflexivity. }
  split; [reflexivity|]. split; [|split].
  - exists r'. split; [exact Hfind'|]. split; [|exact Hmeta].
    unfold get_int32. rewrite Hctl. reflexivity.
  - exact Hget.
  - intros Hnone. rewrite Hget.
    unfold Request_nativeGetExposureTime. rewrite Hfind, Hnone. reflexivity.
Qed.

Lemma set_exposure_writes_controls_get_reads_metadata_witness :
  let s' := snd (Request_nativeSetExposureTime 3 15000 request_state) in
  fst (Request_nativeSetExposureTime 3 15000 request_state) = Returns tt
  /\ (exists r', StdMap.find 3 (g_requests s') = Some r'
                 /\ get_int32 ExposureTime (req_controls r') = Some 15000
                 /\ req_metadata r' = req_metadata (mkRequest 65536 61440 [] []))
  /\ Request_nativeGetExposureTime 3 s' = Request_nativeGetExposureTime 3 request_state
  /\ (get_int32 ExposureTime (req_metadata (mkRequest 65536 61440 [] [])) = None ->
      Request_nativeGetExposureTime 3 s' = Returns 0).
Proof.
  apply (set_exposure_writes_controls_get_reads_metadata
           3 (mkRequest 65536 61440 [] []) request_state).
  reflexivity.
Defined.

(** C1, as stated, fails: on the freshly created request 3 the getter
    returns 0 after the exposure time was set to 15000. *)
Lemma exposure_time_not_read_back :
  let s' := snd (Request_nativeSetExposureTime 3 15000 request_state) in
  StdMap.find 3 (g_requests request_state) = Some (mkRequest 65536 61440 [] [])
  /\ Request_nativeGetExposureTime 3 s' = Returns 0
  /\ Request_nativeGetExposureTime 3 s' <> Returns 15000.
Proof.
  cbv zeta. split; [reflexivity|]. split; [reflexivity|].
  vm_compute. discriminate.
Qed.

(** C3 (as amended).  A lookup miss is reported as a
    [LibCameraException] that names the resource kind by the operations that
    report errors at all: queueing (camera, request), creating a request
    (camera), opening a camera (manager), mapping (allocator, configuration)
    and copying out (map handle).  The read-path getters answer a miss with
    their default.  The five control setters do not report it: on a handle
    that is not in the Request table they return with no exception pending
    and leave the state as it was. *)
Theorem invalid_handle_reporting (handle : Z) (s : State) :
  StdMap.find handle (g_requests s) = None ->
  (forall camHandle status,
      StdMap.find camHandle (g_cameras s) <> None ->
      Camera_nativeQueueRequest camHandle handle status s
      = Throws (LibCameraException "Invalid Request handle") (-1))
  /\ (forall h requestHandle status,
         StdMap.find h (g_cameras s) = None ->
         Camera_nativeQueueRequest h requestHandle status s
         = Throws (LibCameraException "Invalid Camera handle") (-1))
  /\ (forall h cookie created,
         StdMap.find h (g_cameras s) = None ->
         Camera_nativeCreateRequest h cookie created s
         = (Throws (LibCameraException "Invalid Camera handle") 0, s))
  /\ (forall h cameraId,
         StdMap.find h (g_cameraManagers s) = None ->
         CameraManager_nativeGetCamera h cameraId s
         = (Throws (LibCameraException "Invalid CameraManager handle") 0, s))
  /\ (forall h configHandle streamIndex bufferIndex,
         StdMap.find h (g_allocators s) = None ->
         FrameBuffer_nativeMapBuffer h configHandle streamIndex bufferIndex s
         = (Throws (LibCameraException "Invalid FrameBufferAllocator handle") 0, s))
  /\ (forall allocatorHandle h streamIndex bufferIndex,
         StdMap.find allocatorHandle (g_allocators s) <> None ->
         StdMap.find h (g_configurations s) = None ->
         FrameBuffer_nativeMapBuffer allocatorHandle h streamIndex bufferIndex s
         = (Throws (LibCameraException "Invalid CameraConfiguration handle") 0, s))
  /\ (forall h dest offset length,
         StdMap.find h (g_mappedBuffers s) = None ->
         FrameBuffer_nativeCopyBuffer h dest offset length s
         = (Throws (LibCameraException "Invalid map handle") tt, dest))
  /\ Request_nativeGetExposureTime handle s = Returns 0
  /\ Request_nativeGetAnalogueGain handle s = Returns 1.0%float
  /\ (forall mode, Request_nativeSetAfMode handle mode s = (Returns tt, s))
  /\ (forall position, Request_nativeSetLensPosition handle position s = (Returns tt, s))
  /\ (forall enable, Request_nativeSetAeEnable handle enable s = (Returns tt, s))
  /\ (forall microseconds,
         Request_nativeSetExposureTime handle microseconds s = (Returns tt, s))
  /\ (forall gain, Request_nativeSetAnalogueGain handle gain s = (Returns tt, s)).
Proof.
  intros Hmiss.
  split.
  { intros camHandle status Hcam. unfold Camera_nativeQueueRequest.
    destruct (StdMap.find camHandle (g_cameras s)); [|congruence].
    rewrite Hmiss. reflexivity. }
  split.
  { intros h rh status Hcam. unfold Camera_nativeQueueRequest.
    rewrite Hcam. reflexivity. }
  split.
  { intros h cookie created Hcam. unfold Camera_nativeCreateRequest.
    rewrite Hcam. reflexivity. }
  split.
  { intros h cameraId Hcm. unfold CameraManager_nativeGetCamera.
    rewrite Hcm. reflexivity. }
  split.
  { intros h c si bi Halloc. unfold FrameBuffer_nativeMapBuffer.
    rewrite Halloc. reflexivity. }
  split.
  { intros a h si bi Halloc Hconf. unfold FrameBuffer_nativeMapBuffer.
    destruct (StdMap.find a (g_allocators s)); [|congruence].
    rewrite Hconf. reflexivity. }
  split.
  { intros h dest offset length Hmap. unfold FrameBuffer_nativeCopyBuffer.
    rewrite Hmap. reflexivity. }
  split.
  { unfold Request_nativeGetExposureTime. rewrite Hmiss. reflexivity. }
  split.
  { unfold Request_nativeGetAnalogueGain. rewrite Hmiss. reflexivity. }
  repeat split; intros; apply set_control_invalid, Hmiss.
Qed.

Lemma invalid_handle_reporting_witness :
  (forall camHandle status,
      StdMap.find camHandle (g_cameras session_state) <> None ->
      Camera_nativeQueueRequest camHandle 7 status session_state
      = Throws (LibCameraException "Invalid Request handle") (-1))
  /\ (forall mode, Request_nativeSetAfMode 7 mode session_state = (Returns tt, session_state))
  /\ (forall microseconds,
         Request_nativeSetExposureTime 7 microseconds session_state
         = (Returns tt, session_state)).
Proof.
  pose proof (invalid_handle_reporting 7 session_state eq_refl) as H.
  split; [apply H|]. split; apply H.
Defined.

(** C3, as stated, fails: setting the exposure time through handle 7, which
    names no request, raises nothing. *)
Lemma setter_on_invalid_handle_is_silent :
  let o := fst (Request_nativeSetExposureTime 7 15000 session_state) in
  StdMap.find 7 (g_requests session_state) = None
  /\ o = Returns tt
  /\ ~ raises o.
Proof.
  cbv zeta. split; [reflexivity|]. split; [reflexivity|].
  intros H. exact H.
Qed.

(** C9.  On a handle valid in the Request table whose result metadata holds
    no analogue gain, the analogue-gain getter returns 1.0: a value that is
    not zero, with no exception pending. *)
Theorem analogue_gain_default (handle : Z) (r : Request) (s : State) :
  StdMap.find handle (g_requests s) = Some r ->
  ctl_get AnalogueGain (req_metadata r) = None ->
  Request_nativeGetAnalogueGain handle s = Returns 1.0%float
  /\ Request_nativeGetAnalogueGain handle s <> Returns 0.0%float
  /\ ~ raises (Request_nativeGetAnalogueGain handle s).
Proof.
  intros Hfind Hnone.
  assert (E : Request_nativeGetAnalogueGain handle s = Returns 1.0%float).
  { unfold Request_nativeGetAnalogueGain, get_float. rewrite Hfind, Hnone. reflexivity. }
  rewrite E. split; [reflexivity|]. split.
  - intros H.
    apply (f_equal (fun o => match o with
                             | Returns v => PrimFloat.eqb v 0%float
                             | _ => true
                             end)) in H.
    vm_compute in H. discriminate.
  - intros H. exact H.
Qed.

Lemma analogue_gain_default_witness :
  Request_nativeGetAnalogueGain 3 request_state = Returns 1.0%float
  /\ Request_nativeGetAnalogueGain 3 request_state <> Returns 0.0%float
  /\ ~ raises (Request_nativeGetAnalogueGain 3 request_state).
Proof.
  apply (analogue_gain_default 3 (mkRequest 65536 61440 [] []) request_state);
    reflexivity.
Defined.

(** ** The completion router *)

Lemma registered_first_key (requests : StdMap.t Request) (rh : Z) (r : Request) :
  registered requests rh r ->
  StdMap.first_key (fun request => req_addr request =? req_addr r) requests = Some rh.
Proof.
  intros [Hin Huniq].
  apply (first_key_unique _ rh r); [exact Hin|apply Z.eqb_refl|].
  intros rh' r' Hin' Heq. apply (Huniq rh' r' Hin'). apply Z.eqb_eq, Heq.
Qed.



Lemma poll_empty (handle : Z) (s : State) :
  queue_of handle s = [] ->
  Camera_nativePollCompletedRequest handle s = (0, s).
Proof.
  unfold queue_of, StdMap.get_or, Camera_nativePollCompletedRequest.
  destruct (StdMap.find handle (g_completedRequests s)) as [q|]; [|reflexivity].
  intros ->. reflexivity.
Qed.

Lemma poll_front (handle req : Z) (rest : list Z) (s : State) :
  queue_of handle s = req :: rest ->
  Camera_nativePollCompletedRequest handle s
  = (match StdMap.first_key (fun request => req_addr request =? req) (g_requests s) with
     | Some reqHandle => reqHandle
     | None => 0
     end,
     with_completedRequests (StdMap.insert handle rest (g_completedRequests s)) s).
Proof.
  unfold queue_of, StdMap.get_or, Camera_nativePollCompletedRequest.
  destruct (StdMap.find handle (g_completedRequests s)) as [q|]; [|discriminate].
  intros ->. cbn [with_completedRequests g_requests].
  destruct (StdMap.first_key _ _); reflexivity.
Qed.











(** C10 (as amended).  When the handle of a completed request is destroyed
    before its session is polled, the poll still pops the completion and
    returns 0, the value a poll of an empty queue returns, as long as no
    request registered at the time of the poll lives at the address the
    destroyed one had; that is so right after the destroy.  The queue is
    left with the completions behind it, so this one is not delivered
    again. *)
Theorem poll_after_destroy_returns_zero
  (handle rh : Z) (r : Request) (rest : list Z) (s : State) :
  registered (g_requests s) rh r ->
  queue_of handle s = req_addr r :: rest ->
  let s1 := Request_nativeDestroy rh s in
  let polled := Camera_nativePollCompletedRequest handle s1 in
  fst (Camera_nativePollCompletedRequest handle s) = rh
  /\ StdMap.find rh (g_requests s1) = None
  /\ fst polled = 0
  /\ queue_of handle (snd polled) = rest
  /\ (forall s', queue_of handle s' = [] ->
                 fst (Camera_nativePollCompletedRequest handle s') = fst polled)
  /\ (rest = [] -> Camera_nativePollCompletedRequest handle (snd polled) = (0, snd polled))
  /\ (forall s2 rest2,
         StdMap.find rh (g_requests s2) = None ->
         queue_of handle s2 = req_addr r :: rest2 ->
         (forall rh' r', In (rh', r') (g_requests s2) -> req_addr r' <> req_addr r) ->
         fst (Camera_nativePollCompletedRequest handle s2) = 0
         /\ queue_of handle (snd (Camera_nativePollCompletedRequest handle s2)) = rest2).
Proof.
  intros Hreg Hq s1 polled.
  assert (Hq1 : queue_of handle s1 = req_addr r :: rest) by exact Hq.
  assert (Hgone : StdMap.first_key (fun request => req_addr request =? req_addr r)
                    (g_requests s1) = None).
  { apply first_key_none. intros k v Hin.
    cbn [s1 Request_nativeDestroy with_requests g_requests] in Hin.
    apply In_erase in Hin. destruct Hin as [Hin Hne].
    destruct Hreg as [_ Huniq].
    apply Z.eqb_neq. intros Heq. apply Hne, (Huniq k v Hin Heq). }
  assert (Hpoll : polled
                  = (0, with_completedRequests
                          (StdMap.insert handle rest (g_completedRequests s1)) s1)).
  { unfold polled. rewrite (poll_front handle (req_addr r) rest s1 Hq1), Hgone.
    reflexivity. }
  assert (Hrest : queue_of handle (snd polled) = rest).
  { rewrite Hpoll. unfold queue_of, StdMap.get_or.
    cbn [snd with_completedRequests g_completedRequests].
    rewrite find_insert_same. reflexivity. }
  split.
  { rewrite (poll_front handle (req_addr r) rest s Hq).
    rewrite (registered_first_key _ rh r Hreg). reflexivity. }
  split; [apply find_erase_same|].
  split; [rewrite Hpoll; reflexivity|].
  split; [exact Hrest|].
  split.
  { intros s' Hempty. rewrite (poll_empty handle s' Hempty), Hpoll. reflexivity. }
  split.
  { intros ->. apply poll_empty, Hrest. }
  intros s2 rest2 _ Hq2 Hfree.
  rewrite (poll_front handle (req_addr r) rest2 s2 Hq2).
  rewrite first_key_none.
  - split; [reflexivity|]. unfold queue_of, StdMap.get_or.
    cbn [snd with_completedRequests g_completedRequests].
    rewrite find_insert_same. reflexivity.
  - intros k v Hin. apply Z.eqb_neq. apply (Hfree k v Hin).
Qed.

Lemma poll_after_destroy_returns_zero_witness :
  let r := mkRequest 65536 61440 [] [] in
  let s := requestCompleted r request_state in
  let s1 := Request_nativeDestroy 3 s in
  let polled := Camera_nativePollCompletedRequest 2 s1 in
  fst (Camera_nativePollCompletedRequest 2 s) = 3
  /\ StdMap.find 3 (g_requests s1) = None
  /\ fst polled = 0
  /\ queue_of 2 (snd polled) = []
  /\ (forall s', queue_of 2 s' = [] ->
                 fst (Camera_nativePollCompletedRequest 2 s') = fst polled)
  /\ (@nil Z = [] -> Camera_nativePollCompletedRequest 2 (snd polled) = (0, snd polled)).
Proof.
  pose proof (poll_after_destroy_returns_zero
                2 3 (mkRequest 65536 61440 [] []) []
                (requestCompleted (mkRequest 65536 61440 [] []) request_state)) as H.
  cbv zeta in H.
  destruct H as [H1 [H2 [H3 [H4 [H5 [H6 _]]]]]].
  - split; [left; reflexivity|].
    intros rh' r' [Heq|[]] _. injection Heq as <- _. reflexivity.
  - reflexivity.
  - cbv zeta. repeat split; assumption.
Defined.

(** C10, as stated, fails when the address of the destroyed request is
    given to a new one.  In [request_state], request 3 (at address 65536)
    completes and is destroyed before any poll; a request created next is
    placed by the library at the address just freed and gets handle 4.  The
    poll of the session then returns 4, the handle of a request that never
    completed, where the claim has it return 0. *)
Lemma poll_after_destroy_returns_a_new_request_at_the_same_address :
  let r := mkRequest 65536 61440 [] [] in
  let s := requestCompleted r request_state in
  let s1 := Request_nativeDestroy 3 s in
  let s2 := snd (Camera_nativeCreateRequest 2 0 (Some 65536) s1) in
  StdMap.find 3 (g_requests request_state) = Some r
  /\ queue_of 2 s = [65536]
  /\ StdMap.find 3 (g_requests s1) = None
  /\ fst (Camera_nativeCreateRequest 2 0 (Some 65536) s1) = Returns 4
  /\ StdMap.find 3 (g_requests s2) = None
  /\ queue_of 4 s2 = []
  /\ fst (Camera_nativePollCompletedRequest 2 s2) = 4
  /\ fst (Camera_nativePollCompletedRequest 2 s2) <> 0
  /\ fst (poll_n 2 2 s2) = [4; 0].
Proof. cbv zeta. repeat split. discriminate. Qed.

(** ** The buffer mapper *)

Lemma config_at_out_of_range (conf : CameraConfiguration) (streamIndex : Z) :
  - 2 ^ 31 <= streamIndex < 2 ^ 31 ->
  config_size conf < 2 ^ 31 ->
  streamIndex < 0 \/ config_size conf <= streamIndex ->
  config_at conf streamIndex = None.
Proof.
  intros Hjint Hsize Hout. unfold config_at, config_size in *.
  apply nth_error_None.
  assert (Hu : Z.of_nat (List.length conf) <= to_uint streamIndex).
  { unfold to_uint, wrap_unsigned. destruct Hout as [Hneg|Hbig].
    - replace streamIndex with (streamIndex + 2 ^ 32 + (-1) * 2 ^ 32) by lia.
      rewrite Z.mod_add by lia. rewrite Z.mod_small; lia.
    - rewrite Z.mod_small; lia. }
  lia.
Qed.

(** With both handles valid, [nativeMapBuffer] indexes the configuration
    with whatever stream index it is given. *)
Lemma map_buffer_stream_index_unchecked
  (allocatorHandle configHandle streamIndex bufferIndex : Z)
  (alloc : FrameBufferAllocator) (conf : CameraConfiguration) (s : State) :
  StdMap.find allocatorHandle (g_allocators s) = Some alloc ->
  StdMap.find configHandle (g_configurations s) = Some conf ->
  - 2 ^ 31 <= streamIndex < 2 ^ 31 ->
  config_size conf < 2 ^ 31 ->
  streamIndex < 0 \/ config_size conf <= streamIndex ->
  FrameBuffer_nativeMapBuffer allocatorHandle configHandle streamIndex bufferIndex s
  = (Undefined, s).
Proof.
  intros Halloc Hconf Hjint Hsize Hout. unfold FrameBuffer_nativeMapBuffer.
  rewrite Halloc, Hconf, (config_at_out_of_range conf streamIndex Hjint Hsize Hout).
  reflexivity.
Qed.

(** C2.  The code at the failing input: the configuration under handle 3
    has one stream; [map] with stream index 1 (or -1) reaches the unchecked
    [at(streamIndex)], where [allocate] with the same arguments raises
    "Invalid stream index".  A buffer index out of range is refused. *)
Example map_buffer_stream_index_out_of_range :
  StdMap.find 3 (g_configurations buffer_state)
  = Some [mkStreamConfiguration 128 96 128 842094158 4 20480]
  /\ FrameBuffer_nativeMapBuffer 4 3 1 0 buffer_state = (Undefined, buffer_state)
  /\ FrameBuffer_nativeMapBuffer 4 3 (-1) 0 buffer_state = (Undefined, buffer_state)
  /\ FrameBufferAllocator_nativeAllocate 4 3 1 idle_pipeline buffer_state
     = (Throws (LibCameraException "Invalid stream index") (-1), buffer_state)
  /\ FrameBufferAllocator_nativeAllocate 4 3 (-1) idle_pipeline buffer_state
     = (Throws (LibCameraException "Invalid stream index") (-1), buffer_state)
  /\ FrameBuffer_nativeMapBuffer 4 3 0 1 buffer_state
     = (Throws (LibCameraException "Invalid buffer index") 0, buffer_state).
Proof.
  split; [reflexivity|].
  split.
  { apply (map_buffer_stream_index_unchecked 4 3 1 0
             [(20480, [two_plane_buffer])]
             [mkStreamConfiguration 128 96 128 842094158 4 20480]);
      try reflexivity; cbn; lia. }
  split.
  { apply (map_buffer_stream_index_unchecked 4 3 (-1) 0
             [(20480, [two_plane_buffer])]
             [mkStreamConfiguration 128 96 128 842094158 4 20480]);
      try reflexivity; cbn; lia. }
  repeat split.
Qed.

(** *** Rolling back a partial mapping *)

Lemma kernel_eta (k : Kernel) :
  mkKernel (k_mappings k) (k_mmap_errno k) (k_file k) = k.
Proof. destruct k. reflexivity. Qed.

Lemma state_with_own_kernel (s : State) : with_kernel (kernel s) s = s.
Proof. destruct s. reflexivity. Qed.

Lemma fresh_addr_above (ms : list Mapping) (m : Mapping) :
  In m ms -> m_addr m < fresh_addr ms.
Proof.
  unfold fresh_addr, page_size.
  induction ms as [|m0 ms IH]; intros Hin; [destruct Hin|].
  cbn [fold_right]. destruct Hin as [->|Hin].
  - unfold mapping_top. lia.
  - specialize (IH Hin). lia.
Qed.

Lemma fresh_addr_cons (m : Mapping) (ms : list Mapping) :
  fresh_addr ms <= fresh_addr (m :: ms)
  /\ m_addr m + m_len m <= fresh_addr (m :: ms).
Proof.
  unfold fresh_addr, page_size, mapping_top. cbn [fold_right]. lia.
Qed.

Lemma mmap_success (k : Kernel) (len fd data : Z) (k' : Kernel) :
  mmap k len fd = inr (data, k') ->
  data = fresh_addr (k_mappings k)
  /\ k' = add_mapping (mkMapping data len fd) k.
Proof.
  unfold mmap. destruct (k_mmap_errno k (k_mappings k) fd len); [discriminate|].
  injection 1 as <- <-. split; reflexivity.
Qed.

Lemma munmap_add_other (addr len : Z) (m : Mapping) (k : Kernel) :
  in_range addr len m = false ->
  munmap addr len (add_mapping m k) = add_mapping m (munmap addr len k).
Proof.
  intros Hout. unfold munmap, add_mapping.
  cbn [k_mappings k_mmap_errno k_file filter]. rewrite Hout. reflexivity.
Qed.

Lemma munmap_planes_add (planes : list MappedPlane) (m : Mapping) :
  forall k : Kernel,
    Forall (fun mp => in_range (mp_data mp) (mp_length mp) m = false) planes ->
    munmap_planes planes (add_mapping m k) = add_mapping m (munmap_planes planes k).
Proof.
  induction planes as [|mp planes IH]; intros k Hout; [reflexivity|].
  inversion Hout as [|mp0 planes0 Hmp Hrest]; subst.
  cbn [munmap_planes]. rewrite munmap_add_other by exact Hmp.
  apply IH, Hrest.
Qed.

Lemma munmap_planes_app (l1 l2 : list MappedPlane) :
  forall k : Kernel,
    munmap_planes (l1 ++ l2) k = munmap_planes l2 (munmap_planes l1 k).
Proof.
  induction l1 as [|mp l1 IH]; intros k; [reflexivity|].
  cbn [app munmap_planes]. apply IH.
Qed.

(** Unmapping only ever removes mappings. *)
Lemma munmap_planes_incl (planes : list MappedPlane) :
  forall (k : Kernel) (m : Mapping),
    In m (k_mappings (munmap_planes planes k)) -> In m (k_mappings k).
Proof.
  induction planes as [|mp planes IH]; intros k m Hin; [exact Hin|].
  cbn [munmap_planes] in Hin. apply IH in Hin.
  unfold munmap in Hin. cbn [k_mappings] in Hin.
  apply filter_In in Hin. apply Hin.
Qed.

(** Unmapping the range a fresh mapping was given removes that mapping and
    no older one. *)
Lemma munmap_fresh (a len fd : Z) (k : Kernel) :
  (forall m, In m (k_mappings k) -> m_addr m < a) ->
  munmap a len (add_mapping (mkMapping a len fd) k) = k.
Proof.
  intros Hold. unfold munmap, add_mapping.
  cbn [k_mappings k_mmap_errno k_file filter].
  assert (Hnew : in_range a len (mkMapping a len fd) = true).
  { unfold in_range. cbn [m_addr m_len]. rewrite !Z.leb_refl. reflexivity. }
  rewrite Hnew. cbn [negb].
  assert (Hkeep : filter (fun m => negb (in_range a len m)) (k_mappings k) = k_mappings k).
  { apply forallb_filter_id, forallb_forall. intros m Hin. specialize (Hold m Hin).
    unfold in_range. apply negb_true_iff, andb_false_iff. left.
    apply Z.leb_gt. exact Hold. }
  rewrite Hkeep. apply kernel_eta.
Qed.

(** One more plane mapped and then all of them unmapped is the same as
    unmapping the planes there were. *)
Lemma munmap_planes_after_mmap (planes : list MappedPlane) (k : Kernel) (len fd off : Z) :
  below_fresh planes k ->
  0 < len ->
  let a := fresh_addr (k_mappings k) in
  munmap_planes (planes ++ [mkMappedPlane a len off]) (add_mapping (mkMapping a len fd) k)
  = munmap_planes planes k.
Proof.
  intros Hbelow Hlen a.
  rewrite munmap_planes_app, munmap_planes_add.
  - cbn [munmap_planes mp_data mp_length].
    apply munmap_fresh. intros m Hin.
    apply fresh_addr_above, (munmap_planes_incl planes k m Hin).
  - unfold below_fresh in Hbelow. rewrite Forall_forall in *.
    intros mp Hin. specialize (Hbelow mp Hin). fold a in Hbelow.
    unfold in_range. cbn [m_addr m_len].
    apply andb_false_iff. right. apply Z.leb_gt. lia.
Qed.

Lemma mapSize_nonneg (p : Plane) : 0 <= mapSize p.
Proof. unfold mapSize, to_uint, wrap_unsigned. apply Z.mod_pos_bound. lia. Qed.

(** When the loop refuses a plane, the kernel it leaves is the one in which
    the planes mapped before the loop are unmapped: whatever the loop mapped
    itself is gone. *)
Lemma map_planes_rollback (fbPlanes : list Plane) :
  forall (i : nat) (mappedBuffer : MappedBuffer) (k : Kernel) (errMsg : string) (k' : Kernel),
    below_fresh (mb_planes mappedBuffer) k ->
    map_planes fbPlanes i mappedBuffer k = (inl errMsg, k') ->
    k' = munmap_planes (mb_planes mappedBuffer) k.
Proof.
  induction fbPlanes as [|plane rest IH]; intros i mb k errMsg k' Hbelow Hrun.
  - discriminate.
  - cbn [map_planes] in Hrun.
    destruct (pl_fd plane <? 0); [injection Hrun as _ <-; reflexivity|].
    destruct (mapSize plane =? 0) eqn:Hzero; [injection Hrun as _ <-; reflexivity|].
    destruct (mmap k (mapSize plane) (pl_fd plane)) as [err|[data k1]] eqn:Hmmap;
      [injection Hrun as _ <-; reflexivity|].
    apply mmap_success in Hmmap. destruct Hmmap as [-> ->].
    assert (Hpos : 0 < mapSize plane).
    { apply Z.eqb_neq in Hzero. pose proof (mapSize_nonneg plane). lia. }
    apply IH in Hrun.
    + rewrite Hrun. cbn [mb_planes].
      apply munmap_planes_after_mmap; assumption.
    + cbn [mb_planes]. unfold below_fresh in *. apply Forall_app. split.
      * rewrite Forall_forall in *. intros mp Hin. specialize (Hbelow mp Hin).
        pose proof (fresh_addr_cons
                      (mkMapping (fresh_addr (k_mappings k)) (mapSize plane) (pl_fd plane))
                      (k_mappings k)) as [Hge _].
        cbn [add_mapping k_mappings]. lia.
      * constructor; [|constructor]. cbn [mp_data mp_length add_mapping k_mappings].
        pose proof (fresh_addr_cons
                      (mkMapping (fresh_addr (k_mappings k)) (mapSize plane) (pl_fd plane))
                      (k_mappings k)) as [_ Hend].
        exact Hend.
Qed.

(** The loop keeps the kernel's decisions as they are. *)
Lemma map_planes_refuses (fbPlanes : list Plane) :
  forall (i : nat) (mappedBuffer : MappedBuffer) (k : Kernel),
    Exists (refused_plane k) fbPlanes ->
    exists errMsg, fst (map_planes fbPlanes i mappedBuffer k) = inl errMsg.
Proof.
  induction fbPlanes as [|plane rest IH]; intros i mb k Hbad.
  - inversion Hbad.
  - cbn [map_planes].
    destruct (pl_fd plane <? 0) eqn:Hfd; [eexists; reflexivity|].
    destruct (mapSize plane =? 0) eqn:Hzero; [eexists; reflexivity|].
    destruct (mmap k (mapSize plane) (pl_fd plane)) as [err|[data k1]] eqn:Hmmap;
      [eexists; reflexivity|].
    apply Z.ltb_ge in Hfd. apply Z.eqb_neq in Hzero.
    inversion Hbad as [p l Hp|p l Hl]; subst.
    + exfalso. destruct Hp as [Hp|[Hp|Hp]]; [lia|contradiction|].
      unfold mmap in Hmmap. specialize (Hp (k_mappings k)).
      destruct (k_mmap_errno k (k_mappings k) (pl_fd plane) (mapSize plane));
        [discriminate|contradiction].
    + apply mmap_success in Hmmap. destruct Hmmap as [-> ->].
      apply IH. exact Hl.
Qed.

(** C6.  A [map] call that raises leaves the whole state as it found it:
    the address space holds the mappings it held before the call (every
    plane the call had mapped is unmapped again), no view is registered and
    no handle is used up.  And a target buffer with a plane that has an
    invalid descriptor, a zero computed size or that the kernel will not map
    makes the call raise. *)
Theorem map_is_all_or_nothing
  (allocatorHandle configHandle streamIndex bufferIndex : Z) (s : State) :
  let result :=
    FrameBuffer_nativeMapBuffer allocatorHandle configHandle streamIndex bufferIndex s in
  (raises (fst result) ->
   snd result = s
   /\ k_mappings (kernel (snd result)) = k_mappings (kernel s)
   /\ g_mappedBuffers (snd result) = g_mappedBuffers s
   /\ g_nextHandle (snd result) = g_nextHandle s)
  /\ (forall fb,
         target_buffer allocatorHandle configHandle streamIndex bufferIndex s = Some fb ->
         0 <= bufferIndex ->
         Exists (refused_plane (kernel s)) (fb_planes fb) ->
         raises (fst result)).
Proof.
  intros result.
  assert (Hfail : raises (fst result) -> snd result = s).
  { subst result. unfold FrameBuffer_nativeMapBuffer.
    destruct (StdMap.find allocatorHandle (g_allocators s)) as [alloc|]; [|reflexivity].
    destruct (StdMap.find configHandle (g_configurations s)) as [conf|]; [|reflexivity].
    destruct (config_at conf streamIndex) as [sc|]; [|reflexivity].
    destruct ((bufferIndex <? 0) || _); [reflexivity|].
    destruct (nth_error _ _) as [fb|]; [|reflexivity].
    destruct (fb_planes fb) as [|plane rest]; [reflexivity|].
    destruct (map_planes (plane :: rest) 0 (mkMappedBuffer [] 0) (kernel s))
      as [[errMsg|mappedBuffer] k'] eqn:Hrun.
    - intros _. cbn [snd].
      apply map_planes_rollback in Hrun; [|constructor].
      cbn [mb_planes munmap_planes] in Hrun. subst k'.
      apply state_with_own_kernel.
    - unfold allocHandle. cbn [fst]. intros []. }
  split.
  { intros Hraises. rewrite (Hfail Hraises). auto. }
  intros fb Htarget Hidx Hbad.
  { subst result. unfold FrameBuffer_nativeMapBuffer. unfold target_buffer in Htarget.
    destruct (StdMap.find allocatorHandle (g_allocators s)) as [alloc|]; [|discriminate].
    destruct (StdMap.find configHandle (g_configurations s)) as [conf|]; [|discriminate].
    destruct (config_at conf streamIndex) as [sc|]; [|discriminate].
    assert (Hlt : (Z.to_nat bufferIndex < List.length (buffers alloc (sc_stream sc)))%nat).
    { apply nth_error_Some. congruence. }
    assert (Hcheck : (bufferIndex <? 0)
                     || (Z.of_nat (List.length (buffers alloc (sc_stream sc))) <=? bufferIndex)
                     = false).
    { apply orb_false_iff. split; [apply Z.ltb_ge; lia|apply Z.leb_gt; lia]. }
    rewrite Hcheck, Htarget.
    destruct (fb_planes fb) as [|plane rest] eqn:Hplanes; [exact I|].
    destruct (map_planes_refuses (plane :: rest) 0 (mkMappedBuffer [] 0) (kernel s) Hbad)
      as [errMsg Herr].
    destruct (map_planes (plane :: rest) 0 (mkMappedBuffer [] 0) (kernel s)) as [res k'].
    cbn [fst] in Herr. subst res. exact I. }
Qed.

(** In [low_memory_state] the first plane of the buffer is mapped, the
    second is refused by the kernel, and the call leaves nothing mapped. *)
Lemma map_is_all_or_nothing_witness :
  let result := FrameBuffer_nativeMapBuffer 4 3 0 0 low_memory_state in
  fst result
  = Throws (LibCameraException
              "Failed to mmap buffer plane 1 (fd=9, size=18432): Cannot allocate memory") 0
  /\ snd result = low_memory_state
  /\ k_mappings (kernel (snd result)) = k_mappings (kernel low_memory_state)
  /\ g_mappedBuffers (snd result) = g_mappedBuffers low_memory_state
  /\ g_nextHandle (snd result) = g_nextHandle low_memory_state.
Proof.
  split; [vm_compute; reflexivity|].
  apply (proj1 (map_is_all_or_nothing 4 3 0 0 low_memory_state)).
  vm_compute. exact I.
Defined.

(** *** The total length of a view *)

Lemma to_size_t_add_idemp (a b : Z) :
  to_size_t (to_size_t a + b) = to_size_t (a + b).
Proof. unfold to_size_t, wrap_unsigned. apply Zplus_mod_idemp_l. Qed.

(** The running [totalLength] of the loop is the sum of the declared plane
    lengths, reduced to a [size_t]. *)
Lemma totalLength_fold (planes : list Plane) :
  forall a : Z,
    to_size_t (fold_left (fun acc p => to_size_t (acc + pl_length p)) planes a)
    = to_size_t (a + sum_lengths planes).
Proof.
  induction planes as [|p planes IH]; intros a; cbn [fold_left sum_lengths fold_right].
  - rewrite Z.add_0_r. reflexivity.
  - rewrite IH. fold (sum_lengths planes).
    rewrite to_size_t_add_idemp. f_equal. lia.
Qed.

Lemma to_size_t_idemp (a : Z) : to_size_t (to_size_t a) = to_size_t a.
Proof. unfold to_size_t, wrap_unsigned. apply Z.mod_mod. lia. Qed.

Lemma totalLength_fold_in_range (planes : list Plane) :
  forall a : Z,
    to_size_t a = a ->
    to_size_t (fold_left (fun acc p => to_size_t (acc + pl_length p)) planes a)
    = fold_left (fun acc p => to_size_t (acc + pl_length p)) planes a.
Proof.
  induction planes as [|p planes IH]; intros a Ha; cbn [fold_left]; [exact Ha|].
  apply IH, to_size_t_idemp.
Qed.

(** What a run of the loop that maps every plane leaves in the
    [MappedBuffer]: one entry per plane, in order, with the mapped size and
    the plane's offset, and the running total. *)
Lemma map_planes_success (fbPlanes : list Plane) :
  forall (i : nat) (mappedBuffer : MappedBuffer) (k : Kernel)
         (mappedBuffer' : MappedBuffer) (k' : Kernel),
    map_planes fbPlanes i mappedBuffer k = (inr mappedBuffer', k') ->
    exists mapped,
      mb_planes mappedBuffer' = mb_planes mappedBuffer ++ mapped
      /\ Forall2 (fun p mp => mp_length mp = mapSize p /\ mp_offset mp = pl_offset p)
                 fbPlanes mapped
      /\ mb_totalLength mappedBuffer'
         = fold_left (fun acc p => to_size_t (acc + pl_length p)) fbPlanes
                     (mb_totalLength mappedBuffer).
Proof.
  induction fbPlanes as [|plane rest IH]; intros i mb k mb' k' Hrun.
  - cbn in Hrun. injection Hrun as <- _. exists []. rewrite app_nil_r.
    split; [reflexivity|]. split; [constructor|reflexivity].
  - cbn [map_planes] in Hrun.
    destruct (pl_fd plane <? 0); [discriminate|].
    destruct (mapSize plane =? 0); [discriminate|].
    destruct (mmap k (mapSize plane) (pl_fd plane)) as [err|[data k1]]; [discriminate|].
    apply IH in Hrun. destruct Hrun as [mapped [Hplanes [Hall Htotal]]].
    cbn [mb_planes mb_totalLength] in Hplanes, Htotal.
    exists (mkMappedPlane data (mapSize plane) (pl_offset plane) :: mapped).
    split; [rewrite Hplanes, <- app_assoc; reflexivity|].
    split; [constructor; [split; reflexivity|exact Hall]|exact Htotal].
Qed.

Lemma payload_length_of_plane (p : Plane) (mp : MappedPlane) :
  plane_in_range p ->
  mp_length mp = mapSize p -> mp_offset mp = pl_offset p ->
  payload_length mp = pl_length p.
Proof.
  intros [Hoff [Hlen Hsum]] Hl Ho.
  unfold payload_length. rewrite Hl, Ho. unfold mapSize.
  rewrite to_uint_in_range by lia.
  replace (pl_offset p + pl_length p - pl_offset p) with (pl_length p) by lia.
  apply to_size_t_in_range. lia.
Qed.

Lemma sum_payload_lengths_of_planes (planes : list Plane) (mapped : list MappedPlane) :
  Forall plane_in_range planes ->
  Forall2 (fun p mp => mp_length mp = mapSize p /\ mp_offset mp = pl_offset p) planes mapped ->
  sum_payload_lengths mapped = sum_lengths planes.
Proof.
  intros Hrange Hall. induction Hall as [|p mp planes mapped [Hl Ho] _ IH]; [reflexivity|].
  inversion Hrange as [|p0 l0 Hp Hrest]; subst.
  cbn [sum_payload_lengths sum_lengths fold_right].
  fold (sum_payload_lengths mapped). fold (sum_lengths planes).
  rewrite (payload_length_of_plane p mp Hp Hl Ho), (IH Hrest). reflexivity.
Qed.

(** What a successful [map] call did. *)
Lemma map_buffer_success
  (allocatorHandle configHandle streamIndex bufferIndex mapHandle : Z) (s s' : State) :
  FrameBuffer_nativeMapBuffer allocatorHandle configHandle streamIndex bufferIndex s
  = (Returns mapHandle, s') ->
  exists fb view k',
    target_buffer allocatorHandle configHandle streamIndex bufferIndex s = Some fb
    /\ map_planes (fb_planes fb) 0 (mkMappedBuffer [] 0) (kernel s) = (inr view, k')
    /\ StdMap.find mapHandle (g_mappedBuffers s') = Some view
    /\ kernel s' = k'.
Proof.
  unfold FrameBuffer_nativeMapBuffer, target_buffer.
  destruct (StdMap.find allocatorHandle (g_allocators s)) as [alloc|]; [|discriminate].
  destruct (StdMap.find configHandle (g_configurations s)) as [conf|]; [|discriminate].
  destruct (config_at conf streamIndex) as [sc|]; [|discriminate].
  destruct ((bufferIndex <? 0) || _); [discriminate|].
  destruct (nth_error _ _) as [fb|]; [|discriminate].
  destruct (fb_planes fb) as [|plane rest] eqn:Hplanes; [discriminate|].
  destruct (map_planes (plane :: rest) 0 (mkMappedBuffer [] 0) (kernel s))
    as [[errMsg|view] k'] eqn:Hrun; [discriminate|].
  unfold allocHandle. injection 1 as <- <-.
  exists fb, view, k'. rewrite Hplanes.
  split; [reflexivity|]. split; [exact Hrun|].
  cbn [with_mappedBuffers g_mappedBuffers kernel with_nextHandle with_kernel].
  split; [apply find_insert_same|reflexivity].
Qed.

(** C5 (as amended).  After a successful [map], the length of the view is
    the sum of the declared lengths of the buffer's planes (as a [size_t],
    narrowed to [jint]); the declared offsets are not subtracted from it.
    When no plane's [offset + length] wraps, that sum is also the sum over
    the view's planes of mapped length minus leading offset.  A buffer with
    two planes of declared lengths 12288 and 6144 gives 18432 whatever the
    offsets of the planes are. *)
Theorem mapped_length_is_sum_of_plane_lengths
  (allocatorHandle configHandle streamIndex bufferIndex mapHandle : Z) (s s' : State) :
  FrameBuffer_nativeMapBuffer allocatorHandle configHandle streamIndex bufferIndex s
  = (Returns mapHandle, s') ->
  exists fb view,
    target_buffer allocatorHandle configHandle streamIndex bufferIndex s = Some fb
    /\ StdMap.find mapHandle (g_mappedBuffers s') = Some view
    /\ mb_totalLength view = to_size_t (sum_lengths (fb_planes fb))
    /\ FrameBuffer_nativeGetBufferSize mapHandle s'
       = to_jint (to_size_t (sum_lengths (fb_planes fb)))
    /\ (Forall plane_in_range (fb_planes fb) ->
        sum_payload_lengths (mb_planes view) = sum_lengths (fb_planes fb)
        /\ (sum_lengths (fb_planes fb) < 2 ^ 31 ->
            FrameBuffer_nativeGetBufferSize mapHandle s'
            = sum_payload_lengths (mb_planes view)))
    /\ (forall p1 p2,
           fb_planes fb = [p1; p2] -> pl_length p1 = 12288 -> pl_length p2 = 6144 ->
           FrameBuffer_nativeGetBufferSize mapHandle s' = 18432).
Proof.
  intros Hmap.
  destruct (map_buffer_success _ _ _ _ _ _ _ Hmap) as [fb [view [k' [Ht [Hrun [Hfind _]]]]]].
  destruct (map_planes_success _ _ _ _ _ _ Hrun) as [mapped [Hplanes [Hall Htotal]]].
  cbn [mb_planes mb_totalLength app] in Hplanes, Htotal.
  assert (Hsum : mb_totalLength view = to_size_t (sum_lengths (fb_planes fb))).
  { rewrite Htotal, <- totalLength_fold_in_range by reflexivity.
    rewrite totalLength_fold. reflexivity. }
  assert (Hsize : FrameBuffer_nativeGetBufferSize mapHandle s'
                  = to_jint (to_size_t (sum_lengths (fb_planes fb)))).
  { unfold FrameBuffer_nativeGetBufferSize. rewrite Hfind, Hsum. reflexivity. }
  exists fb, view.
  split; [exact Ht|]. split; [exact Hfind|]. split; [exact Hsum|]. split; [exact Hsize|].
  split.
  - intros Hrange.
    assert (Hpay : sum_payload_lengths (mb_planes view) = sum_lengths (fb_planes fb)).
    { rewrite Hplanes. apply sum_payload_lengths_of_planes; assumption. }
    split; [exact Hpay|]. intros Hsmall.
    assert (Hnonneg : 0 <= sum_lengths (fb_planes fb)).
    { clear - Hrange. induction Hrange as [|p l [_ [Hp _]] _ IH]; cbn; [lia|].
      fold (sum_lengths l). lia. }
    rewrite Hsize, Hpay, to_size_t_in_range by lia.
    apply to_jint_in_range. lia.
  - intros p1 p2 Hfb H1 H2. rewrite Hsize, Hfb.
    cbn [sum_lengths fold_right]. rewrite H1, H2. reflexivity.
Qed.

Lemma mapped_length_is_sum_of_plane_lengths_witness :
  exists fb view,
    target_buffer 4 3 0 0 buffer_state = Some fb
    /\ StdMap.find 5 (g_mappedBuffers (snd (FrameBuffer_nativeMapBuffer 4 3 0 0 buffer_state)))
       = Some view
    /\ mb_totalLength view = to_size_t (sum_lengths (fb_planes fb))
    /\ FrameBuffer_nativeGetBufferSize 5 (snd (FrameBuffer_nativeMapBuffer 4 3 0 0 buffer_state))
       = to_jint (to_size_t (sum_lengths (fb_planes fb)))
    /\ (Forall plane_in_range (fb_planes fb) ->
        sum_payload_lengths (mb_planes view) = sum_lengths (fb_planes fb)
        /\ (sum_lengths (fb_planes fb) < 2 ^ 31 ->
            FrameBuffer_nativeGetBufferSize
              5 (snd (FrameBuffer_nativeMapBuffer 4 3 0 0 buffer_state))
            = sum_payload_lengths (mb_planes view)))
    /\ (forall p1 p2,
           fb_planes fb = [p1; p2] -> pl_length p1 = 12288 -> pl_length p2 = 6144 ->
           FrameBuffer_nativeGetBufferSize
             5 (snd (FrameBuffer_nativeMapBuffer 4 3 0 0 buffer_state)) = 18432).
Proof.
  apply (mapped_length_is_sum_of_plane_lengths 4 3 0 0 5 buffer_state).
  reflexivity.
Defined.

(** C5, as stated, fails where a plane has a leading offset: the buffer of
    [buffer_state] has planes of declared lengths 12288 and 6144 at offsets
    0 and 12288, and the length of its view is 18432, not 18432 minus the
    declared offsets. *)
Lemma mapped_length_does_not_subtract_offsets :
  let result := FrameBuffer_nativeMapBuffer 4 3 0 0 buffer_state in
  target_buffer 4 3 0 0 buffer_state = Some two_plane_buffer
  /\ map pl_length (fb_planes two_plane_buffer) = [12288; 6144]
  /\ map pl_offset (fb_planes two_plane_buffer) = [0; 12288]
  /\ fst result = Returns 5
  /\ FrameBuffer_nativeGetBufferSize 5 (snd result) = 18432
  /\ FrameBuffer_nativeGetBufferSize 5 (snd result) <> 18432 - (0 + 12288).
Proof.
  cbv zeta. repeat split. vm_compute. discriminate.
Qed.

(** *** Copying out of a view *)

Lemma load_bytes_length (k : Kernel) (n : nat) :
  forall (a : Z) (bytes : list Byte.byte),
    load_bytes k a n = Some bytes -> List.length bytes = n.
Proof.
  induction n as [|n IH]; intros a bytes; cbn [load_bytes].
  - injection 1 as <-. reflexivity.
  - destruct (load k a); [|discriminate].
    destruct (load_bytes k (a + 1) n) as [bs|] eqn:E; [|discriminate].
    injection 1 as <-. cbn. f_equal. apply (IH (a + 1)), E.
Qed.

Lemma load_bytes_prefix (k : Kernel) (n : nat) :
  forall (a : Z) (bytes : list Byte.byte) (m : nat),
    load_bytes k a n = Some bytes -> (m <= n)%nat ->
    load_bytes k a m = Some (firstn m bytes).
Proof.
  induction n as [|n IH]; intros a bytes m; cbn [load_bytes].
  - injection 1 as <-. intros Hm. replace m with O by lia. reflexivity.
  - destruct (load k a) as [b|] eqn:Hb; [|discriminate].
    destruct (load_bytes k (a + 1) n) as [bs|] eqn:E; [|discriminate].
    injection 1 as <-. intros Hm.
    destruct m as [|m]; [reflexivity|].
    cbn [load_bytes firstn]. rewrite Hb, (IH (a + 1) bs m E) by lia. reflexivity.
Qed.

Lemma splice_nil (dest : list Byte.byte) (start : nat) : splice dest start [] = dest.
Proof.
  unfold splice. cbn [List.length app]. rewrite Nat.add_0_r. apply firstn_skipn.
Qed.

Lemma splice_length (dest : list Byte.byte) (start : nat) (bytes : list Byte.byte) :
  (start + List.length bytes <= List.length dest)%nat ->
  List.length (splice dest start bytes) = List.length dest.
Proof.
  intros Hfit. unfold splice.
  rewrite !length_app, length_firstn, length_skipn. lia.
Qed.

Lemma splice_splice (dest : list Byte.byte) (start : nat) (b1 b2 : list Byte.byte) :
  (start + List.length b1 <= List.length dest)%nat ->
  splice (splice dest start b1) (start + List.length b1) b2
  = splice dest start (b1 ++ b2).
Proof.
  intros Hfit. unfold splice.
  set (rest := skipn (start + List.length b1) dest).
  assert (Hpre : List.length (firstn start dest ++ b1) = (start + List.length b1)%nat).
  { rewrite length_app, length_firstn. lia. }
  assert (Hfirst : firstn (start + List.length b1) (firstn start dest ++ b1 ++ rest)
                   = firstn start dest ++ b1).
  { rewrite app_assoc, firstn_app, Hpre, Nat.sub_diag. cbn [firstn].
    rewrite app_nil_r. apply firstn_all2. lia. }
  assert (Hskip : skipn (start + List.length b1 + List.length b2)
                        (firstn start dest ++ b1 ++ rest)
                  = skipn (start + List.length (b1 ++ b2)) dest).
  { rewrite app_assoc, skipn_app, Hpre.
    rewrite skipn_all2 by lia. cbn [app]. unfold rest.
    rewrite skipn_skipn, length_app. f_equal. lia. }
  rewrite Hfirst, Hskip, <- !app_assoc. reflexivity.
Qed.

Lemma SetByteArrayRegion_fits (k : Kernel) (array : list Byte.byte) (start len buf : Z)
  (bytes : list Byte.byte) :
  0 <= start -> 0 <= len -> start + len <= Z.of_nat (List.length array) ->
  load_bytes k buf (Z.to_nat len) = Some bytes ->
  SetByteArrayRegion k array start len buf = Some (splice array (Z.to_nat start) bytes, false).
Proof.
  intros Hstart Hlen Hfit Hload. unfold SetByteArrayRegion.
  assert (Hcheck : (start <? 0) || (len <? 0) || (Z.of_nat (List.length array) <? start + len)
                   = false).
  { rewrite !orb_false_iff, !Z.ltb_ge. lia. }
  rewrite Hcheck, Hload. unfold splice.
  rewrite (load_bytes_length _ _ _ _ Hload).
  replace (Z.to_nat (start + len)) with (Z.to_nat start + Z.to_nat len)%nat by lia.
  reflexivity.
Qed.

(** The array write never changes the size of the array. *)
Lemma SetByteArrayRegion_length (k : Kernel) (array : list Byte.byte) (start len buf : Z)
  (array' : list Byte.byte) (raised : bool) :
  SetByteArrayRegion k array start len buf = Some (array', raised) ->
  List.length array' = List.length array.
Proof.
  unfold SetByteArrayRegion.
  destruct ((start <? 0) || (len <? 0) || (Z.of_nat (List.length array) <? start + len))
    eqn:Hcheck.
  - injection 1 as <- _. reflexivity.
  - destruct (load_bytes k buf (Z.to_nat len)) as [bytes|] eqn:Hload; [|discriminate].
    injection 1 as <- _.
    rewrite !orb_false_iff, !Z.ltb_ge in Hcheck.
    rewrite !length_app, length_firstn, length_skipn, (load_bytes_length _ _ _ _ Hload).
    lia.
Qed.

Lemma copy_planes_length (k : Kernel) (planes : list MappedPlane) :
  forall (dest : list Byte.byte) (destOffset remaining : Z) (pending : bool)
         (dest' : list Byte.byte) (pending' : bool),
    copy_planes k planes dest destOffset remaining pending = Some (dest', pending') ->
    List.length dest' = List.length dest.
Proof.
  induction planes as [|mp planes IH]; intros dest o rem pending dest' pending';
    cbn [copy_planes].
  - injection 1 as <- _. reflexivity.
  - destruct (rem =? 0); [injection 1 as <- _; reflexivity|].
    destruct (SetByteArrayRegion _ _ _ _ _) as [[dest1 raised]|] eqn:Hset; [|discriminate].
    intros Hrest. apply IH in Hrest. rewrite Hrest.
    apply (SetByteArrayRegion_length _ _ _ _ _ _ _ Hset).
Qed.

(** The copy loop on a readable view, when what it is asked to copy fits the
    destination. *)
Lemma copy_planes_spec (k : Kernel) (planes : list MappedPlane)
  (payloads : list (list Byte.byte)) :
  Forall2 (fun mp bytes => offset_inside mp /\ plane_payload k mp = Some bytes) planes payloads ->
  forall (dest : list Byte.byte) (destOffset remaining : Z),
    0 <= destOffset -> 0 <= remaining ->
    destOffset + Z.min remaining (Z.of_nat (List.length (List.concat payloads)))
    <= Z.of_nat (List.length dest) ->
    Z.of_nat (List.length dest) < 2 ^ 31 ->
    copy_planes k planes dest destOffset remaining false
    = Some (splice dest (Z.to_nat destOffset)
              (firstn (Z.to_nat (Z.min remaining
                                       (Z.of_nat (List.length (List.concat payloads)))))
                      (List.concat payloads)),
            false).
Proof.
  induction 1 as [|mp bytes planes payloads [Hrange Hpay] _ IH];
    intros dest destOffset remaining Hoff Hrem Hfit Hjava.
  - cbn [copy_planes List.concat]. rewrite firstn_nil, splice_nil. reflexivity.
  - cbn [copy_planes].
    destruct (remaining =? 0) eqn:Hzero.
    + apply Z.eqb_eq in Hzero. subst remaining.
      rewrite Z.min_l by lia. cbn [Z.to_nat firstn]. rewrite splice_nil. reflexivity.
    + apply Z.eqb_neq in Hzero.
      pose proof (load_bytes_length _ _ _ _ Hpay) as Hlen.
      cbn [List.concat] in *. rewrite length_app in *.
      set (L := List.length bytes) in *.
      set (R := List.length (List.concat payloads)) in *.
      assert (HL : to_size_t (mp_length mp - mp_offset mp) = Z.of_nat L).
      { unfold offset_inside in Hrange. rewrite to_size_t_in_range by lia. lia. }
      rewrite HL.
      set (c := Z.min remaining (Z.of_nat L)).
      assert (Hc : 0 <= c <= Z.of_nat L) by lia.
      rewrite (to_jint_in_range c) by lia.
      rewrite (SetByteArrayRegion_fits k dest destOffset c _ (firstn (Z.to_nat c) bytes));
        [|lia|lia|lia|].
      2:{ apply (load_bytes_prefix k _ _ bytes (Z.to_nat c) Hpay). lia. }
      cbn [orb].
      rewrite (to_jint_in_range (destOffset + c)) by lia.
      assert (Hb1 : List.length (firstn (Z.to_nat c) bytes) = Z.to_nat c).
      { rewrite length_firstn. fold L. lia. }
      rewrite IH; [|lia|lia| |].
      2:{ rewrite splice_length by (rewrite Hb1; lia). fold R. lia. }
      2:{ rewrite splice_length by (rewrite Hb1; lia). exact Hjava. }
      fold R. f_equal. f_equal.
      replace (Z.to_nat (destOffset + c))
        with (Z.to_nat destOffset + List.length (firstn (Z.to_nat c) bytes))%nat
        by (rewrite Hb1; lia).
      rewrite splice_splice by (rewrite Hb1; lia).
      f_equal.
      rewrite firstn_app. fold L. f_equal.
      * destruct (Z_le_gt_dec remaining (Z.of_nat L)) as [Hle|Hgt].
        -- f_equal. lia.
        -- rewrite !firstn_all2 by (fold L; lia). reflexivity.
      * f_equal. lia.
Qed.

(** The array of a [copyOut] call keeps its size, whatever the arguments. *)
Lemma copy_out_keeps_destination_length
  (mapHandle : Z) (dest : list Byte.byte) (offset length : Z) (s : State) :
  List.length (snd (FrameBuffer_nativeCopyBuffer mapHandle dest offset length s))
  = List.length dest.
Proof.
  unfold FrameBuffer_nativeCopyBuffer.
  destruct (StdMap.find mapHandle (g_mappedBuffers s)) as [mb|]; [|reflexivity].
  destruct (copy_planes _ _ _ _ _ _) as [[dest' pending]|] eqn:Hcopy; [|reflexivity].
  apply copy_planes_length in Hcopy.
  destruct pending; exact Hcopy.
Qed.

(** C4 (as amended).  On a readable view, with a non-negative offset and
    length and a destination that has room for
    [n = min(maxLength, totalLength)] bytes behind [destOffset], [copyOut]
    raises nothing and writes exactly the first [n] bytes of the planes'
    payloads (the planes in order, each without its leading offset) into the
    destination from [destOffset] on, leaving the rest of it as it was.  The
    copy is cut to [maxLength] and to the total length only: the size of the
    destination is not looked at, and the size of the array never
    changes. *)
Theorem copy_out_copies_min_of_maxLength_and_totalLength
  (mapHandle : Z) (view : MappedBuffer) (payloads : list (list Byte.byte))
  (dest : list Byte.byte) (destOffset maxLength : Z) (s : State) :
  StdMap.find mapHandle (g_mappedBuffers s) = Some view ->
  readable_view (kernel s) view payloads ->
  0 <= destOffset ->
  0 <= maxLength < 2 ^ 31 ->
  Z.of_nat (List.length dest) < 2 ^ 31 ->
  destOffset + Z.min maxLength (mb_totalLength view) <= Z.of_nat (List.length dest) ->
  let n := Z.to_nat (Z.min maxLength (mb_totalLength view)) in
  let copied := firstn n (List.concat payloads) in
  FrameBuffer_nativeCopyBuffer mapHandle dest destOffset maxLength s
  = (Returns tt,
     firstn (Z.to_nat destOffset) dest ++ copied
     ++ skipn (Z.to_nat destOffset + n) dest)
  /\ List.length copied = n
  /\ snd (FrameBuffer_nativeCopyBuffer mapHandle dest destOffset maxLength s)
     = copyOut_as_specified payloads (mb_totalLength view) dest destOffset maxLength
  /\ List.length (snd (FrameBuffer_nativeCopyBuffer mapHandle dest destOffset maxLength s))
     = List.length dest.
Proof.
  intros Hfind [Hplanes Htotal] Hoff Hmax Hjava Hfit n copied.
  assert (Hn : List.length copied = n).
  { unfold copied. rewrite length_firstn. unfold n. rewrite Htotal. lia. }
  assert (Hrun : FrameBuffer_nativeCopyBuffer mapHandle dest destOffset maxLength s
                 = (Returns tt, splice dest (Z.to_nat destOffset) copied)).
  { unfold FrameBuffer_nativeCopyBuffer. rewrite Hfind.
    rewrite to_size_t_in_range by lia.
    assert (Hmin : Z.min (Z.min maxLength (mb_totalLength view))
                         (Z.of_nat (List.length (List.concat payloads)))
                   = Z.min maxLength (mb_totalLength view)) by lia.
    rewrite (copy_planes_spec _ _ _ Hplanes); rewrite ?Hmin; [reflexivity|lia..]. }
  split.
  { rewrite Hrun. unfold splice. rewrite Hn. reflexivity. }
  split; [exact Hn|]. split; [|apply copy_out_keeps_destination_length].
  rewrite Hrun. cbn [snd]. unfold copyOut_as_specified, copied, n.
  rewrite (Z.min_l (Z.min maxLength (mb_totalLength view))) by lia. reflexivity.
Qed.

Lemma copy_out_copies_min_of_maxLength_and_totalLength_witness :
  let dest := repeat Byte.x00 8 in
  FrameBuffer_nativeCopyBuffer 5 dest 1 4 small_view_state
  = (Returns tt,
     [Byte.x00; Byte.x02; Byte.x03; Byte.x04; Byte.x01; Byte.x00; Byte.x00; Byte.x00]).
Proof.
  pose proof (copy_out_copies_min_of_maxLength_and_totalLength
                5 (mkMappedBuffer [mkMappedPlane 4096 5 2; mkMappedPlane 8197 3 1] 5)
                [[Byte.x02; Byte.x03; Byte.x04]; [Byte.x01; Byte.x02]]
                (repeat Byte.x00 8) 1 4 small_view_state) as H.
  apply H.
  - reflexivity.
  - split; [|reflexivity].
    repeat constructor; cbn; lia.
  - lia.
  - lia.
  - cbn. lia.
  - cbn. lia.
Defined.

(** C4, as stated, fails where the destination is smaller than what is
    asked for: with a 2-byte destination and [maxLength] 5 the view of 5
    bytes is not cut down to 2 bytes; both array writes are refused with
    [ArrayIndexOutOfBoundsException] and nothing is copied. *)
Lemma copy_out_does_not_truncate_to_destination :
  let dest := [Byte.x00; Byte.x00] in
  let payloads := [[Byte.x02; Byte.x03; Byte.x04]; [Byte.x01; Byte.x02]] in
  let result := FrameBuffer_nativeCopyBuffer 5 dest 0 5 small_view_state in
  readable_view (kernel small_view_state)
    (mkMappedBuffer [mkMappedPlane 4096 5 2; mkMappedPlane 8197 3 1] 5) payloads
  /\ StdMap.find 5 (g_mappedBuffers small_view_state)
     = Some (mkMappedBuffer [mkMappedPlane 4096 5 2; mkMappedPlane 8197 3 1] 5)
  /\ FrameBuffer_nativeGetBufferSize 5 small_view_state = 5
  /\ copyOut_as_specified payloads 5 dest 0 5 = [Byte.x02; Byte.x03]
  /\ result = (Throws ArrayIndexOutOfBoundsException tt, dest)
  /\ snd result <> copyOut_as_specified payloads 5 dest 0 5.
Proof.
  cbv zeta. split.
  { split; [|reflexivity]. repeat constructor; cbn; lia. }
  split; [reflexivity|]. split; [reflexivity|]. split; [reflexivity|].
  split; [reflexivity|]. vm_compute. discriminate.
Qed.

(** *** Views made by [map] are readable *)

Lemma load_mapped (k : Kernel) (m : Mapping) (a : Z) :
  In m (k_mappings k) ->
  m_addr m <= a < m_addr m + m_len m ->
  exists b, load k a = Some b.
Proof.
  intros Hin Hrange. unfold load.
  destruct (List.find _ (k_mappings k)) as [m'|] eqn:Hfind; [eexists; reflexivity|].
  exfalso. apply (find_none _ _ Hfind) in Hin.
  apply andb_false_iff in Hin. rewrite Z.leb_gt, Z.ltb_ge in Hin. lia.
Qed.

Lemma load_bytes_mapped (k : Kernel) (m : Mapping) (n : nat) :
  forall a : Z,
    In m (k_mappings k) ->
    m_addr m <= a -> a + Z.of_nat n <= m_addr m + m_len m ->
    exists bytes, load_bytes k a n = Some bytes.
Proof.
  induction n as [|n IH]; intros a Hin Hlow Hhigh; cbn [load_bytes].
  - eexists. reflexivity.
  - destruct (load_mapped k m a Hin) as [b Hb]; [lia|].
    destruct (IH (a + 1) Hin) as [bs Hbs]; [lia|lia|].
    rewrite Hb, Hbs. eexists. reflexivity.
Qed.

(** A run of the loop that maps every plane leaves each of them mapped, and
    unmaps nothing. *)
Lemma map_planes_mapped (fbPlanes : list Plane) :
  forall (i : nat) (mappedBuffer : MappedBuffer) (k : Kernel)
         (mappedBuffer' : MappedBuffer) (k' : Kernel),
    map_planes fbPlanes i mappedBuffer k = (inr mappedBuffer', k') ->
    incl (k_mappings k) (k_mappings k')
    /\ exists mapped,
         mb_planes mappedBuffer' = mb_planes mappedBuffer ++ mapped
         /\ Forall2 (fun p mp =>
                       mp_length mp = mapSize p /\ mp_offset mp = pl_offset p
                       /\ In (mkMapping (mp_data mp) (mapSize p) (pl_fd p)) (k_mappings k'))
                    fbPlanes mapped.
Proof.
  induction fbPlanes as [|plane rest IH]; intros i mb k mb' k' Hrun.
  - cbn in Hrun. injection Hrun as <- <-. split; [apply incl_refl|].
    exists []. rewrite app_nil_r. split; [reflexivity|constructor].
  - cbn [map_planes] in Hrun.
    destruct (pl_fd plane <? 0); [discriminate|].
    destruct (mapSize plane =? 0); [discriminate|].
    destruct (mmap k (mapSize plane) (pl_fd plane)) as [err|[data k1]] eqn:Hmmap;
      [discriminate|].
    apply mmap_success in Hmmap. destruct Hmmap as [_ ->].
    apply IH in Hrun. destruct Hrun as [Hincl [mapped [Hplanes Hall]]].
    cbn [mb_planes add_mapping k_mappings] in Hplanes, Hincl.
    split.
    + intros m Hin. apply Hincl. right. exact Hin.
    + exists (mkMappedPlane data (mapSize plane) (pl_offset plane) :: mapped).
      split; [rewrite Hplanes, <- app_assoc; reflexivity|].
      constructor; [|exact Hall]. cbn [mp_length mp_offset mp_data].
      split; [reflexivity|]. split; [reflexivity|].
      apply Hincl. left. reflexivity.
Qed.

Lemma mapped_planes_payloads (k : Kernel) (planes : list Plane) (mapped : list MappedPlane) :
  Forall plane_in_range planes ->
  Forall2 (fun p mp =>
             mp_length mp = mapSize p /\ mp_offset mp = pl_offset p
             /\ In (mkMapping (mp_data mp) (mapSize p) (pl_fd p)) (k_mappings k))
          planes mapped ->
  exists payloads,
    Forall2 (fun mp bytes => offset_inside mp /\ plane_payload k mp = Some bytes)
            mapped payloads
    /\ Z.of_nat (List.length (List.concat payloads)) = sum_lengths planes.
Proof.
  intros Hrange Hall.
  induction Hall as [|p mp planes mapped [Hl [Ho Hin]] _ IH].
  - exists []. split; [constructor|reflexivity].
  - inversion Hrange as [|p0 l0 Hp Hrest]; subst.
    destruct (IH Hrest) as [payloads [Hpay Hsum]].
    destruct Hp as [Hoff [Hlen Hnowrap]].
    assert (Hsize : mapSize p = pl_offset p + pl_length p).
    { unfold mapSize. apply to_uint_in_range. lia. }
    destruct (load_bytes_mapped k _ (Z.to_nat (mp_length mp - mp_offset mp))
                                (mp_data mp + mp_offset mp) Hin)
      as [bytes Hbytes]; cbn [m_addr m_len]; [lia|lia|].
    exists (bytes :: payloads). split.
    + constructor; [|exact Hpay]. split; [|exact Hbytes].
      unfold offset_inside. lia.
    + cbn [List.concat sum_lengths fold_right]. fold (sum_lengths planes).
      rewrite length_app, (load_bytes_length _ _ _ _ Hbytes). lia.
Qed.

(** X2.  A view that [map] returned for a buffer whose planes are in range
    can be read: every plane's payload is mapped, and the view's total
    length is the number of payload bytes, which is what the copy-out
    theorem asks of a view. *)
Lemma map_buffer_view_readable
  (allocatorHandle configHandle streamIndex bufferIndex mapHandle : Z) (s s' : State) :
  FrameBuffer_nativeMapBuffer allocatorHandle configHandle streamIndex bufferIndex s
  = (Returns mapHandle, s') ->
  (forall fb,
      target_buffer allocatorHandle configHandle streamIndex bufferIndex s = Some fb ->
      Forall plane_in_range (fb_planes fb) /\ sum_lengths (fb_planes fb) < 2 ^ 64) ->
  exists view payloads,
    StdMap.find mapHandle (g_mappedBuffers s') = Some view
    /\ readable_view (kernel s') view payloads.
Proof.
  intros Hmap Hfb.
  destruct (map_buffer_success _ _ _ _ _ _ _ Hmap) as [fb [view [k' [Ht [Hrun [Hfind Hk]]]]]].
  destruct (Hfb fb Ht) as [Hrange Hbound].
  destruct (map_planes_mapped _ _ _ _ _ _ Hrun) as [_ [mapped [Hplanes Hall]]].
  destruct (map_planes_success _ _ _ _ _ _ Hrun) as [_ [_ [_ Htotal]]].
  cbn [mb_planes mb_totalLength app] in Hplanes, Htotal.
  destruct (mapped_planes_payloads k' _ _ Hrange Hall) as [payloads [Hpay Hsum]].
  exists view, payloads. split; [exact Hfind|].
  unfold readable_view. rewrite Hk, Hplanes. split; [exact Hpay|].
  assert (Hnonneg : 0 <= sum_lengths (fb_planes fb)) by lia.
  rewrite Htotal, <- totalLength_fold_in_range by reflexivity.
  rewrite totalLength_fold, Hsum. apply to_size_t_in_range. lia.
Qed.

(** X2.  In [small_buffer_state] the view that [map] returns is readable. *)
Lemma map_buffer_view_readable_witness :
  exists view payloads,
    StdMap.find 5 (g_mappedBuffers small_view_state) = Some view
    /\ readable_view (kernel small_view_state) view payloads.
Proof.
  apply (map_buffer_view_readable 4 3 0 0 5 small_buffer_state small_view_state).
  - reflexivity.
  - intros fb Hfb. vm_compute in Hfb. injection Hfb as <-.
    split; [|vm_compute; reflexivity].
    repeat constructor; cbn; lia.
Defined.

(** *** Unmapping *)

(** X1.  [unmap] is idempotent: a second [unmap] of the same handle finds no
    view and changes nothing. *)
Theorem unmap_twice_is_unmap_once (mapHandle : Z) (s : State) :
  FrameBuffer_nativeUnmapBuffer mapHandle (FrameBuffer_nativeUnmapBuffer mapHandle s)
  = FrameBuffer_nativeUnmapBuffer mapHandle s.
Proof.
  unfold FrameBuffer_nativeUnmapBuffer at 2 3.
  destruct (StdMap.find mapHandle (g_mappedBuffers s)) as [mb|] eqn:Hfind.
  - unfold FrameBuffer_nativeUnmapBuffer.
    cbn [with_mappedBuffers g_mappedBuffers].
    rewrite find_erase_same. reflexivity.
  - unfold FrameBuffer_nativeUnmapBuffer. rewrite Hfind. reflexivity.
Qed.

(** ** The handle discipline *)

Lemma find_insert {V : Type} (h k : Z) (v : V) (m : StdMap.t V) :
  StdMap.find h (StdMap.insert k v m) = if h =? k then Some v else StdMap.find h m.
Proof.
  destruct (h =? k) eqn:E.
  - apply Z.eqb_eq in E. subst h. apply find_insert_same.
  - apply Z.eqb_neq in E. apply find_insert_other, E.
Qed.

Lemma find_erase {V : Type} (h k : Z) (m : StdMap.t V) :
  StdMap.find h (StdMap.erase k m) = if h =? k then None else StdMap.find h m.
Proof.
  destruct (h =? k) eqn:E.
  - apply Z.eqb_eq in E. subst h. apply find_erase_same.
  - unfold StdMap.erase.
    induction m as [|[k' v'] m IH]; cbn [filter StdMap.find fst]; [reflexivity|].
    destruct (k' =? k) eqn:Ek; cbn [negb StdMap.find].
    + apply Z.eqb_eq in Ek. subst k'. rewrite Z.eqb_sym, E. exact IH.
    + rewrite IH. reflexivity.
Qed.

Lemma has_insert {V : Type} (h k : Z) (v : V) (m : StdMap.t V) :
  has h (StdMap.insert k v m) = (h =? k) || has h m.
Proof. unfold has. rewrite find_insert. destruct (h =? k); reflexivity. Qed.

Lemma has_erase {V : Type} (h k : Z) (m : StdMap.t V) :
  has h (StdMap.erase k m) = negb (h =? k) && has h m.
Proof. unfold has. rewrite find_erase. destruct (h =? k); reflexivity. Qed.

Lemma has_insert_present {V : Type} (h k : Z) (v : V) (m : StdMap.t V) :
  has k m = true -> has h (StdMap.insert k v m) = has h m.
Proof.
  intros Hk. rewrite has_insert. destruct (h =? k) eqn:E; [|reflexivity].
  apply Z.eqb_eq in E. subst h. rewrite Hk. reflexivity.
Qed.

Lemma has_find {V : Type} (h : Z) (v : V) (m : StdMap.t V) :
  StdMap.find h m = Some v -> has h m = true.
Proof. unfold has. intros ->. reflexivity. Qed.

Lemma has_find_none {V : Type} (h : Z) (m : StdMap.t V) :
  StdMap.find h m = None -> has h m = false.
Proof. unfold has. intros ->. reflexivity. Qed.

(** The key a scan stops at is a key of the table. *)
Lemma first_key_has {V : Type} (p : V -> bool) (k : Z) (m : StdMap.t V) :
  StdMap.first_key p m = Some k -> has k m = true.
Proof.
  unfold has. induction m as [|[k0 v0] m IH]; cbn [StdMap.first_key StdMap.find];
    [discriminate|].
  destruct (p v0).
  - injection 1 as <-. rewrite Z.eqb_refl. reflexivity.
  - intros H. destruct (k0 =? k); [reflexivity|]. apply IH, H.
Qed.

Lemma erase_insert_fresh {V : Type} (k : Z) (v : V) (m : StdMap.t V) :
  StdMap.find k m = None -> StdMap.erase k (StdMap.insert k v m) = m.
Proof.
  unfold StdMap.erase.
  induction m as [|[k' v'] m IH]; cbn [StdMap.find StdMap.insert]; intros Hfind.
  - cbn [filter fst]. rewrite Z.eqb_refl. reflexivity.
  - destruct (k' =? k) eqn:Ek; [discriminate|].
    assert (Hkeep : negb (fst (k', v') =? k) = true) by (cbn [fst]; rewrite Ek; reflexivity).
    destruct (k <? k'); [|destruct (k =? k') eqn:Ek'].
    + cbn [filter fst]. rewrite Z.eqb_refl. cbn [negb]. cbn [fst] in Hkeep. rewrite Ek.
      cbn [negb]. f_equal.
      clear IH. induction m as [|[k2 v2] m IH2]; [reflexivity|].
      cbn [StdMap.find] in Hfind. cbn [filter fst].
      destruct (k2 =? k); [discriminate|]. cbn [negb]. f_equal. apply IH2, Hfind.
    + rewrite Z.eqb_sym, Ek in Ek'. discriminate.
    + cbn [filter]. rewrite Hkeep. f_equal. apply IH, Hfind.
Qed.

Lemma b2n_le_1 (b : bool) : (Nat.b2n b <= 1)%nat.
Proof. destruct b; cbn; lia. Qed.

(** A state with the same counter in which no handle names more than it did
    keeps the discipline. *)
Lemma handles_ok_shrink (s s' : State) :
  handles_ok s ->
  g_nextHandle s' = g_nextHandle s ->
  (forall h, (kinds h s' <= kinds h s)%nat) ->
  (forall h, has h (g_completedRequests s') = has h (g_cameras s')) ->
  handles_ok s'.
Proof.
  intros [Hpos [Halloc [Hexcl _]]] Hnext Hkinds Hqueues.
  unfold handles_ok. rewrite Hnext.
  split; [exact Hpos|]. split; [|split; [|exact Hqueues]].
  - intros h Hh. apply Halloc. specialize (Hkinds h). lia.
  - intros h. specialize (Hkinds h). specialize (Hexcl h). lia.
Qed.

(** A state in which the counter's value became one more handle keeps the
    discipline. *)
Lemma handles_ok_grow (s s' : State) :
  handles_ok s ->
  g_nextHandle s' = g_nextHandle s + 1 ->
  (forall h, h <> g_nextHandle s -> kinds h s' = kinds h s) ->
  (kinds (g_nextHandle s) s' <= 1 + kinds (g_nextHandle s) s)%nat ->
  (forall h, has h (g_completedRequests s') = has h (g_cameras s')) ->
  handles_ok s'.
Proof.
  intros [Hpos [Halloc [Hexcl _]]] Hnext Hother Hnew Hqueues.
  assert (Hzero : kinds (g_nextHandle s) s = 0%nat).
  { destruct (Nat.eq_dec (kinds (g_nextHandle s) s) 0) as [E|E]; [exact E|].
    specialize (Halloc _ E). lia. }
  unfold handles_ok. rewrite Hnext.
  split; [lia|]. split; [|split; [|exact Hqueues]].
  - intros h Hh. destruct (Z.eq_dec h (g_nextHandle s)) as [->|Hne]; [lia|].
    rewrite (Hother h Hne) in Hh. specialize (Halloc h Hh). lia.
  - intros h. destruct (Z.eq_dec h (g_nextHandle s)) as [->|Hne]; [lia|].
    rewrite (Hother h Hne). apply Hexcl.
Qed.

Lemma allocHandle_next (s : State) :
  g_nextHandle s < jlong_max ->
  1 <= g_nextHandle s ->
  g_nextHandle (snd (allocHandle s)) = g_nextHandle s + 1.
Proof.
  intros Hmax Hpos. unfold allocHandle. cbn [snd with_nextHandle g_nextHandle].
  apply to_jlong_in_range. unfold jlong_max in Hmax. lia.
Qed.

(** A [map] call that raises hands the state back as it got it. *)
Lemma map_buffer_failure_state
  (allocatorHandle configHandle streamIndex bufferIndex : Z) (s : State) :
  raises (fst (FrameBuffer_nativeMapBuffer allocatorHandle configHandle streamIndex
                                           bufferIndex s)) ->
  snd (FrameBuffer_nativeMapBuffer allocatorHandle configHandle streamIndex bufferIndex s)
  = s.
Proof.
  unfold FrameBuffer_nativeMapBuffer.
  destruct (StdMap.find allocatorHandle (g_allocators s)) as [alloc|]; [|reflexivity].
  destruct (StdMap.find configHandle (g_configurations s)) as [conf|]; [|reflexivity].
  destruct (config_at conf streamIndex) as [sc|]; [|reflexivity].
  destruct ((bufferIndex <? 0) || _); [reflexivity|].
  destruct (nth_error _ _) as [fb|]; [|reflexivity].
  destruct (fb_planes fb) as [|plane rest]; [reflexivity|].
  destruct (map_planes (plane :: rest) 0 (mkMappedBuffer [] 0) (kernel s))
    as [[errMsg|mappedBuffer] k'] eqn:Hrun.
  - intros _. cbn [snd].
    apply map_planes_rollback in Hrun; [|constructor].
    cbn [mb_planes munmap_planes] in Hrun. subst k'.
    apply state_with_own_kernel.
  - unfold allocHandle. cbn [fst]. intros [].
Qed.

Ltac state_fields :=
  cbn [g_cameraManagers g_cameras g_configurations g_allocators g_requests g_nextHandle
       g_completedRequests g_mappedBuffers kernel
       with_cameraManagers with_cameras with_configurations with_allocators with_requests
       with_nextHandle with_completedRequests with_mappedBuffers with_kernel fst snd] in *.

(** The state of a call that hands out a handle: the counter moved by one
    and the new handle is the only one whose standing may have changed. *)
Ltac grow_tac Hok Hmax :=
  let h := fresh "h" in
  let Hne := fresh "Hne" in
  split;
  [ apply (handles_ok_grow _ _ Hok);
    [ state_fields; apply to_jlong_in_range;
      destruct Hok as [? _]; unfold jlong_max in Hmax; lia
    | intros h Hne; unfold kinds; state_fields; rewrite ?has_insert;
      apply Z.eqb_neq in Hne; rewrite ?Hne; reflexivity
    | unfold kinds; state_fields; rewrite ?has_insert, ?Z.eqb_refl; cbn [orb Nat.b2n];
      repeat match goal with
             | |- context [Nat.b2n ?b] =>
                 let H := fresh in pose proof (b2n_le_1 b) as H; generalize dependent (Nat.b2n b)
             end; intros; lia
    | intros h; state_fields; rewrite ?has_insert; try apply (proj2 (proj2 (proj2 Hok))) ]
  | state_fields; rewrite to_jlong_in_range;
    [ lia | destruct Hok as [? _]; unfold jlong_max in Hmax; lia ] ].

(** The state of a call that only erases or rewrites entries. *)
Ltac shrink_tac Hok :=
  let h := fresh "h" in
  split;
  [ apply (handles_ok_shrink _ _ Hok);
    [ reflexivity
    | intros h; unfold kinds; state_fields; rewrite ?has_erase;
      repeat match goal with
             | |- context [negb (h =? ?k)] => destruct (h =? k); cbn [negb andb Nat.b2n]
             end;
      repeat match goal with
             | |- context [Nat.b2n ?b] =>
                 let H := fresh in pose proof (b2n_le_1 b) as H; generalize dependent (Nat.b2n b)
             end; intros; lia
    | intros h; state_fields; rewrite ?has_erase; try apply (proj2 (proj2 (proj2 Hok))) ]
  | state_fields; lia ].

Lemma step_handles_ok (c : Call) (s s' : State) :
  handles_ok s ->
  g_nextHandle s < jlong_max ->
  step c s = Some s' ->
  handles_ok s' /\ g_nextHandle s <= g_nextHandle s' <= g_nextHandle s + 1.
Proof.
  intros Hok Hmax Hstep.
  assert (Hsame : handles_ok s /\ g_nextHandle s <= g_nextHandle s <= g_nextHandle s + 1)
    by (split; [exact Hok|lia]).
  assert (Hq : forall h, has h (g_completedRequests s) = has h (g_cameras s))
    by apply Hok.
  destruct c; cbn [step] in Hstep; unfold defined in Hstep.
  - (* ManagerCreate *)
    unfold CameraManager_nativeCreate, allocHandle in Hstep.
    destruct made as [what|cm]; cbn in Hstep; injection Hstep as <-; [exact Hsame|].
    grow_tac Hok Hmax.
  - (* ManagerDestroy *)
    injection Hstep as <-. unfold CameraManager_nativeDestroy. shrink_tac Hok.
  - (* GetCamera *)
    unfold CameraManager_nativeGetCamera, allocHandle in Hstep.
    destruct (StdMap.find handle (g_cameraManagers s)) as [cm|];
      [|cbn in Hstep; injection Hstep as <-; exact Hsame].
    destruct (cm_get cameraId cm) as [camera|]; cbn in Hstep; injection Hstep as <-;
      [|exact Hsame].
    grow_tac Hok Hmax. rewrite Hq. reflexivity.
  - (* Release *)
    injection Hstep as <-. unfold Camera_nativeRelease.
    destruct (StdMap.find handle (g_cameras s)); [|exact Hsame].
    shrink_tac Hok. rewrite Hq. reflexivity.
  - (* GenerateConfiguration *)
    unfold Camera_nativeGenerateConfiguration, allocHandle in Hstep.
    destruct (StdMap.find handle (g_cameras s));
      [|cbn in Hstep; injection Hstep as <-; exact Hsame].
    destruct generated as [config|]; cbn in Hstep; injection Hstep as <-; [|exact Hsame].
    grow_tac Hok Hmax.
  - (* Configure *)
    unfold Camera_nativeConfigure in Hstep.
    destruct (StdMap.find handle (g_cameras s));
      [|cbn in Hstep; injection Hstep as <-; exact Hsame].
    destruct (StdMap.find configHandle (g_configurations s)) as [conf|] eqn:Hconf;
      [|cbn in Hstep; injection Hstep as <-; exact Hsame].
    destruct (pipeline conf) as [rc conf']. cbn in Hstep. injection Hstep as <-.
    split; [|state_fields; lia].
    apply (handles_ok_shrink _ _ Hok); [reflexivity| |exact Hq].
    intros h. unfold kinds. state_fields.
    rewrite (has_insert_present h configHandle conf' _ (has_find _ _ _ Hconf)). lia.
  - (* Stop *)
    injection Hstep as <-. unfold Camera_nativeStop.
    destruct (StdMap.find handle (g_cameras s)) as [camera|] eqn:Hcam; [|exact Hsame].
    split; [|state_fields; lia].
    apply (handles_ok_shrink _ _ Hok); [reflexivity|intros h; unfold kinds; state_fields; lia|].
    intros h. state_fields. rewrite has_insert_present; [apply Hq|].
    rewrite Hq. apply (has_find _ _ _ Hcam).
  - (* CreateRequest *)
    unfold Camera_nativeCreateRequest, allocHandle in Hstep.
    destruct (StdMap.find handle (g_cameras s));
      [|cbn in Hstep; injection Hstep as <-; exact Hsame].
    destruct created as [addr|]; cbn in Hstep; injection Hstep as <-; [|exact Hsame].
    grow_tac Hok Hmax.
  - (* Completed *)
    injection Hstep as <-. unfold requestCompleted.
    destruct (req_cookie request =? 0); [exact Hsame|].
    destruct (StdMap.first_key (fun camera => camera =? req_cookie request) (g_cameras s))
      as [handle|] eqn:Hscan; [|exact Hsame].
    split; [|state_fields; lia].
    apply (handles_ok_shrink _ _ Hok); [reflexivity|intros h; unfold kinds; state_fields; lia|].
    intros h. state_fields. rewrite has_insert_present; [apply Hq|].
    rewrite Hq. apply (first_key_has _ _ _ Hscan).
  - (* Poll *)
    injection Hstep as <-. unfold Camera_nativePollCompletedRequest.
    destruct (StdMap.find handle (g_completedRequests s)) as [[|req rest]|] eqn:Hqueue;
      try exact Hsame.
    assert (Hres : handles_ok
                     (with_completedRequests
                        (StdMap.insert handle rest (g_completedRequests s)) s)).
    { apply (handles_ok_shrink _ _ Hok);
        [reflexivity|intros h; unfold kinds; state_fields; lia|].
      intros h. state_fields. rewrite has_insert_present; [apply Hq|].
      apply (has_find _ _ _ Hqueue). }
    destruct (StdMap.first_key _ _); cbn [snd]; (split; [exact Hres|state_fields; lia]).
  - (* ConfigurationDestroy *)
    injection Hstep as <-. unfold CameraConfiguration_nativeDestroy. shrink_tac Hok.
  - (* ConfigurationSet *)
    unfold config_set in Hstep.
    destruct (StdMap.find handle (g_configurations s)) as [conf|] eqn:Hconf;
      [|cbn in Hstep; injection Hstep as <-; exact Hsame].
    destruct ((index <? 0) || (config_size conf <=? index));
      [cbn in Hstep; injection Hstep as <-; exact Hsame|].
    destruct (config_at conf index); cbn in Hstep; [|discriminate].
    injection Hstep as <-. split; [|state_fields; lia].
    apply (handles_ok_shrink _ _ Hok); [reflexivity| |exact Hq].
    intros h. unfold kinds. state_fields.
    rewrite (has_insert_present h handle _ _ (has_find _ _ _ Hconf)). lia.
  - (* AllocatorCreate *)
    unfold FrameBufferAllocator_nativeCreate, allocHandle in Hstep.
    destruct (StdMap.find cameraHandle (g_cameras s));
      cbn in Hstep; injection Hstep as <-; [|exact Hsame].
    grow_tac Hok Hmax.
  - (* AllocatorDestroy *)
    injection Hstep as <-. unfold FrameBufferAllocator_nativeDestroy. shrink_tac Hok.
  - (* Allocate *)
    unfold FrameBufferAllocator_nativeAllocate in Hstep.
    destruct (StdMap.find handle (g_allocators s)) as [alloc|] eqn:Halloc;
      [|cbn in Hstep; injection Hstep as <-; exact Hsame].
    destruct (StdMap.find configHandle (g_configurations s)) as [conf|];
      [|cbn in Hstep; injection Hstep as <-; exact Hsame].
    destruct ((streamIndex <? 0) || (config_size conf <=? streamIndex));
      [cbn in Hstep; injection Hstep as <-; exact Hsame|].
    destruct (config_at conf streamIndex) as [sc|]; [|discriminate].
    destruct (pipeline alloc (sc_stream sc)) as [rc alloc']. cbn in Hstep.
    injection Hstep as <-. split; [|state_fields; lia].
    apply (handles_ok_shrink _ _ Hok); [reflexivity| |exact Hq].
    intros h. unfold kinds. state_fields.
    rewrite (has_insert_present h handle alloc' _ (has_find _ _ _ Halloc)). lia.
  - (* RequestDestroy *)
    injection Hstep as <-. unfold Request_nativeDestroy. shrink_tac Hok.
  - (* SetControl *)
    unfold set_control in Hstep.
    destruct (StdMap.find handle (g_requests s)) as [r|] eqn:Hreq;
      cbn in Hstep; injection Hstep as <-; [|exact Hsame].
    split; [|state_fields; lia].
    apply (handles_ok_shrink _ _ Hok); [reflexivity| |exact Hq].
    intros h. unfold kinds. state_fields.
    rewrite (has_insert_present h handle _ _ (has_find _ _ _ Hreq)). lia.
  - (* MapBuffer *)
    destruct (FrameBuffer_nativeMapBuffer allocatorHandle configHandle streamIndex
                                          bufferIndex s) as [o s1] eqn:Hmap.
    cbn [fst snd] in Hstep.
    destruct o as [mapHandle|e v|]; [| |discriminate]; injection Hstep as <-.
    + destruct (map_buffer_success _ _ _ _ _ _ _ Hmap) as [fb [view [k' _]]].
      revert Hmap. unfold FrameBuffer_nativeMapBuffer.
      destruct (StdMap.find allocatorHandle (g_allocators s)); [|discriminate].
      destruct (StdMap.find configHandle (g_configurations s)); [|discriminate].
      destruct (config_at _ _); [|discriminate].
      destruct ((bufferIndex <? 0) || _); [discriminate|].
      destruct (nth_error _ _) as [fb0|]; [|discriminate].
      destruct (fb_planes fb0) as [|plane rest]; [discriminate|].
      destruct (map_planes _ _ _ _) as [[errMsg|mb] k1]; [discriminate|].
      unfold allocHandle. injection 1 as _ <-.
      grow_tac Hok Hmax.
    + assert (Hback : snd (FrameBuffer_nativeMapBuffer allocatorHandle configHandle
                                                        streamIndex bufferIndex s) = s).
      { apply map_buffer_failure_state. rewrite Hmap. exact I. }
      rewrite Hmap in Hback. cbn [snd] in Hback. subst s1. exact Hsame.
  - (* UnmapBuffer *)
    injection Hstep as <-. unfold FrameBuffer_nativeUnmapBuffer.
    destruct (StdMap.find mapHandle (g_mappedBuffers s)); [|exact Hsame].
    shrink_tac Hok.
  - (* AddBuffer *)
    cbn [fst snd] in Hstep. destruct (Request_nativeAddBuffer _ _ _ _ _ _ _);
      [| |discriminate]; injection Hstep as <-; exact Hsame.
  - (* GetTimestamp *)
    cbn [fst snd] in Hstep. destruct (Request_nativeGetTimestamp _ _ _ _ _ _ _);
      [| |discriminate]; injection Hstep as <-; exact Hsame.
  - (* GetSequence *)
    cbn [fst snd] in Hstep. destruct (Request_nativeGetSequence _ _ _ _ _ _ _);
      [| |discriminate]; injection Hstep as <-; exact Hsame.
  - (* ManagerStart *)
    unfold CameraManager_nativeStart in Hstep.
    destruct (StdMap.find handle (g_cameraManagers s)) as [cm|] eqn:Hcm;
      [|cbn in Hstep; injection Hstep as <-; exact Hsame].
    destruct (pipeline cm) as [rc cm']. cbn in Hstep. injection Hstep as <-.
    split; [|state_fields; lia].
    apply (handles_ok_shrink _ _ Hok); [reflexivity| |exact Hq].
    intros h. unfold kinds. state_fields.
    rewrite (has_insert_present h handle cm' _ (has_find _ _ _ Hcm)). lia.
  - (* ManagerStop *)
    injection Hstep as <-. unfold CameraManager_nativeStop.
    destruct (StdMap.find handle (g_cameraManagers s)) as [cm|] eqn:Hcm; [|exact Hsame].
    split; [|state_fields; lia].
    apply (handles_ok_shrink _ _ Hok); [reflexivity| |exact Hq].
    intros h. unfold kinds. state_fields.
    rewrite (has_insert_present h handle _ _ (has_find _ _ _ Hcm)). lia.
  - (* Acquire *)
    cbn [fst snd] in Hstep. destruct (Camera_nativeAcquire _ _ _);
      [| |discriminate]; injection Hstep as <-; exact Hsame.
  - (* Start *)
    cbn [fst snd] in Hstep. destruct (fst (Camera_nativeStart _ _ _ _));
      [| |discriminate]; injection Hstep as <-; exact Hsame.
  - (* QueueRequest *)
    cbn [fst snd] in Hstep. destruct (Camera_nativeQueueRequest _ _ _ _);
      [| |discriminate]; injection Hstep as <-; exact Hsame.
  - (* Validate *)
    injection Hstep as <-. unfold CameraConfiguration_nativeValidate.
    destruct (StdMap.find handle (g_configurations s)) as [conf|] eqn:Hconf;
      [|exact Hsame].
    destruct (pipeline conf) as [status conf']. cbn [snd].
    split; [|state_fields; lia].
    apply (handles_ok_shrink _ _ Hok); [reflexivity| |exact Hq].
    intros h. unfold kinds. state_fields.
    rewrite (has_insert_present h handle conf' _ (has_find _ _ _ Hconf)). lia.
  - (* Reuse *)
    injection Hstep as <-. unfold Request_nativeReuse.
    destruct (StdMap.find handle (g_requests s)) as [r|] eqn:Hreq; [|exact Hsame].
    cbn [snd]. split; [|state_fields; lia].
    apply (handles_ok_shrink _ _ Hok); [reflexivity| |exact Hq].
    intros h. unfold kinds. state_fields.
    rewrite (has_insert_present h handle _ _ (has_find _ _ _ Hreq)). lia.
  - (* CopyBuffer *)
    cbn [fst snd] in Hstep. destruct (fst (FrameBuffer_nativeCopyBuffer _ _ _ _ _));
      [| |discriminate]; injection Hstep as <-; exact Hsame.
  - (* BuffersWritten *)
    injection Hstep as <-. unfold buffers_written.
    split; [|state_fields; lia].
    apply (handles_ok_shrink _ _ Hok); [reflexivity| |exact Hq].
    intros h. unfold kinds. state_fields. lia.
  - (* MetadataWritten *)
    injection Hstep as <-. unfold metadata_written.
    destruct (StdMap.find requestHandle (g_requests s)) as [r|] eqn:Hreq; [|exact Hsame].
    split; [|state_fields; lia].
    apply (handles_ok_shrink _ _ Hok); [reflexivity| |exact Hq].
    intros h. unfold kinds. state_fields.
    rewrite (has_insert_present h requestHandle _ _ (has_find _ _ _ Hreq)). lia.
Qed.

Lemma initial_handles_ok : handles_ok initial_state.
Proof.
  unfold handles_ok. cbn. repeat split; try lia; intros h Hh; exfalso; apply Hh; reflexivity.
Qed.

Lemma run_handles_ok (calls : list Call) :
  forall s s' : State,
    handles_ok s ->
    g_nextHandle s + Z.of_nat (List.length calls) <= jlong_max ->
    run calls s = Some s' ->
    handles_ok s'
    /\ g_nextHandle s <= g_nextHandle s' <= g_nextHandle s + Z.of_nat (List.length calls).
Proof.
  induction calls as [|c calls IH]; intros s s' Hok Hmax Hrun.
  - cbn in Hrun. injection Hrun as <-. split; [exact Hok|cbn; lia].
  - cbn [run] in Hrun. cbn [List.length] in *.
    destruct (step c s) as [s1|] eqn:Hstep; [|discriminate].
    destruct (step_handles_ok c s s1 Hok) as [Hok1 Hnext1]; [lia|exact Hstep|].
    destruct (IH s1 s' Hok1) as [Hok' Hnext']; [lia|exact Hrun|].
    split; [exact Hok'|lia].
Qed.

(** X3.  In every state a process reaches from the state at load time by
    calls of the Java side and completion signals of the pipeline, fewer of
    them than there are [jlong] handles: the counter is positive and at
    most one per call above 1; every handle that names a resource, of
    whatever kind, lies in [1, g_nextHandle), so 0 names nothing; no handle
    names resources of two kinds; and the handles with a completion queue
    are exactly the session handles. *)
Theorem reachable_states_keep_handle_discipline (calls : list Call) (s : State) :
  1 + Z.of_nat (List.length calls) <= jlong_max ->
  run calls initial_state = Some s ->
  1 <= g_nextHandle s <= 1 + Z.of_nat (List.length calls)
  /\ (forall h, (kinds h s <> 0)%nat -> 1 <= h < g_nextHandle s)
  /\ kinds 0 s = 0%nat
  /\ (forall h, (kinds h s <= 1)%nat)
  /\ (forall h, has h (g_completedRequests s) = has h (g_cameras s)).
Proof.
  intros Hmax Hrun.
  destruct (run_handles_ok calls initial_state s initial_handles_ok Hmax Hrun)
    as [[Hpos [Halloc [Hexcl Hqueues]]] Hnext].
  cbn [initial_state g_nextHandle] in Hnext.
  split; [lia|]. split; [exact Halloc|]. split; [|split; [exact Hexcl|exact Hqueues]].
  destruct (Nat.eq_dec (kinds 0 s) 0) as [E|E]; [exact E|].
  specialize (Halloc 0 E). lia.
Qed.

(** The process that creates a manager, opens ["cam0"] and creates one
    request reaches [request_state]. *)
Lemma reachable_states_keep_handle_discipline_witness :
  run [ManagerCreate (inr [("cam0"%string, 61440)]); GetCamera 1 "cam0";
       CreateRequest 2 0 (Some 65536)] initial_state = Some request_state
  /\ 1 <= g_nextHandle request_state <= 1 + 3
  /\ (forall h, (kinds h request_state <> 0)%nat -> 1 <= h < g_nextHandle request_state)
  /\ kinds 0 request_state = 0%nat
  /\ (forall h, (kinds h request_state <= 1)%nat)
  /\ (forall h, has h (g_completedRequests request_state) = has h (g_cameras request_state)).
Proof.
  split; [reflexivity|].
  apply (reachable_states_keep_handle_discipline
           [ManagerCreate (inr [("cam0"%string, 61440)]); GetCamera 1 "cam0";
            CreateRequest 2 0 (Some 65536)] request_state).
  - vm_compute. discriminate.
  - reflexivity.
Defined.

Lemma kinds_zero_no_queue (h : Z) (s : State) :
  handles_ok s -> kinds h s = 0%nat -> has h (g_completedRequests s) = false.
Proof.
  intros [_ [_ [_ Hq]]] Hz. rewrite Hq. unfold kinds in Hz.
  destruct (has h (g_cameras s)); [cbn in Hz; lia|reflexivity].
Qed.

Lemma counter_names_nothing (s : State) :
  handles_ok s -> kinds (g_nextHandle s) s = 0%nat.
Proof.
  intros [_ [Halloc _]].
  destruct (Nat.eq_dec (kinds (g_nextHandle s) s) 0) as [E|E]; [exact E|].
  specialize (Halloc _ E). lia.
Qed.

Lemma fresh_from_step (c : Call) (s : State) (r : Outcome Z * State) :
  handles_ok s ->
  g_nextHandle s < jlong_max ->
  step c s = Some (snd r) ->
  (kinds (g_nextHandle s) s = 0%nat ->
   forall h, fst r = Returns h -> h <> 0 ->
             h = g_nextHandle s /\ kinds h (snd r) = 1%nat) ->
  returns_fresh_handle s r.
Proof.
  intros Hok Hmax Hstep Hnew h Hret Hnz.
  pose proof (counter_names_nothing s Hok) as Hz.
  destruct (Hnew Hz h Hret Hnz) as [-> Hone].
  split; [reflexivity|]. split; [exact Hz|].
  split; [apply kinds_zero_no_queue; assumption|]. split; [exact Hone|].
  apply (step_handles_ok c s (snd r) Hok Hmax Hstep).
Qed.

(** After an insertion under the counter's value into one table, that value
    names exactly one resource. *)
Ltac one_kind Hz :=
  unfold kinds in *; state_fields; rewrite ?has_insert, ?Z.eqb_refl; cbn [orb Nat.b2n];
  repeat match goal with
         | H : context [Nat.b2n ?b] |- _ => generalize dependent (Nat.b2n b)
         end; intros; lia.

(** X4.  In a state that keeps the handle discipline, with the counter
    below the largest [jlong], each of the six creating calls (manager,
    session, configuration, request, allocator, view) returns either 0 or
    the counter's value: a handle that named no resource and had no queue
    before the call, names exactly one resource after it, and leaves the
    discipline intact. *)
Theorem created_handles_are_fresh (s : State) :
  handles_ok s ->
  g_nextHandle s < jlong_max ->
  (forall made, returns_fresh_handle s (CameraManager_nativeCreate made s))
  /\ (forall handle cameraId,
         returns_fresh_handle s (CameraManager_nativeGetCamera handle cameraId s))
  /\ (forall handle roles generated,
         returns_fresh_handle s (Camera_nativeGenerateConfiguration handle roles generated s))
  /\ (forall handle cookie created,
         returns_fresh_handle s (Camera_nativeCreateRequest handle cookie created s))
  /\ (forall cameraHandle,
         returns_fresh_handle s (FrameBufferAllocator_nativeCreate cameraHandle s))
  /\ (forall allocatorHandle configHandle streamIndex bufferIndex,
         returns_fresh_handle s
           (FrameBuffer_nativeMapBuffer allocatorHandle configHandle streamIndex
                                        bufferIndex s)).
Proof.
  intros Hok Hmax.
  split.
  { intros made. apply (fresh_from_step (ManagerCreate made)); try assumption.
    - cbn [step]. unfold defined, CameraManager_nativeCreate, allocHandle.
      destruct made; reflexivity.
    - intros Hz h. unfold CameraManager_nativeCreate, allocHandle.
      destruct made; cbn [fst snd]; intros Hret Hnz; [discriminate|].
      injection Hret as <-. split; [reflexivity|]. one_kind Hz. }
  split.
  { intros handle cameraId.
    apply (fresh_from_step (GetCamera handle cameraId)); try assumption.
    - cbn [step]. unfold defined, CameraManager_nativeGetCamera, allocHandle.
      destruct (StdMap.find handle (g_cameraManagers s)) as [cm|]; [|reflexivity].
      destruct (cm_get cameraId cm); reflexivity.
    - intros Hz h. unfold CameraManager_nativeGetCamera, allocHandle.
      destruct (StdMap.find handle (g_cameraManagers s)) as [cm|];
        [|cbn [fst]; discriminate].
      destruct (cm_get cameraId cm); cbn [fst snd]; intros Hret Hnz;
        injection Hret as <-; [|contradiction].
      split; [reflexivity|]. one_kind Hz. }
  split.
  { intros handle roles generated.
    apply (fresh_from_step (GenerateConfiguration handle roles generated)); try assumption.
    - cbn [step]. unfold defined, Camera_nativeGenerateConfiguration, allocHandle.
      destruct (StdMap.find handle (g_cameras s)); [|reflexivity].
      destruct generated; reflexivity.
    - intros Hz h. unfold Camera_nativeGenerateConfiguration, allocHandle.
      destruct (StdMap.find handle (g_cameras s)); [|cbn [fst]; discriminate].
      destruct generated; cbn [fst snd]; intros Hret Hnz;
        injection Hret as <-; [|contradiction].
      split; [reflexivity|]. one_kind Hz. }
  split.
  { intros handle cookie created.
    apply (fresh_from_step (CreateRequest handle cookie created)); try assumption.
    - cbn [step]. unfold defined, Camera_nativeCreateRequest, allocHandle.
      destruct (StdMap.find handle (g_cameras s)); [|reflexivity].
      destruct created; reflexivity.
    - intros Hz h. unfold Camera_nativeCreateRequest, allocHandle.
      destruct (StdMap.find handle (g_cameras s)); [|cbn [fst]; discriminate].
      destruct created; cbn [fst snd]; intros Hret Hnz;
        injection Hret as <-; [|contradiction].
      split; [reflexivity|]. one_kind Hz. }
  split.
  { intros cameraHandle.
    apply (fresh_from_step (AllocatorCreate cameraHandle)); try assumption.
    - cbn [step]. unfold defined, FrameBufferAllocator_nativeCreate, allocHandle.
      destruct (StdMap.find cameraHandle (g_cameras s)); reflexivity.
    - intros Hz h. unfold FrameBufferAllocator_nativeCreate, allocHandle.
      destruct (StdMap.find cameraHandle (g_cameras s)); cbn [fst snd];
        intros Hret Hnz; [|discriminate].
      injection Hret as <-. split; [reflexivity|]. one_kind Hz. }
  intros allocatorHandle configHandle streamIndex bufferIndex.
  intros h Hret Hnz.
  destruct (FrameBuffer_nativeMapBuffer allocatorHandle configHandle streamIndex
                                        bufferIndex s) as [o s1] eqn:Hmap.
  cbn [fst snd] in *. subst o.
  assert (Hstep : step (MapBuffer allocatorHandle configHandle streamIndex bufferIndex) s
                  = Some s1).
  { cbn [step]. unfold defined. rewrite Hmap. reflexivity. }
  pose proof (counter_names_nothing s Hok) as Hz.
  assert (Hnew : h = g_nextHandle s /\ kinds h s1 = 1%nat).
  { revert Hmap. unfold FrameBuffer_nativeMapBuffer.
    destruct (StdMap.find allocatorHandle (g_allocators s)); [|discriminate].
    destruct (StdMap.find configHandle (g_configurations s)); [|discriminate].
    destruct (config_at _ _); [|discriminate].
    destruct ((bufferIndex <? 0) || _); [discriminate|].
    destruct (nth_error _ _) as [fb0|]; [|discriminate].
    destruct (fb_planes fb0) as [|plane rest]; [discriminate|].
    destruct (map_planes _ _ _ _) as [[errMsg|mb] k1]; [discriminate|].
    unfold allocHandle. injection 1 as <- <-.
    split; [reflexivity|]. one_kind Hz. }
  destruct Hnew as [-> Hone].
  split; [reflexivity|]. split; [exact Hz|].
  split; [apply kinds_zero_no_queue; assumption|]. split; [exact Hone|].
  apply (step_handles_ok _ s s1 Hok Hmax Hstep).
Qed.

Lemma created_handles_are_fresh_witness :
  returns_fresh_handle session_state
    (Camera_nativeCreateRequest 2 0 (Some 65536) session_state)
  /\ fst (Camera_nativeCreateRequest 2 0 (Some 65536) session_state) = Returns 3.
Proof.
  split; [|reflexivity].
  assert (Hok : handles_ok session_state).
  { apply (run_handles_ok
             [ManagerCreate (inr [("cam0"%string, 61440)]); GetCamera 1 "cam0"]
             initial_state session_state initial_handles_ok).
    - vm_compute. discriminate.
    - reflexivity. }
  assert (Hmax : g_nextHandle session_state < jlong_max) by (vm_compute; reflexivity).
  apply (created_handles_are_fresh session_state Hok Hmax).
Defined.

(** ** The configuration accessors *)

Lemma length_update_nth {A : Type} (f : A -> A) (l : list A) :
  forall n : nat, List.length (update_nth n f l) = List.length l.
Proof.
  induction l as [|x l IH]; intros [|n]; cbn [update_nth List.length]; auto.
Qed.

Lemma nth_error_update_nth_same {A : Type} (f : A -> A) (l : list A) :
  forall n : nat, nth_error (update_nth n f l) n = option_map f (nth_error l n).
Proof.
  induction l as [|x l IH]; intros [|n]; cbn [update_nth nth_error option_map]; auto.
Qed.

Lemma nth_error_update_nth_other {A : Type} (f : A -> A) (l : list A) :
  forall n m : nat, n <> m -> nth_error (update_nth n f l) m = nth_error l m.
Proof.
  induction l as [|x l IH]; intros [|n] [|m] Hne; cbn [update_nth nth_error];
    try reflexivity; try congruence.
  apply IH. congruence.
Qed.

Lemma to_jint_to_uint (x : Z) :
  - 2 ^ 31 <= x < 2 ^ 31 -> to_jint (to_uint x) = x.
Proof.
  intros Hx. unfold to_jint, to_uint, wrap_signed, wrap_unsigned.
  replace (32 - 1) with 31 by lia.
  rewrite Zplus_mod_idemp_l. rewrite Z.mod_small; lia.
Qed.

(** An index that passes the range check of the accessors is an index of
    the vector. *)
Lemma config_at_in_range (conf : CameraConfiguration) (index : Z) :
  (index <? 0) || (config_size conf <=? index) = false ->
  exists sc, config_at conf index = Some sc.
Proof.
  intros Hcheck. apply orb_false_iff in Hcheck. destruct Hcheck as [Hlow Hhigh].
  apply Z.ltb_ge in Hlow. apply Z.leb_gt in Hhigh. unfold config_size in Hhigh.
  unfold config_at.
  destruct (nth_error conf (Z.to_nat (to_uint index))) as [sc|] eqn:E;
    [exists sc; reflexivity|].
  exfalso. apply nth_error_None in E.
  assert (Hmod : to_uint index <= index).
  { unfold to_uint, wrap_unsigned. apply Z.mod_le; lia. }
  assert (Hnonneg : 0 <= to_uint index).
  { unfold to_uint, wrap_unsigned. apply Z.mod_pos_bound. lia. }
  lia.
Qed.

(** What a setter does on a stream of a configuration that is found. *)
Lemma config_set_valid (assign : StreamConfiguration -> StreamConfiguration)
  (handle index : Z) (conf : CameraConfiguration) (s : State) :
  StdMap.find handle (g_configurations s) = Some conf ->
  0 <= index < config_size conf ->
  config_size conf < 2 ^ 31 ->
  config_set assign handle index s
  = (Returns tt,
     with_configurations
       (StdMap.insert handle (update_nth (Z.to_nat index) assign conf) (g_configurations s))
       s).
Proof.
  intros Hfind Hidx Hsize. unfold config_set. rewrite Hfind.
  assert (Hcheck : (index <? 0) || (config_size conf <=? index) = false).
  { apply orb_false_iff. split; [apply Z.ltb_ge|apply Z.leb_gt]; lia. }
  rewrite Hcheck. destruct (config_at_in_range conf index Hcheck) as [sc ->].
  rewrite to_uint_in_range by lia. reflexivity.
Qed.

(** What a getter answers after a setter: the assigned field at the stream
    that was set, what it answered before everywhere else. *)
Lemma config_get_after_set
  (field : StreamConfiguration -> Z) (assign : StreamConfiguration -> StreamConfiguration)
  (handle index : Z) (conf : CameraConfiguration) (sc : StreamConfiguration) (s : State) :
  StdMap.find handle (g_configurations s) = Some conf ->
  0 <= index < config_size conf ->
  config_size conf < 2 ^ 31 ->
  config_at conf index = Some sc ->
  forall h j : Z,
    config_get field h j (snd (config_set assign handle index s))
    = if (h =? handle) && (j =? index)
      then Returns (to_jint (field (assign sc)))
      else config_get field h j s.
Proof.
  intros Hfind Hidx Hsize Hat h j.
  rewrite (config_set_valid assign handle index conf s Hfind Hidx Hsize).
  cbn [snd]. unfold config_get at 1. state_fields. rewrite find_insert.
  destruct (h =? handle) eqn:Eh; cbn [andb]; [|reflexivity].
  apply Z.eqb_eq in Eh. subst h.
  unfold config_get. rewrite Hfind.
  unfold config_size. rewrite length_update_nth. fold (config_size conf).
  destruct ((j <? 0) || (config_size conf <=? j)) eqn:Hcheck.
  - destruct (j =? index) eqn:Ej; [|reflexivity].
    apply Z.eqb_eq in Ej. subst j. exfalso.
    apply orb_true_iff in Hcheck. rewrite Z.ltb_lt, Z.leb_le in Hcheck. lia.
  - apply orb_false_iff in Hcheck. rewrite Z.ltb_ge, Z.leb_gt in Hcheck.
    unfold config_at in *. rewrite to_uint_in_range in * by lia.
    destruct (j =? index) eqn:Ej.
    + apply Z.eqb_eq in Ej. subst j.
      rewrite nth_error_update_nth_same, Hat. reflexivity.
    + apply Z.eqb_neq in Ej.
      rewrite nth_error_update_nth_other by lia. reflexivity.
Qed.

(** X5.  On a configuration that is found and a stream index inside it,
    [setSize] followed by the getters reads back the width and the height
    that were set (any 32-bit values); the stride and the pixel format of
    that stream, every field of every other stream and of every other
    configuration, and the size of the configuration are as before. *)
Theorem set_size_then_get
  (handle index width height : Z) (conf : CameraConfiguration) (s : State) :
  StdMap.find handle (g_configurations s) = Some conf ->
  0 <= index < config_size conf ->
  config_size conf < 2 ^ 31 ->
  - 2 ^ 31 <= width < 2 ^ 31 ->
  - 2 ^ 31 <= height < 2 ^ 31 ->
  let s' := snd (CameraConfiguration_nativeSetSize handle index width height s) in
  fst (CameraConfiguration_nativeSetSize handle index width height s) = Returns tt
  /\ CameraConfiguration_nativeGetWidth handle index s' = Returns width
  /\ CameraConfiguration_nativeGetHeight handle index s' = Returns height
  /\ (forall h j,
         CameraConfiguration_nativeGetStride h j s'
         = CameraConfiguration_nativeGetStride h j s
         /\ CameraConfiguration_nativeGetPixelFormat h j s'
            = CameraConfiguration_nativeGetPixelFormat h j s)
  /\ (forall h j,
         (h, j) <> (handle, index) ->
         CameraConfiguration_nativeGetWidth h j s' = CameraConfiguration_nativeGetWidth h j s
         /\ CameraConfiguration_nativeGetHeight h j s'
            = CameraConfiguration_nativeGetHeight h j s)
  /\ (forall h, CameraConfiguration_nativeSize h s' = CameraConfiguration_nativeSize h s).
Proof.
  intros Hfind Hidx Hsize Hw Hh s'.
  assert (Hcheck : (index <? 0) || (config_size conf <=? index) = false).
  { apply orb_false_iff. split; [apply Z.ltb_ge|apply Z.leb_gt]; lia. }
  destruct (config_at_in_range conf index Hcheck) as [sc Hat].
  unfold CameraConfiguration_nativeSetSize in *.
  set (assign := fun sc0 : StreamConfiguration =>
                   mkStreamConfiguration (to_uint width) (to_uint height) (sc_stride sc0)
                     (sc_pixelFormat sc0) (sc_bufferCount sc0) (sc_stream sc0)) in *.
  pose proof (fun field => config_get_after_set field assign handle index conf sc s
                             Hfind Hidx Hsize Hat) as Hget.
  fold s' in Hget.
  assert (Hsame : config_get sc_stride handle index s = Returns (to_jint (sc_stride sc))
                  /\ config_get sc_pixelFormat handle index s
                     = Returns (to_jint (sc_pixelFormat sc))).
  { unfold config_get. rewrite Hfind, Hcheck, Hat. auto. }
  split; [rewrite (config_set_valid assign handle index conf s Hfind Hidx Hsize); reflexivity|].
  unfold CameraConfiguration_nativeGetWidth, CameraConfiguration_nativeGetHeight,
    CameraConfiguration_nativeGetStride, CameraConfiguration_nativeGetPixelFormat.
  split.
  { rewrite Hget, !Z.eqb_refl. cbn [andb assign sc_width]. rewrite to_jint_to_uint by lia.
    reflexivity. }
  split.
  { rewrite Hget, !Z.eqb_refl. cbn [andb assign sc_height]. rewrite to_jint_to_uint by lia.
    reflexivity. }
  split.
  { intros h j. rewrite !Hget.
    destruct ((h =? handle) && (j =? index)) eqn:E; [|auto].
    apply andb_true_iff in E. rewrite !Z.eqb_eq in E. destruct E as [-> ->].
    cbn [assign sc_stride sc_pixelFormat]. destruct Hsame as [-> ->]. auto. }
  split.
  { intros h j Hne. rewrite !Hget.
    destruct ((h =? handle) && (j =? index)) eqn:E; [|auto].
    apply andb_true_iff in E. rewrite !Z.eqb_eq in E. destruct E as [-> ->].
    contradiction. }
  intros h. unfold CameraConfiguration_nativeSize, s'.
  rewrite (config_set_valid assign handle index conf s Hfind Hidx Hsize).
  state_fields. rewrite find_insert.
  destruct (h =? handle) eqn:Eh; [|reflexivity].
  apply Z.eqb_eq in Eh. subst h. rewrite Hfind.
  unfold config_size. rewrite length_update_nth. reflexivity.
Qed.

Lemma set_size_then_get_witness :
  let s' := snd (CameraConfiguration_nativeSetSize 3 0 1920 1080 buffer_state) in
  CameraConfiguration_nativeGetWidth 3 0 buffer_state = Returns 128
  /\ CameraConfiguration_nativeGetWidth 3 0 s' = Returns 1920
  /\ CameraConfiguration_nativeGetHeight 3 0 s' = Returns 1080.
Proof.
  split; [reflexivity|].
  pose proof (set_size_then_get 3 0 1920 1080
                [mkStreamConfiguration 128 96 128 842094158 4 20480] buffer_state) as H.
  split; apply H; try reflexivity; cbn; lia.
Defined.

(** X6.  On a configuration that is found and a stream index inside it,
    [setPixelFormat] followed by [getPixelFormat] reads back the fourcc
    that was set (any 32-bit value) and changes no other answer of the
    getters; [setBufferCount] changes no answer of the getters at all. *)
Theorem set_pixel_format_then_get
  (handle index fourcc count : Z) (conf : CameraConfiguration) (s : State) :
  StdMap.find handle (g_configurations s) = Some conf ->
  0 <= index < config_size conf ->
  config_size conf < 2 ^ 31 ->
  - 2 ^ 31 <= fourcc < 2 ^ 31 ->
  let s1 := snd (CameraConfiguration_nativeSetPixelFormat handle index fourcc s) in
  let s2 := snd (CameraConfiguration_nativeSetBufferCount handle index count s) in
  CameraConfiguration_nativeGetPixelFormat handle index s1 = Returns fourcc
  /\ (forall h j,
         (h, j) <> (handle, index) ->
         CameraConfiguration_nativeGetPixelFormat h j s1
         = CameraConfiguration_nativeGetPixelFormat h j s)
  /\ (forall h j,
         CameraConfiguration_nativeGetWidth h j s1 = CameraConfiguration_nativeGetWidth h j s
         /\ CameraConfiguration_nativeGetHeight h j s1
            = CameraConfiguration_nativeGetHeight h j s
         /\ CameraConfiguration_nativeGetStride h j s1
            = CameraConfiguration_nativeGetStride h j s)
  /\ (forall h j,
         CameraConfiguration_nativeGetWidth h j s2 = CameraConfiguration_nativeGetWidth h j s
         /\ CameraConfiguration_nativeGetHeight h j s2
            = CameraConfiguration_nativeGetHeight h j s
         /\ CameraConfiguration_nativeGetStride h j s2
            = CameraConfiguration_nativeGetStride h j s
         /\ CameraConfiguration_nativeGetPixelFormat h j s2
            = CameraConfiguration_nativeGetPixelFormat h j s).
Proof.
  intros Hfind Hidx Hsize Hf s1 s2.
  assert (Hcheck : (index <? 0) || (config_size conf <=? index) = false).
  { apply orb_false_iff. split; [apply Z.ltb_ge|apply Z.leb_gt]; lia. }
  destruct (config_at_in_range conf index Hcheck) as [sc Hat].
  assert (Hold : forall field,
             config_get field handle index s = Returns (to_jint (field sc))).
  { intros field. unfold config_get. rewrite Hfind, Hcheck, Hat. reflexivity. }
  assert (Hframe : forall field assign h j,
             field (assign sc) = field sc ->
             config_get field h j (snd (config_set assign handle index s))
             = config_get field h j s).
  { intros field assign h j Hkeep.
    rewrite (config_get_after_set field assign handle index conf sc s Hfind Hidx Hsize Hat).
    destruct ((h =? handle) && (j =? index)) eqn:E; [|reflexivity].
    apply andb_true_iff in E. rewrite !Z.eqb_eq in E. destruct E as [-> ->].
    rewrite Hold, Hkeep. reflexivity. }
  unfold CameraConfiguration_nativeSetPixelFormat, CameraConfiguration_nativeSetBufferCount,
    CameraConfiguration_nativeGetWidth, CameraConfiguration_nativeGetHeight,
    CameraConfiguration_nativeGetStride, CameraConfiguration_nativeGetPixelFormat in *.
  split.
  { unfold s1.
    rewrite (config_get_after_set sc_pixelFormat _ handle index conf sc s
               Hfind Hidx Hsize Hat).
    rewrite !Z.eqb_refl. cbn [andb sc_pixelFormat]. rewrite to_jint_to_uint by lia.
    reflexivity. }
  split.
  { intros h j Hne. unfold s1.
    rewrite (config_get_after_set sc_pixelFormat _ handle index conf sc s
               Hfind Hidx Hsize Hat).
    destruct ((h =? handle) && (j =? index)) eqn:E; [|reflexivity].
    apply andb_true_iff in E. rewrite !Z.eqb_eq in E. destruct E as [-> ->].
    contradiction. }
  split.
  { intros h j. unfold s1. repeat split; apply Hframe; reflexivity. }
  intros h j. unfold s2. repeat split; apply Hframe; reflexivity.
Qed.

Lemma set_pixel_format_then_get_witness :
  CameraConfiguration_nativeGetPixelFormat 3 0 buffer_state = Returns 842094158
  /\ CameraConfiguration_nativeGetPixelFormat
       3 0 (snd (CameraConfiguration_nativeSetPixelFormat 3 0 1448695129 buffer_state))
     = Returns 1448695129.
Proof.
  split; [reflexivity|].
  apply (set_pixel_format_then_get 3 0 1448695129 0
           [mkStreamConfiguration 128 96 128 842094158 4 20480] buffer_state);
    try reflexivity; cbn; lia.
Defined.

(** X7.  The configuration accessors check the stream index before they
    index the vector: whatever the handle and the index, no getter and no
    setter runs into the unchecked [at(index)]; a getter answers 0 and a
    setter changes nothing when the handle is not found or the index is
    outside [0, size()). *)
Theorem configuration_accessors_check_the_index (handle index : Z) (s : State) :
  (forall field, config_get field handle index s <> Undefined)
  /\ (forall assign, fst (config_set assign handle index s) = Returns tt)
  /\ ((forall conf,
          StdMap.find handle (g_configurations s) = Some conf ->
          index < 0 \/ config_size conf <= index) ->
      CameraConfiguration_nativeGetWidth handle index s = Returns 0
      /\ CameraConfiguration_nativeGetHeight handle index s = Returns 0
      /\ CameraConfiguration_nativeGetStride handle index s = Returns 0
      /\ CameraConfiguration_nativeGetPixelFormat handle index s = Returns 0
      /\ (forall width height,
             CameraConfiguration_nativeSetSize handle index width height s = (Returns tt, s))
      /\ (forall fourcc,
             CameraConfiguration_nativeSetPixelFormat handle index fourcc s = (Returns tt, s))
      /\ (forall count,
             CameraConfiguration_nativeSetBufferCount handle index count s = (Returns tt, s))).
Proof.
  split; [|split].
  - intros field. unfold config_get.
    destruct (StdMap.find handle (g_configurations s)) as [conf|]; [|discriminate].
    destruct ((index <? 0) || (config_size conf <=? index)) eqn:Hcheck; [discriminate|].
    destruct (config_at_in_range conf index Hcheck) as [sc ->]. discriminate.
  - intros assign. unfold config_set.
    destruct (StdMap.find handle (g_configurations s)) as [conf|]; [|reflexivity].
    destruct ((index <? 0) || (config_size conf <=? index)) eqn:Hcheck; [reflexivity|].
    destruct (config_at_in_range conf index Hcheck) as [sc ->]. reflexivity.
  - intros Hout.
    unfold CameraConfiguration_nativeGetWidth, CameraConfiguration_nativeGetHeight,
      CameraConfiguration_nativeGetStride, CameraConfiguration_nativeGetPixelFormat,
      CameraConfiguration_nativeSetSize, CameraConfiguration_nativeSetPixelFormat,
      CameraConfiguration_nativeSetBufferCount, config_get, config_set.
    destruct (StdMap.find handle (g_configurations s)) as [conf|]; [|repeat split].
    assert (Hcheck : (index <? 0) || (config_size conf <=? index) = true).
    { apply orb_true_iff. rewrite Z.ltb_lt, Z.leb_le. apply (Hout conf eq_refl). }
    rewrite Hcheck. repeat split.
Qed.

(** ** Mapping and unmapping *)

(** Unmapping every plane of a finished [MappedBuffer] undoes what the loop
    mapped. *)
Lemma map_planes_then_unmap (fbPlanes : list Plane) :
  forall (i : nat) (mappedBuffer : MappedBuffer) (k : Kernel)
         (mappedBuffer' : MappedBuffer) (k' : Kernel),
    below_fresh (mb_planes mappedBuffer) k ->
    map_planes fbPlanes i mappedBuffer k = (inr mappedBuffer', k') ->
    munmap_planes (mb_planes mappedBuffer') k' = munmap_planes (mb_planes mappedBuffer) k.
Proof.
  induction fbPlanes as [|plane rest IH]; intros i mb k mb' k' Hbelow Hrun.
  - cbn in Hrun. injection Hrun as <- <-. reflexivity.
  - cbn [map_planes] in Hrun.
    destruct (pl_fd plane <? 0); [discriminate|].
    destruct (mapSize plane =? 0) eqn:Hzero; [discriminate|].
    destruct (mmap k (mapSize plane) (pl_fd plane)) as [err|[data k1]] eqn:Hmmap;
      [discriminate|].
    apply mmap_success in Hmmap. destruct Hmmap as [-> ->].
    assert (Hpos : 0 < mapSize plane).
    { apply Z.eqb_neq in Hzero. pose proof (mapSize_nonneg plane). lia. }
    apply IH in Hrun.
    + rewrite Hrun. cbn [mb_planes].
      apply munmap_planes_after_mmap; assumption.
    + cbn [mb_planes]. unfold below_fresh in *. apply Forall_app. split.
      * rewrite Forall_forall in *. intros mp Hin. specialize (Hbelow mp Hin).
        pose proof (fresh_addr_cons
                      (mkMapping (fresh_addr (k_mappings k)) (mapSize plane) (pl_fd plane))
                      (k_mappings k)) as [Hge _].
        cbn [add_mapping k_mappings]. lia.
      * constructor; [|constructor]. cbn [mp_data mp_length add_mapping k_mappings].
        apply (fresh_addr_cons
                 (mkMapping (fresh_addr (k_mappings k)) (mapSize plane) (pl_fd plane))
                 (k_mappings k)).
Qed.

(** X8.  [map] followed by [unmap] of the handle it returned leaves no
    trace but the handle it used up: when the handle named no view before,
    the view table and the address space (every mapping of it) are what
    they were before the [map], and only the counter has moved. *)
Theorem map_then_unmap_restores_the_state
  (allocatorHandle configHandle streamIndex bufferIndex mapHandle : Z) (s s' : State) :
  FrameBuffer_nativeMapBuffer allocatorHandle configHandle streamIndex bufferIndex s
  = (Returns mapHandle, s') ->
  StdMap.find mapHandle (g_mappedBuffers s) = None ->
  FrameBuffer_nativeUnmapBuffer mapHandle s' = with_nextHandle (g_nextHandle s') s
  /\ g_mappedBuffers (FrameBuffer_nativeUnmapBuffer mapHandle s') = g_mappedBuffers s
  /\ kernel (FrameBuffer_nativeUnmapBuffer mapHandle s') = kernel s.
Proof.
  intros Hmap Hfresh.
  assert (Hstate : FrameBuffer_nativeUnmapBuffer mapHandle s'
                   = with_nextHandle (g_nextHandle s') s).
  { revert Hmap. unfold FrameBuffer_nativeMapBuffer.
    destruct (StdMap.find allocatorHandle (g_allocators s)); [|discriminate].
    destruct (StdMap.find configHandle (g_configurations s)); [|discriminate].
    destruct (config_at _ _); [|discriminate].
    destruct ((bufferIndex <? 0) || _); [discriminate|].
    destruct (nth_error _ _) as [fb0|]; [|discriminate].
    destruct (fb_planes fb0) as [|plane rest]; [discriminate|].
    destruct (map_planes _ _ _ _) as [[errMsg|mb] k1] eqn:Hrun; [discriminate|].
    unfold allocHandle. injection 1 as <- <-.
    apply map_planes_then_unmap in Hrun; [|constructor].
    cbn [mb_planes munmap_planes] in Hrun.
    unfold FrameBuffer_nativeUnmapBuffer. state_fields.
    rewrite find_insert_same. state_fields.
    rewrite Hrun, (erase_insert_fresh _ _ _ Hfresh).
    destruct s. reflexivity. }
  rewrite Hstate. destruct s. cbn. auto.
Qed.

Lemma map_then_unmap_restores_the_state_witness :
  let s' := snd (FrameBuffer_nativeMapBuffer 4 3 0 0 buffer_state) in
  k_mappings (kernel s') <> []
  /\ FrameBuffer_nativeUnmapBuffer 5 s' = with_nextHandle (g_nextHandle s') buffer_state
  /\ g_mappedBuffers (FrameBuffer_nativeUnmapBuffer 5 s') = g_mappedBuffers buffer_state
  /\ kernel (FrameBuffer_nativeUnmapBuffer 5 s') = kernel buffer_state.
Proof.
  split; [vm_compute; discriminate|].
  apply (map_then_unmap_restores_the_state 4 3 0 0 5 buffer_state); reflexivity.
Defined.

(** X9.  After [unmap] the handle names no view: the length of the view is
    answered with 0, and [copyOut] raises "Invalid map handle" and leaves
    the destination alone.  The views under other handles stay in the
    table. *)
Theorem unmapped_handle_is_invalid (mapHandle : Z) (s : State) :
  let s' := FrameBuffer_nativeUnmapBuffer mapHandle s in
  FrameBuffer_nativeGetBufferSize mapHandle s' = 0
  /\ (forall dest offset length,
         FrameBuffer_nativeCopyBuffer mapHandle dest offset length s'
         = (Throws (LibCameraException "Invalid map handle") tt, dest))
  /\ (forall h, h <> mapHandle ->
                StdMap.find h (g_mappedBuffers s') = StdMap.find h (g_mappedBuffers s)).
Proof.
  intros s'.
  assert (Hgone : StdMap.find mapHandle (g_mappedBuffers s') = None).
  { unfold s', FrameBuffer_nativeUnmapBuffer.
    destruct (StdMap.find mapHandle (g_mappedBuffers s)) eqn:Hfind; [|exact Hfind].
    state_fields. apply find_erase_same. }
  split; [unfold FrameBuffer_nativeGetBufferSize; rewrite Hgone; reflexivity|].
  split; [intros; unfold FrameBuffer_nativeCopyBuffer; rewrite Hgone; reflexivity|].
  intros h Hne. unfold s', FrameBuffer_nativeUnmapBuffer.
  destruct (StdMap.find mapHandle (g_mappedBuffers s)); [|reflexivity].
  state_fields. rewrite find_erase.
  apply Z.eqb_neq in Hne. rewrite Hne. reflexivity.
Qed.

(** ** Sessions and their completion queues *)

Lemma queue_of_insert (h k : Z) (q : list Z) (s : State) :
  queue_of h (with_completedRequests (StdMap.insert k q (g_completedRequests s)) s)
  = if h =? k then q else queue_of h s.
Proof.
  unfold queue_of, StdMap.get_or. state_fields. rewrite find_insert.
  destruct (h =? k); reflexivity.
Qed.

Lemma pop_all_empty (q : list Z) : pop_all q = [].
Proof. induction q as [|req rest IH]; [reflexivity|exact IH]. Qed.

(** X10.  Stopping a session leaves it with an empty completion queue, so
    the next poll returns 0; the completions that were queued are dropped
    without touching the requests they point to, the queues of the other
    sessions stay as they are, and stopping a handle that names no session
    changes nothing. *)
Theorem stop_drains_the_session_queue (handle : Z) (s : State) :
  let s' := Camera_nativeStop handle s in
  (has handle (g_cameras s) = true ->
   queue_of handle s' = []
   /\ Camera_nativePollCompletedRequest handle s' = (0, s'))
  /\ (has handle (g_cameras s) = false -> s' = s)
  /\ (forall h, h <> handle -> queue_of h s' = queue_of h s)
  /\ g_requests s' = g_requests s
  /\ g_cameras s' = g_cameras s.
Proof.
  intros s'. unfold s', Camera_nativeStop, has. rewrite pop_all_empty.
  destruct (StdMap.find handle (g_cameras s)) as [camera|].
  - split.
    { intros _.
      assert (Hq : queue_of handle
                     (with_completedRequests
                        (StdMap.insert handle [] (g_completedRequests s)) s) = []).
      { rewrite queue_of_insert, Z.eqb_refl. reflexivity. }
      split; [exact Hq|apply poll_empty, Hq]. }
    split; [discriminate|]. split; [|split; reflexivity].
    intros h Hne. rewrite queue_of_insert. apply Z.eqb_neq in Hne. rewrite Hne. reflexivity.
  - split; [discriminate|]. repeat split.
Qed.

(** X11.  Releasing a session removes it and its completion queue: the
    handle no longer names a session (queueing and creating requests
    through it raise "Invalid Camera handle"), polling it returns 0, and a
    completion that arrives for one of its requests afterwards is dropped
    when no other session holds the camera.  The requests created through
    the session and the other sessions with their queues stay. *)
Theorem release_ends_the_session (handle : Z) (camera : Camera) (s : State) :
  StdMap.find handle (g_cameras s) = Some camera ->
  let s' := Camera_nativeRelease handle s in
  StdMap.find handle (g_cameras s') = None
  /\ Camera_nativePollCompletedRequest handle s' = (0, s')
  /\ (forall requestHandle status,
         Camera_nativeQueueRequest handle requestHandle status s'
         = Throws (LibCameraException "Invalid Camera handle") (-1))
  /\ (forall cookie created,
         Camera_nativeCreateRequest handle cookie created s'
         = (Throws (LibCameraException "Invalid Camera handle") 0, s'))
  /\ (forall r,
         (forall h c, In (h, c) (g_cameras s) -> h <> handle -> c <> req_cookie r) ->
         requestCompleted r s' = s')
  /\ (forall h, h <> handle ->
                StdMap.find h (g_cameras s') = StdMap.find h (g_cameras s)
                /\ queue_of h s' = queue_of h s)
  /\ g_requests s' = g_requests s.
Proof.
  intros Hfind s'.
  assert (Hs' : s' = with_completedRequests
                       (StdMap.erase handle (g_completedRequests s))
                       (with_cameras (StdMap.erase handle (g_cameras s)) s)).
  { unfold s', Camera_nativeRelease. rewrite Hfind. reflexivity. }
  assert (Hgone : StdMap.find handle (g_cameras s') = None).
  { rewrite Hs'. state_fields. apply find_erase_same. }
  split; [exact Hgone|].
  split.
  { apply poll_empty. rewrite Hs'. unfold queue_of, StdMap.get_or. state_fields.
    rewrite find_erase_same. reflexivity. }
  split; [intros; unfold Camera_nativeQueueRequest; rewrite Hgone; reflexivity|].
  split; [intros; unfold Camera_nativeCreateRequest; rewrite Hgone; reflexivity|].
  split.
  { intros r Hothers. unfold requestCompleted.
    destruct (req_cookie r =? 0); [reflexivity|].
    rewrite first_key_none; [reflexivity|].
    intros k c Hin. rewrite Hs' in Hin. state_fields.
    apply In_erase in Hin. destruct Hin as [Hin Hne].
    apply Z.eqb_neq. apply (Hothers k c Hin Hne). }
  split; [|rewrite Hs'; reflexivity].
  intros h Hne. rewrite Hs'. unfold queue_of, StdMap.get_or. state_fields.
  rewrite !find_erase. apply Z.eqb_neq in Hne. rewrite Hne. auto.
Qed.

Lemma release_ends_the_session_witness :
  let s' := Camera_nativeRelease 2 request_state in
  StdMap.find 2 (g_cameras s') = None
  /\ Camera_nativePollCompletedRequest 2 s' = (0, s')
  /\ requestCompleted (mkRequest 65536 61440 [] []) s' = s'
  /\ StdMap.find 3 (g_requests s') = Some (mkRequest 65536 61440 [] []).
Proof.
  pose proof (release_ends_the_session 2 61440 request_state eq_refl) as H.
  cbv zeta in H. destruct H as [H1 [H2 [_ [_ [H5 [_ H7]]]]]].
  split; [exact H1|]. split; [exact H2|]. split.
  - apply H5. intros h c [Heq|[]] Hne. injection Heq as <- _. contradiction.
  - rewrite H7. reflexivity.
Defined.

(** X12.  A completion signal changes one queue at most: the request's
    address is appended to the queue of the first session that holds the
    camera in its cookie, and every other queue and every table of
    resources stays as it is; with a null cookie or a camera no session
    holds, nothing changes at all. *)
Theorem completion_touches_one_queue (r : Request) (s : State) :
  let s' := requestCompleted r s in
  let target := StdMap.first_key (fun camera => camera =? req_cookie r) (g_cameras s) in
  g_cameras s' = g_cameras s
  /\ g_requests s' = g_requests s
  /\ g_mappedBuffers s' = g_mappedBuffers s
  /\ kernel s' = kernel s
  /\ g_nextHandle s' = g_nextHandle s
  /\ (forall h, target <> Some h -> queue_of h s' = queue_of h s)
  /\ (forall h, req_cookie r <> 0 -> target = Some h ->
                queue_of h s' = queue_of h s ++ [req_addr r])
  /\ (req_cookie r = 0 \/ target = None -> s' = s).
Proof.
  intros s' target. unfold s', requestCompleted. fold target.
  destruct (req_cookie r =? 0) eqn:Hcookie.
  - apply Z.eqb_eq in Hcookie. repeat split; try reflexivity. intros h Hnz. contradiction.
  - apply Z.eqb_neq in Hcookie. destruct target as [handle|].
    + repeat split; try reflexivity.
      * intros h Hne. rewrite queue_of_insert.
        destruct (h =? handle) eqn:E; [|reflexivity].
        apply Z.eqb_eq in E. subst h. contradiction.
      * intros h _ Heq. injection Heq as ->. rewrite queue_of_insert, Z.eqb_refl.
        reflexivity.
      * intros [Hz|Hnone]; [contradiction|discriminate].
    + repeat split; try reflexivity. intros h _ Heq. discriminate.
Qed.

(** ** Managers and the cameras they list *)

Lemma cm_get_listed (cameraId : string) (cm : CameraManager) :
  In cameraId (map fst cm) <-> exists camera, cm_get cameraId cm = Some camera.
Proof.
  induction cm as [|[id c] cm IH]; cbn [map fst In cm_get].
  - split; [intros []|intros [camera H]; discriminate].
  - destruct (String.eqb id cameraId) eqn:E.
    + apply String.eqb_eq in E. split; [intros _; exists c; reflexivity|intros _; left; exact E].
    + apply String.eqb_neq in E. rewrite <- IH. split; [intros [H|H]; [contradiction|exact H]|].
      intros H. right. exact H.
Qed.

(** X13.  What [getCameraIds] lists can be opened: for every id of the
    list, [getCamera] returns the counter's value as the handle of a new
    session for that camera, with an empty completion queue; for an id that
    is not in the list it returns 0, raises nothing and changes nothing. *)
Theorem listed_cameras_can_be_opened
  (handle : Z) (cm : CameraManager) (cameraId : string) (s : State) :
  StdMap.find handle (g_cameraManagers s) = Some cm ->
  let ids := map fst cm in
  let opened := CameraManager_nativeGetCamera handle cameraId s in
  CameraManager_nativeGetCameraIds handle s = Returns (Some ids)
  /\ (In cameraId ids ->
      fst opened = Returns (g_nextHandle s)
      /\ StdMap.find (g_nextHandle s) (g_cameras (snd opened)) = cm_get cameraId cm
      /\ cm_get cameraId cm <> None
      /\ queue_of (g_nextHandle s) (snd opened) = []
      /\ fst (Camera_nativePollCompletedRequest (g_nextHandle s) (snd opened)) = 0)
  /\ (~ In cameraId ids -> opened = (Returns 0, s)).
Proof.
  intros Hfind ids opened.
  split; [unfold CameraManager_nativeGetCameraIds; rewrite Hfind; reflexivity|].
  unfold opened, CameraManager_nativeGetCamera, allocHandle. rewrite Hfind.
  split.
  - intros Hin. apply cm_get_listed in Hin. destruct Hin as [camera Hget].
    rewrite Hget. cbn [fst snd].
    assert (Hq : queue_of (g_nextHandle s)
                   (with_completedRequests
                      (StdMap.insert (g_nextHandle s) []
                         (g_completedRequests
                            (with_cameras
                               (StdMap.insert (g_nextHandle s) camera
                                  (g_cameras
                                     (with_nextHandle (to_jlong (g_nextHandle s + 1)) s)))
                               (with_nextHandle (to_jlong (g_nextHandle s + 1)) s))))
                      (with_cameras
                         (StdMap.insert (g_nextHandle s) camera
                            (g_cameras (with_nextHandle (to_jlong (g_nextHandle s + 1)) s)))
                         (with_nextHandle (to_jlong (g_nextHandle s + 1)) s))) = []).
    { rewrite queue_of_insert, Z.eqb_refl. reflexivity. }
    split; [reflexivity|]. split; [state_fields; apply find_insert_same|].
    split; [discriminate|]. split; [exact Hq|].
    rewrite (poll_empty _ _ Hq). reflexivity.
  - intros Hout. destruct (cm_get cameraId cm) as [camera|] eqn:Hget; [|reflexivity].
    exfalso. apply Hout, cm_get_listed. exists camera. exact Hget.
Qed.

Lemma listed_cameras_can_be_opened_witness :
  CameraManager_nativeGetCameraIds 1 manager_state = Returns (Some ["cam0"%string])
  /\ fst (CameraManager_nativeGetCamera 1 "cam0" manager_state) = Returns 2
  /\ CameraManager_nativeGetCamera 1 "cam1" manager_state = (Returns 0, manager_state).
Proof.
  pose proof (listed_cameras_can_be_opened 1 [("cam0"%string, 61440)] "cam0" manager_state
                eq_refl) as H0.
  pose proof (listed_cameras_can_be_opened 1 [("cam0"%string, 61440)] "cam1" manager_state
                eq_refl) as H1.
  cbv zeta in H0, H1.
  split; [apply H0|]. split.
  - apply H0. left. reflexivity.
  - apply H1. intros [H|[]]. discriminate.
Defined.

(** ** Destroying resources *)

Lemma erase_absent {V : Type} (k : Z) (m : StdMap.t V) :
  StdMap.find k m = None -> StdMap.erase k m = m.
Proof.
  unfold StdMap.erase.
  induction m as [|[k' v'] m IH]; cbn [StdMap.find filter fst]; [reflexivity|].
  destruct (k' =? k); [discriminate|]. intros H. cbn [negb]. f_equal. apply IH, H.
Qed.

Lemma erase_erase {V : Type} (k : Z) (m : StdMap.t V) :
  StdMap.erase k (StdMap.erase k m) = StdMap.erase k m.
Proof. apply erase_absent, find_erase_same. Qed.

(** X14.  Destroying an allocator does not touch the views mapped from its
    buffers: the view table and every mapping stay, so the length of a view
    and what [copyOut] reads from it are what they were, and [unmap] works
    as before; only a new [map] through the destroyed handle raises
    "Invalid FrameBufferAllocator handle". *)
Theorem destroying_an_allocator_leaves_its_views (handle : Z) (s : State) :
  let s' := FrameBufferAllocator_nativeDestroy handle s in
  g_mappedBuffers s' = g_mappedBuffers s
  /\ kernel s' = kernel s
  /\ (forall h, FrameBuffer_nativeGetBufferSize h s' = FrameBuffer_nativeGetBufferSize h s)
  /\ (forall h dest offset length,
         FrameBuffer_nativeCopyBuffer h dest offset length s'
         = FrameBuffer_nativeCopyBuffer h dest offset length s)
  /\ (forall h,
         FrameBuffer_nativeUnmapBuffer h s'
         = FrameBufferAllocator_nativeDestroy handle (FrameBuffer_nativeUnmapBuffer h s))
  /\ (forall configHandle streamIndex bufferIndex,
         FrameBuffer_nativeMapBuffer handle configHandle streamIndex bufferIndex s'
         = (Throws (LibCameraException "Invalid FrameBufferAllocator handle") 0, s')).
Proof.
  intros s'. unfold s', FrameBufferAllocator_nativeDestroy.
  split; [reflexivity|]. split; [reflexivity|]. split; [reflexivity|].
  split; [reflexivity|]. split.
  - intros h. unfold FrameBuffer_nativeUnmapBuffer. state_fields.
    destruct (StdMap.find h (g_mappedBuffers s)); reflexivity.
  - intros c si bi. unfold FrameBuffer_nativeMapBuffer. state_fields.
    rewrite find_erase_same. reflexivity.
Qed.

(** X15.  Each of the four destroy calls (manager, configuration,
    allocator, request) removes its handle from its own table and nothing
    else: the handle names nothing of that kind afterwards, every other
    handle of that table and every other table are as before, destroying
    again changes nothing, and destroying a handle that names nothing is a
    no-op.  In particular the sessions opened from a destroyed manager and
    the completions queued for a destroyed request stay. *)
Theorem destroy_removes_one_handle (handle : Z) (s : State) :
  let m := CameraManager_nativeDestroy handle s in
  let c := CameraConfiguration_nativeDestroy handle s in
  let a := FrameBufferAllocator_nativeDestroy handle s in
  let r := Request_nativeDestroy handle s in
  (StdMap.find handle (g_cameraManagers m) = None
   /\ StdMap.find handle (g_configurations c) = None
   /\ StdMap.find handle (g_allocators a) = None
   /\ StdMap.find handle (g_requests r) = None)
  /\ (forall h, h <> handle ->
                StdMap.find h (g_cameraManagers m) = StdMap.find h (g_cameraManagers s)
                /\ StdMap.find h (g_configurations c) = StdMap.find h (g_configurations s)
                /\ StdMap.find h (g_allocators a) = StdMap.find h (g_allocators s)
                /\ StdMap.find h (g_requests r) = StdMap.find h (g_requests s))
  /\ (m = with_cameraManagers (g_cameraManagers m) s
      /\ c = with_configurations (g_configurations c) s
      /\ a = with_allocators (g_allocators a) s
      /\ r = with_requests (g_requests r) s)
  /\ (CameraManager_nativeDestroy handle m = m
      /\ CameraConfiguration_nativeDestroy handle c = c
      /\ FrameBufferAllocator_nativeDestroy handle a = a
      /\ Request_nativeDestroy handle r = r)
  /\ ((StdMap.find handle (g_cameraManagers s) = None -> m = s)
      /\ (StdMap.find handle (g_configurations s) = None -> c = s)
      /\ (StdMap.find handle (g_allocators s) = None -> a = s)
      /\ (StdMap.find handle (g_requests s) = None -> r = s)).
Proof.
  intros m c a r.
  unfold m, c, a, r, CameraManager_nativeDestroy, CameraConfiguration_nativeDestroy,
    FrameBufferAllocator_nativeDestroy, Request_nativeDestroy.
  split; [state_fields; repeat split; apply find_erase_same|].
  split.
  { intros h Hne. apply Z.eqb_neq in Hne. state_fields.
    rewrite !find_erase, Hne. auto. }
  split; [repeat split|].
  split; [state_fields; rewrite !erase_erase; repeat split|].
  repeat split; intros Hnone; rewrite (erase_absent _ _ Hnone); destruct s; reflexivity.
Qed.

(** ** The metadata getters *)

Lemma exposure_time_is_a_metadata_getter (handle : Z) (s : State) :
  Request_nativeGetExposureTime handle s
  = metadata_getter (get_int32 ExposureTime) 0 handle s.
Proof. reflexivity. Qed.

Lemma analogue_gain_is_a_metadata_getter (handle : Z) (s : State) :
  Request_nativeGetAnalogueGain handle s
  = metadata_getter (get_float AnalogueGain) 1.0%float handle s.
Proof. reflexivity. Qed.

(** A setter leaves every request with the metadata it had. *)
Lemma metadata_getter_after_set_control {A : Type}
  (read : ControlList -> option A) (default : A)
  (handle : Z) (id : ControlId) (v : ControlValue) (h : Z) (s : State) :
  metadata_getter read default h (snd (set_control handle id v s))
  = metadata_getter read default h s.
Proof.
  unfold set_control.
  destruct (StdMap.find handle (g_requests s)) as [r|] eqn:Hfind; [|reflexivity].
  unfold metadata_getter. state_fields. rewrite find_insert.
  destruct (h =? handle) eqn:E; [|reflexivity].
  apply Z.eqb_eq in E. subst h. rewrite Hfind. reflexivity.
Qed.

(** X16.  No control setter changes what a metadata getter answers: after
    any of the five setters on any handle, each of the eight getters
    answers on every handle what it answered before. *)
Theorem control_setters_leave_the_metadata
  (handle : Z) (id : ControlId) (v : ControlValue) (s : State) :
  let s' := snd (set_control handle id v s) in
  (forall mode, snd (Request_nativeSetAfMode handle mode s)
                = snd (set_control handle AfMode (CInt32 mode) s))
  /\ (forall position, snd (Request_nativeSetLensPosition handle position s)
                       = snd (set_control handle LensPosition (CFloat position) s))
  /\ (forall enable, snd (Request_nativeSetAeEnable handle enable s)
                     = snd (set_control handle AeEnable (CBool enable) s))
  /\ (forall microseconds, snd (Request_nativeSetExposureTime handle microseconds s)
                           = snd (set_control handle ExposureTime (CInt32 microseconds) s))
  /\ (forall gain, snd (Request_nativeSetAnalogueGain handle gain s)
                   = snd (set_control handle AnalogueGain (CFloat gain) s))
  /\ forall h,
      Request_nativeGetExposureTime h s' = Request_nativeGetExposureTime h s
      /\ Request_nativeGetAnalogueGain h s' = Request_nativeGetAnalogueGain h s
      /\ Request_nativeGetDigitalGain h s' = Request_nativeGetDigitalGain h s
      /\ Request_nativeGetColourGains h s' = Request_nativeGetColourGains h s
      /\ Request_nativeGetColourTemperature h s' = Request_nativeGetColourTemperature h s
      /\ Request_nativeGetLux h s' = Request_nativeGetLux h s
      /\ Request_nativeGetSensorBlackLevels h s' = Request_nativeGetSensorBlackLevels h s
      /\ Request_nativeGetColourCorrectionMatrix h s'
         = Request_nativeGetColourCorrectionMatrix h s.
Proof.
  intros s'. do 5 (split; [reflexivity|]).
  intros h. rewrite !exposure_time_is_a_metadata_getter, !analogue_gain_is_a_metadata_getter.
  unfold s', Request_nativeGetDigitalGain, Request_nativeGetColourGains,
    Request_nativeGetColourTemperature, Request_nativeGetLux,
    Request_nativeGetSensorBlackLevels, Request_nativeGetColourCorrectionMatrix.
  repeat split; apply metadata_getter_after_set_control.
Qed.

Lemma map_nth_seq {A : Type} (d : A) (v : list A) :
  map (fun i => nth i v d) (seq 0 (List.length v)) = v.
Proof.
  induction v as [|a v IH]; [reflexivity|].
  cbn [List.length seq map nth]. rewrite <- seq_shift, map_map. cbn [nth].
  f_equal. exact IH.
Qed.

Lemma float_span_length (n : nat) (id : ControlId) (l : ControlList) (v : list float) :
  get_float_span n id l = Some v -> List.length v = n.
Proof.
  unfold get_float_span. destruct (ctl_get id l) as [[]|]; try discriminate.
  destruct (Nat.eqb _ n); [|discriminate].
  injection 1 as <-. rewrite length_map, length_seq. reflexivity.
Qed.

Lemma int32_span_length (n : nat) (id : ControlId) (l : ControlList) (v : list Z) :
  get_int32_span n id l = Some v -> List.length v = n.
Proof.
  unfold get_int32_span. destruct (ctl_get id l) as [[]|]; try discriminate.
  destruct (Nat.eqb _ n); [|discriminate].
  injection 1 as <-. rewrite length_map, length_seq. reflexivity.
Qed.

Lemma float_span_reported (id : ControlId) (l : ControlList) (v : list float) :
  ctl_get id l = Some (CFloatArray v) ->
  get_float_span (List.length v) id l = Some v.
Proof.
  intros H. unfold get_float_span. rewrite H, Nat.eqb_refl, map_nth_seq. reflexivity.
Qed.

Lemma int32_span_reported (id : ControlId) (l : ControlList) (v : list Z) :
  ctl_get id l = Some (CInt32Array v) ->
  get_int32_span (List.length v) id l = Some v.
Proof.
  intros H. unfold get_int32_span. rewrite H, Nat.eqb_refl, map_nth_seq. reflexivity.
Qed.

Lemma metadata_getter_length {A : Type} (n : nat)
  (read : ControlList -> option (list A)) (default : list A) (handle : Z) (s : State) :
  List.length default = n ->
  (forall l v, read l = Some v -> List.length v = n) ->
  exists v, metadata_getter read default handle s = Returns v /\ List.length v = n.
Proof.
  intros Hdefault Hread. unfold metadata_getter.
  destruct (StdMap.find handle (g_requests s)) as [r|]; [|exists default; auto].
  destruct (read (req_metadata r)) as [v|] eqn:E; [|exists default; auto].
  exists v. split; [reflexivity|apply (Hread _ _ E)].
Qed.

(** X17.  The metadata getters never raise.  When the handle names no
    request or the pipeline did not report the property they answer with a
    fixed default: digital gain 1.0, colour gains (1.0, 1.0), colour
    temperature 0, lux 0.0, sensor black levels 4096 four times, and the
    identity as colour correction matrix.  When the property was reported
    they answer with the reported value, element for element for the three
    arrays.  In every state the arrays have 2, 4 and 9 elements. *)
Theorem metadata_getters_default_table (handle : Z) (s : State) :
  ((not_reported DigitalGain handle s ->
    Request_nativeGetDigitalGain handle s = Returns 1.0%float)
   /\ (not_reported ColourGains handle s ->
       Request_nativeGetColourGains handle s = Returns [1.0%float; 1.0%float])
   /\ (not_reported ColourTemperature handle s ->
       Request_nativeGetColourTemperature handle s = Returns 0)
   /\ (not_reported Lux handle s -> Request_nativeGetLux handle s = Returns 0.0%float)
   /\ (not_reported SensorBlackLevels handle s ->
       Request_nativeGetSensorBlackLevels handle s = Returns [4096; 4096; 4096; 4096])
   /\ (not_reported ColourCorrectionMatrix handle s ->
       Request_nativeGetColourCorrectionMatrix handle s
       = Returns [1.0%float; 0.0%float; 0.0%float;
                  0.0%float; 1.0%float; 0.0%float;
                  0.0%float; 0.0%float; 1.0%float]))
  /\ (forall r,
         StdMap.find handle (g_requests s) = Some r ->
         (forall g, ctl_get DigitalGain (req_metadata r) = Some (CFloat g) ->
                    Request_nativeGetDigitalGain handle s = Returns g)
         /\ (forall t, ctl_get ColourTemperature (req_metadata r) = Some (CInt32 t) ->
                       Request_nativeGetColourTemperature handle s = Returns t)
         /\ (forall l, ctl_get Lux (req_metadata r) = Some (CFloat l) ->
                       Request_nativeGetLux handle s = Returns l)
         /\ (forall v, ctl_get ColourGains (req_metadata r) = Some (CFloatArray v) ->
                       List.length v = 2%nat ->
                       Request_nativeGetColourGains handle s = Returns v)
         /\ (forall v, ctl_get SensorBlackLevels (req_metadata r) = Some (CInt32Array v) ->
                       List.length v = 4%nat ->
                       Request_nativeGetSensorBlackLevels handle s = Returns v)
         /\ (forall v, ctl_get ColourCorrectionMatrix (req_metadata r) = Some (CFloatArray v) ->
                       List.length v = 9%nat ->
                       Request_nativeGetColourCorrectionMatrix handle s = Returns v))
  /\ ((exists v, Request_nativeGetColourGains handle s = Returns v
                 /\ List.length v = 2%nat)
      /\ (exists v, Request_nativeGetSensorBlackLevels handle s = Returns v
                    /\ List.length v = 4%nat)
      /\ (exists v, Request_nativeGetColourCorrectionMatrix handle s = Returns v
                    /\ List.length v = 9%nat)).
Proof.
  split; [|split].
  - unfold not_reported, Request_nativeGetDigitalGain, Request_nativeGetColourGains,
      Request_nativeGetColourTemperature, Request_nativeGetLux,
      Request_nativeGetSensorBlackLevels, Request_nativeGetColourCorrectionMatrix,
      metadata_getter, get_float, get_int32, get_float_span, get_int32_span.
    destruct (StdMap.find handle (g_requests s)) as [r|]; [|repeat split].
    repeat split; intros H; rewrite (H r eq_refl); reflexivity.
  - intros r Hfind.
    unfold Request_nativeGetDigitalGain, Request_nativeGetColourGains,
      Request_nativeGetColourTemperature, Request_nativeGetLux,
      Request_nativeGetSensorBlackLevels, Request_nativeGetColourCorrectionMatrix,
      metadata_getter.
    rewrite Hfind.
    split; [intros g H; unfold get_float; rewrite H; reflexivity|].
    split; [intros t H; unfold get_int32; rewrite H; reflexivity|].
    split; [intros l H; unfold get_float; rewrite H; reflexivity|].
    split; [intros v H <-; rewrite (float_span_reported _ _ _ H); reflexivity|].
    split; [intros v H <-; rewrite (int32_span_reported _ _ _ H); reflexivity|].
    intros v H <-. rewrite (float_span_reported _ _ _ H). reflexivity.
  - split; [|split].
    + apply metadata_getter_length; [reflexivity|apply float_span_length].
    + apply metadata_getter_length; [reflexivity|apply int32_span_length].
    + apply metadata_getter_length; [reflexivity|apply float_span_length].
Qed.

(** ** Polling *)

Lemma first_key_found {V : Type} (p : V -> bool) (k : Z) (m : StdMap.t V) :
  StdMap.first_key p m = Some k -> exists v, In (k, v) m /\ p v = true.
Proof.
  induction m as [|[k0 v0] m IH]; cbn [StdMap.first_key]; [discriminate|].
  destruct (p v0) eqn:Hp.
  - injection 1 as <-. exists v0. split; [left; reflexivity|exact Hp].
  - intros H. destruct (IH H) as [v [Hin Hv]]. exists v. split; [right; exact Hin|exact Hv].
Qed.

(** X18.  A poll changes the polled queue only: it removes the front entry
    when there is one and touches no other queue and no table of
    resources.  A handle it returns, when it is not 0, names a request of
    the Request table, and that request is the one whose address was at the
    front of the queue. *)
Theorem poll_pops_one_completion (handle : Z) (s : State) :
  let ret := fst (Camera_nativePollCompletedRequest handle s) in
  let s' := snd (Camera_nativePollCompletedRequest handle s) in
  queue_of handle s' = tl (queue_of handle s)
  /\ (forall h, h <> handle -> queue_of h s' = queue_of h s)
  /\ g_requests s' = g_requests s
  /\ g_cameras s' = g_cameras s
  /\ g_mappedBuffers s' = g_mappedBuffers s
  /\ g_nextHandle s' = g_nextHandle s
  /\ (ret <> 0 ->
      has ret (g_requests s') = true
      /\ exists r, In (ret, r) (g_requests s) /\ hd_error (queue_of handle s) = Some (req_addr r)).
Proof.
  intros ret s'. unfold ret, s'.
  destruct (queue_of handle s) as [|req rest] eqn:Hq.
  - rewrite (poll_empty handle s Hq). cbn [fst snd tl].
    split; [exact Hq|]. split; [intros; reflexivity|].
    do 4 (split; [reflexivity|]).
    intros Hnz. exfalso. apply Hnz. reflexivity.
  - rewrite (poll_front handle req rest s Hq). cbn [fst snd tl].
    split; [rewrite queue_of_insert, Z.eqb_refl; reflexivity|].
    split.
    { intros h Hne. rewrite queue_of_insert. apply Z.eqb_neq in Hne. rewrite Hne.
      reflexivity. }
    do 4 (split; [reflexivity|]).
    destruct (StdMap.first_key (fun request => req_addr request =? req) (g_requests s))
      as [rh|] eqn:Hscan; [|intros Hnz; exfalso; apply Hnz; reflexivity].
    intros _. state_fields. split; [apply (first_key_has _ _ _ Hscan)|].
    destruct (first_key_found _ _ _ Hscan) as [r [Hin Haddr]].
    exists r. split; [exact Hin|]. apply Z.eqb_eq in Haddr. rewrite Haddr. reflexivity.
Qed.

(** ** Copying out twice *)

Lemma splice_idempotent (dest : list Byte.byte) (start : nat) (bytes : list Byte.byte) :
  (start + List.length bytes <= List.length dest)%nat ->
  splice (splice dest start bytes) start bytes = splice dest start bytes.
Proof.
  intros Hfit. unfold splice at 1.
  assert (Hstart : List.length (firstn start dest) = start)
    by (rewrite length_firstn; lia).
  assert (Hfirst : firstn start (splice dest start bytes) = firstn start dest).
  { unfold splice. rewrite <- Hstart at 1. rewrite firstn_app, firstn_all, Nat.sub_diag.
    cbn [firstn]. apply app_nil_r. }
  assert (Hskip : skipn (start + List.length bytes) (splice dest start bytes)
                  = skipn (start + List.length bytes) dest).
  { unfold splice. rewrite app_assoc.
    assert (Hpre : List.length (firstn start dest ++ bytes) = (start + List.length bytes)%nat)
      by (rewrite length_app, Hstart; reflexivity).
    rewrite <- Hpre at 1. rewrite skipn_app, skipn_all, Nat.sub_diag. reflexivity. }
  rewrite Hfirst, Hskip. reflexivity.
Qed.

(** X19.  [copyOut] only reads the view: a second [copyOut] with the same
    arguments into the array the first one filled leaves the array as the
    first one left it (on a readable view, with a non-negative offset and
    length and room for the bytes in the destination). *)
Theorem copy_out_twice_is_copy_out_once
  (mapHandle : Z) (view : MappedBuffer) (payloads : list (list Byte.byte))
  (dest : list Byte.byte) (destOffset maxLength : Z) (s : State) :
  StdMap.find mapHandle (g_mappedBuffers s) = Some view ->
  readable_view (kernel s) view payloads ->
  0 <= destOffset ->
  0 <= maxLength < 2 ^ 31 ->
  Z.of_nat (List.length dest) < 2 ^ 31 ->
  destOffset + Z.min maxLength (mb_totalLength view) <= Z.of_nat (List.length dest) ->
  let once := FrameBuffer_nativeCopyBuffer mapHandle dest destOffset maxLength s in
  FrameBuffer_nativeCopyBuffer mapHandle (snd once) destOffset maxLength s = once.
Proof.
  intros Hfind [Hplanes Htotal] Hoff Hmax Hjava Hfit once.
  set (n := Z.min maxLength (mb_totalLength view)) in *.
  set (copied := firstn (Z.to_nat n) (List.concat payloads)).
  assert (Hn : List.length copied = Z.to_nat n).
  { unfold copied. rewrite length_firstn. unfold n. rewrite Htotal. lia. }
  assert (Hmin : Z.min n (Z.of_nat (List.length (List.concat payloads))) = n)
    by (unfold n; lia).
  assert (Hcopy : forall d,
             List.length d = List.length dest ->
             FrameBuffer_nativeCopyBuffer mapHandle d destOffset maxLength s
             = (Returns tt, splice d (Z.to_nat destOffset) copied)).
  { intros d Hd. unfold FrameBuffer_nativeCopyBuffer. rewrite Hfind.
    rewrite to_size_t_in_range by lia. fold n.
    rewrite (copy_planes_spec _ _ _ Hplanes); rewrite ?Hmin, ?Hd; [reflexivity|lia..]. }
  unfold once. rewrite (Hcopy dest eq_refl). cbn [snd].
  rewrite Hcopy by (apply splice_length; lia).
  rewrite splice_idempotent by lia. reflexivity.
Qed.

Lemma copy_out_twice_is_copy_out_once_witness :
  let once := FrameBuffer_nativeCopyBuffer 5 (repeat Byte.x00 8) 1 4 small_view_state in
  snd once <> repeat Byte.x00 8
  /\ FrameBuffer_nativeCopyBuffer 5 (snd once) 1 4 small_view_state = once.
Proof.
  split; [vm_compute; discriminate|].
  apply (copy_out_twice_is_copy_out_once
           5 (mkMappedBuffer [mkMappedPlane 4096 5 2; mkMappedPlane 8197 3 1] 5)
           [[Byte.x02; Byte.x03; Byte.x04]; [Byte.x01; Byte.x02]]
           (repeat Byte.x00 8) 1 4 small_view_state).
  - reflexivity.
  - split; [|reflexivity]. repeat constructor; cbn; lia.
  - lia.
  - lia.
  - cbn. lia.
  - cbn. lia.
Defined.

(** ** Views do not disturb one another *)

Lemma mapping_below_fresh (ms : list Mapping) (m : Mapping) :
  In m ms -> m_addr m + m_len m + page_size <= fresh_addr ms.
Proof.
  unfold fresh_addr.
  induction ms as [|m0 ms IH]; intros Hin; [destruct Hin|].
  cbn [fold_right]. destruct Hin as [->|Hin].
  - unfold mapping_top. lia.
  - specialize (IH Hin). lia.
Qed.

Lemma backed_below_fresh (k : Kernel) (p : MappedPlane) :
  backed k p -> mp_data p + mp_length p + page_size <= fresh_addr (k_mappings k).
Proof.
  intros [_ [m [Hin [Ha Hl]]]]. rewrite <- Ha, <- Hl. apply mapping_below_fresh, Hin.
Qed.

Lemma backed_incl (k k' : Kernel) (p : MappedPlane) :
  incl (k_mappings k) (k_mappings k') -> backed k p -> backed k' p.
Proof.
  intros Hincl [Hpos [m [Hin Hm]]]. split; [exact Hpos|].
  exists m. split; [apply Hincl, Hin|exact Hm].
Qed.

(** The planes a run of the loop maps are mapped at fresh addresses, one
    above the other. *)
Lemma map_planes_fresh (fbPlanes : list Plane) :
  forall (i : nat) (mappedBuffer : MappedBuffer) (k : Kernel)
         (mappedBuffer' : MappedBuffer) (k' : Kernel),
    map_planes fbPlanes i mappedBuffer k = (inr mappedBuffer', k') ->
    exists mapped,
      mb_planes mappedBuffer' = mb_planes mappedBuffer ++ mapped
      /\ incl (k_mappings k) (k_mappings k')
      /\ (forall j p, nth_error mapped j = Some p ->
                      backed k' p /\ fresh_addr (k_mappings k) <= mp_data p)
      /\ (forall j p j' p',
             nth_error mapped j = Some p -> nth_error mapped j' = Some p' ->
             j <> j' -> apart p p').
Proof.
  induction fbPlanes as [|plane rest IH]; intros i mb k mb' k' Hrun.
  - cbn in Hrun. injection Hrun as <- <-. exists []. rewrite app_nil_r.
    split; [reflexivity|]. split; [apply incl_refl|].
    split; intros j p; destruct j; discriminate.
  - cbn [map_planes] in Hrun.
    destruct (pl_fd plane <? 0); [discriminate|].
    destruct (mapSize plane =? 0) eqn:Hzero; [discriminate|].
    destruct (mmap k (mapSize plane) (pl_fd plane)) as [err|[data k1]] eqn:Hmmap;
      [discriminate|].
    apply mmap_success in Hmmap. destruct Hmmap as [-> ->].
    assert (Hpos : 0 < mapSize plane).
    { apply Z.eqb_neq in Hzero. pose proof (mapSize_nonneg plane). lia. }
    apply IH in Hrun. destruct Hrun as [mapped [Hplanes [Hincl [Hback Hapart]]]].
    cbn [mb_planes add_mapping k_mappings] in Hplanes, Hincl, Hback.
    set (new := mkMappedPlane (fresh_addr (k_mappings k)) (mapSize plane) (pl_offset plane))
      in *.
    set (m := mkMapping (fresh_addr (k_mappings k)) (mapSize plane) (pl_fd plane)) in *.
    pose proof (fresh_addr_cons m (k_mappings k)) as [Hup Htop].
    cbn [m m_addr m_len] in Htop.
    assert (Hnew : backed k' new).
    { split; [exact Hpos|]. exists m. split; [apply Hincl; left; reflexivity|].
      split; reflexivity. }
    exists (new :: mapped).
    split; [rewrite Hplanes, <- app_assoc; reflexivity|].
    split; [intros m0 Hin; apply Hincl; right; exact Hin|].
    split.
    + intros [|j] p Hp; cbn [nth_error] in Hp.
      * injection Hp as <-. split; [exact Hnew|cbn; lia].
      * destruct (Hback j p Hp) as [Hb Hfresh]. split; [exact Hb|lia].
    + intros [|j] p [|j'] p' Hp Hp' Hne; cbn [nth_error] in Hp, Hp'.
      * contradiction.
      * injection Hp as <-. destruct (Hback j' p' Hp') as [_ Hfresh].
        left. cbn [new mp_data mp_length]. lia.
      * injection Hp' as <-. destruct (Hback j p Hp) as [_ Hfresh].
        right. cbn [new mp_data mp_length]. lia.
      * apply (Hapart j p j' p' Hp Hp'). congruence.
Qed.

(** What a successful [map] leaves: the counter's value as handle of the
    finished view, and the kernel of the loop. *)
Lemma map_buffer_success_state
  (allocatorHandle configHandle streamIndex bufferIndex mapHandle : Z) (s s' : State) :
  FrameBuffer_nativeMapBuffer allocatorHandle configHandle streamIndex bufferIndex s
  = (Returns mapHandle, s') ->
  exists fbPlanes view,
    map_planes fbPlanes 0 (mkMappedBuffer [] 0) (kernel s) = (inr view, kernel s')
    /\ mapHandle = g_nextHandle s
    /\ g_mappedBuffers s' = StdMap.insert mapHandle view (g_mappedBuffers s).
Proof.
  unfold FrameBuffer_nativeMapBuffer.
  destruct (StdMap.find allocatorHandle (g_allocators s)) as [alloc|]; [|discriminate].
  destruct (StdMap.find configHandle (g_configurations s)) as [conf|]; [|discriminate].
  destruct (config_at conf streamIndex) as [sc|]; [|discriminate].
  destruct ((bufferIndex <? 0) || _); [discriminate|].
  destruct (nth_error _ _) as [fb|]; [|discriminate].
  destruct (fb_planes fb) as [|plane rest]; [discriminate|].
  destruct (map_planes (plane :: rest) 0 (mkMappedBuffer [] 0) (kernel s))
    as [[errMsg|view] k'] eqn:Hrun; [discriminate|].
  unfold allocHandle. injection 1 as <- <-.
  exists (plane :: rest), view. state_fields. auto.
Qed.

Lemma defined_snd {A : Type} (r : Outcome A * State) (s' : State) :
  defined r = Some s' -> snd r = s'.
Proof. unfold defined. destruct (fst r); [injection 1; auto|injection 1; auto|discriminate]. Qed.

(** Case analysis on the innermost scrutinee, until none is left. *)
Ltac innermost_cases :=
  repeat match goal with
         | |- context [match ?x with _ => _ end] =>
             lazymatch x with
             | context [match _ with _ => _ end] => fail
             | _ => destruct x
             end
         end.

(** Only [map] and [unmap] touch the view table and the address space. *)
Lemma step_keeps_views (c : Call) (s s' : State) :
  step c s = Some s' ->
  match c with
  | MapBuffer _ _ _ _ | UnmapBuffer _ => True
  | BuffersWritten file => s' = buffers_written file s
  | _ => g_mappedBuffers s' = g_mappedBuffers s /\ kernel s' = kernel s
  end.
Proof.
  intros Hstep.
  destruct c; try exact I; cbn [step] in Hstep;
    first [apply defined_snd in Hstep | injection Hstep as Hstep];
    cbn [snd] in Hstep; rewrite <- Hstep; try reflexivity;
    unfold CameraManager_nativeCreate, CameraManager_nativeDestroy,
      CameraManager_nativeGetCamera, Camera_nativeRelease,
      Camera_nativeGenerateConfiguration, Camera_nativeConfigure, Camera_nativeStop,
      Camera_nativeCreateRequest, requestCompleted, Camera_nativePollCompletedRequest,
      CameraConfiguration_nativeDestroy, config_set, FrameBufferAllocator_nativeCreate,
      FrameBufferAllocator_nativeDestroy, FrameBufferAllocator_nativeAllocate,
      Request_nativeDestroy, set_control, CameraManager_nativeStart,
      CameraManager_nativeStop, CameraConfiguration_nativeValidate, Request_nativeReuse,
      metadata_written, allocHandle;
    innermost_cases; split; reflexivity.
Qed.

Lemma views_ok_same (s s' : State) :
  g_mappedBuffers s' = g_mappedBuffers s ->
  k_mappings (kernel s') = k_mappings (kernel s) ->
  views_ok s -> views_ok s'.
Proof.
  intros Hv Hk [Hback Hapart]. unfold views_ok, plane_of, backed in *. rewrite Hv, Hk.
  split; assumption.
Qed.

Lemma plane_of_In (s : State) (h : Z) (view : MappedBuffer) (q : MappedPlane) :
  StdMap.find h (g_mappedBuffers s) = Some view ->
  In q (mb_planes view) ->
  exists i, plane_of s h i = Some q.
Proof.
  intros Hfind Hin. apply In_nth_error in Hin. destruct Hin as [i Hi].
  exists i. unfold plane_of. rewrite Hfind. exact Hi.
Qed.

Lemma apart_not_in_range (q p : MappedPlane) (m : Mapping) :
  apart q p -> 0 < mp_length p ->
  m_addr m = mp_data p -> m_len m = mp_length p ->
  in_range (mp_data q) (mp_length q) m = false.
Proof.
  intros Hapart Hpos Ha Hl. unfold in_range. rewrite Ha, Hl.
  apply andb_false_iff. rewrite Z.leb_gt, Z.leb_gt. unfold apart in Hapart. lia.
Qed.

Lemma backed_after_munmap_planes (planes : list MappedPlane) :
  forall (k : Kernel) (p : MappedPlane),
    (forall q, In q planes -> apart q p) ->
    backed k p -> backed (munmap_planes planes k) p.
Proof.
  induction planes as [|q planes IH]; intros k p Hapart Hback; [exact Hback|].
  cbn [munmap_planes]. apply IH.
  - intros q' Hin. apply Hapart. right. exact Hin.
  - destruct Hback as [Hpos [m [Hin [Ha Hl]]]]. split; [exact Hpos|].
    exists m. split; [|split; assumption].
    unfold munmap. cbn [k_mappings]. apply filter_In. split; [exact Hin|].
    rewrite (apart_not_in_range q p m); [reflexivity| |assumption..].
    apply Hapart. left. reflexivity.
Qed.

Lemma step_views_ok (c : Call) (s s' : State) :
  views_ok s -> step c s = Some s' -> views_ok s'.
Proof.
  intros Hok Hstep.
  pose proof (step_keeps_views c s s' Hstep) as Hframe.
  destruct c;
    try apply (views_ok_same s s' (proj1 Hframe)
                 (f_equal k_mappings (proj2 Hframe)) Hok);
    try (rewrite Hframe; apply (views_ok_same s); [reflexivity|reflexivity|exact Hok]).
  - (* MapBuffer *)
    cbn [step] in Hstep. unfold defined in Hstep.
    destruct (FrameBuffer_nativeMapBuffer allocatorHandle configHandle streamIndex
                                          bufferIndex s) as [[mapHandle|e v|] s1] eqn:Hmap;
      cbn [fst snd] in Hstep; [| |discriminate]; injection Hstep as ->.
    + destruct (map_buffer_success_state _ _ _ _ _ _ _ Hmap)
        as [fbPlanes [view [Hrun [_ Hviews]]]].
      destruct (map_planes_fresh _ _ _ _ _ _ Hrun)
        as [mapped [Hplanes [Hincl [Hback Hapart]]]].
      cbn [mb_planes app] in Hplanes.
      destruct Hok as [Hold Hold_apart].
      assert (Hplane : forall h i p,
                 plane_of s' h i = Some p ->
                 (h = mapHandle /\ nth_error mapped i = Some p)
                 \/ (h <> mapHandle /\ plane_of s h i = Some p)).
      { intros h i p. unfold plane_of. rewrite Hviews, find_insert.
        destruct (h =? mapHandle) eqn:E.
        - apply Z.eqb_eq in E. rewrite Hplanes. auto.
        - apply Z.eqb_neq in E. auto. }
      split.
      * intros h i p Hp. destruct (Hplane h i p Hp) as [[_ Hnew]|[_ Hprev]].
        -- apply (Hback i p Hnew).
        -- apply (backed_incl (kernel s)); [exact Hincl|apply (Hold h i p Hprev)].
      * intros h i p h' i' p' Hp Hp' Hne.
        destruct (Hplane h i p Hp) as [[-> Hnew]|[Hh Hprev]];
          destruct (Hplane h' i' p' Hp') as [[-> Hnew']|[Hh' Hprev']].
        -- apply (Hapart i p i' p' Hnew Hnew'). congruence.
        -- right. pose proof (backed_below_fresh _ _ (Hold h' i' p' Hprev')).
           destruct (Hback i p Hnew) as [_ Hfresh]. unfold page_size in *. lia.
        -- left. pose proof (backed_below_fresh _ _ (Hold h i p Hprev)).
           destruct (Hback i' p' Hnew') as [_ Hfresh]. unfold page_size in *. lia.
        -- apply (Hold_apart h i p h' i' p' Hprev Hprev' Hne).
    + pose proof (map_buffer_failure_state allocatorHandle configHandle streamIndex
                    bufferIndex s) as Hsame.
      rewrite Hmap in Hsame. cbn [fst snd raises] in Hsame.
      rewrite Hsame; [exact Hok|].
      unfold raises. eauto.
  - (* UnmapBuffer *)
    cbn [step] in Hstep. injection Hstep as <-.
    unfold FrameBuffer_nativeUnmapBuffer.
    destruct (StdMap.find mapHandle (g_mappedBuffers s)) as [view|] eqn:Hfind; [|exact Hok].
    destruct Hok as [Hold Hold_apart].
    assert (Hplane : forall h i p,
               plane_of (with_mappedBuffers (StdMap.erase mapHandle (g_mappedBuffers s))
                           (with_kernel (munmap_planes (mb_planes view) (kernel s)) s))
                        h i = Some p ->
               h <> mapHandle /\ plane_of s h i = Some p).
    { intros h i p. unfold plane_of. state_fields. rewrite find_erase.
      destruct (h =? mapHandle) eqn:E; [discriminate|].
      apply Z.eqb_neq in E. auto. }
    split.
    + intros h i p Hp. destruct (Hplane h i p Hp) as [Hh Hprev]. state_fields.
      apply backed_after_munmap_planes; [|apply (Hold h i p Hprev)].
      intros q Hin. destruct (plane_of_In s mapHandle view q Hfind Hin) as [j Hq].
      apply (Hold_apart mapHandle j q h i p Hq Hprev). congruence.
    + intros h i p h' i' p' Hp Hp' Hne.
      destruct (Hplane h i p Hp) as [_ Hprev]. destruct (Hplane h' i' p' Hp') as [_ Hprev'].
      apply (Hold_apart h i p h' i' p' Hprev Hprev' Hne).
Qed.

Lemma process_start_views_ok (k : Kernel) : views_ok (with_kernel k initial_state).
Proof. split; intros h i p; unfold plane_of; cbn; discriminate. Qed.

Lemma run_views_ok (calls : list Call) :
  forall s s' : State, views_ok s -> run calls s = Some s' -> views_ok s'.
Proof.
  induction calls as [|c calls IH]; intros s s' Hok Hrun; cbn [run] in Hrun.
  - injection Hrun as <-. exact Hok.
  - destruct (step c s) as [s1|] eqn:Hstep; [|discriminate].
    apply (IH s1 s'); [apply (step_views_ok c s s1 Hok Hstep)|exact Hrun].
Qed.

(** X20.  In every state a process reaches, on whatever kernel it runs,
    every plane of every view in the table has positive length and is one
    of the live mappings, so each of its bytes can be read; and no two
    planes, of one view or of two, share an address. *)
Theorem views_stay_mapped_and_apart (k : Kernel) (calls : list Call) (s : State) :
  process k calls = Some s ->
  (forall h i p,
      plane_of s h i = Some p ->
      0 < mp_length p
      /\ (exists m, In m (k_mappings (kernel s))
                    /\ m_addr m = mp_data p /\ m_len m = mp_length p)
      /\ (forall a, mp_data p <= a < mp_data p + mp_length p -> load (kernel s) a <> None))
  /\ (forall h i p h' i' p',
         plane_of s h i = Some p -> plane_of s h' i' = Some p' ->
         (h, i) <> (h', i') -> apart p p').
Proof.
  intros Hrun.
  destruct (run_views_ok calls _ s (process_start_views_ok k) Hrun) as [Hback Hapart].
  split; [|exact Hapart].
  intros h i p Hp. destruct (Hback h i p Hp) as [Hpos [m [Hin [Ha Hl]]]].
  split; [exact Hpos|]. split; [exists m; auto|].
  intros a Hrange. destruct (load_mapped (kernel s) m a Hin) as [b Hb]; [lia|].
  rewrite Hb. discriminate.
Qed.

(** The two planes of the view of [small_view_state] do not overlap. *)
Lemma views_stay_mapped_and_apart_witness :
  process counting_kernel small_view_calls = Some small_view_state
  /\ plane_of small_view_state 5 0 = Some (mkMappedPlane 4096 5 2)
  /\ plane_of small_view_state 5 1 = Some (mkMappedPlane 8197 3 1)
  /\ apart (mkMappedPlane 4096 5 2) (mkMappedPlane 8197 3 1).
Proof.
  split; [reflexivity|]. split; [reflexivity|]. split; [reflexivity|].
  apply (proj2 (views_stay_mapped_and_apart counting_kernel small_view_calls
                  small_view_state eq_refl) 5 0%nat _ 5 1%nat _);
    [reflexivity|reflexivity|discriminate].
Defined.

(** ** A readable view stays readable *)

Lemma find_filter_keep {A : Type} (p q : A -> bool) (l : list A) :
  (forall x, In x l -> p x = true -> q x = true) ->
  List.find p (filter q l) = List.find p l.
Proof.
  induction l as [|x l IH]; intros Hkeep; [reflexivity|].
  cbn [filter List.find].
  assert (Hrest : forall y, In y l -> p y = true -> q y = true)
    by (intros y Hy; apply Hkeep; right; exact Hy).
  destruct (p x) eqn:Hp.
  - rewrite (Hkeep x (or_introl eq_refl) Hp). cbn [List.find]. rewrite Hp. reflexivity.
  - destruct (q x); [cbn [List.find]; rewrite Hp|]; apply IH, Hrest.
Qed.

Lemma load_after_munmap (addr len : Z) (k : Kernel) (a : Z) :
  a < addr \/ addr + len <= a ->
  load (munmap addr len k) a = load k a.
Proof.
  intros Hout. unfold load, munmap. cbn [k_mappings k_file].
  rewrite find_filter_keep; [reflexivity|].
  intros m _ Hcover. apply andb_true_iff in Hcover. rewrite Z.leb_le, Z.ltb_lt in Hcover.
  apply negb_true_iff. unfold in_range. apply andb_false_iff.
  rewrite Z.leb_gt, Z.leb_gt. lia.
Qed.

Lemma load_bytes_after_munmap (addr len : Z) (k : Kernel) (n : nat) :
  forall a : Z,
    a + Z.of_nat n <= addr \/ addr + len <= a ->
    load_bytes (munmap addr len k) a n = load_bytes k a n.
Proof.
  induction n as [|n IH]; intros a Hout; [reflexivity|].
  cbn [load_bytes]. rewrite load_after_munmap by lia. rewrite IH by lia. reflexivity.
Qed.

Lemma plane_payload_after_munmap_planes (planes : list MappedPlane) :
  forall (k : Kernel) (p : MappedPlane),
    offset_inside p ->
    (forall q, In q planes -> apart q p) ->
    plane_payload (munmap_planes planes k) p = plane_payload k p.
Proof.
  induction planes as [|q planes IH]; intros k p Hoff Hapart; [reflexivity|].
  cbn [munmap_planes]. rewrite IH; [|exact Hoff|intros q' Hin; apply Hapart; right; exact Hin].
  unfold plane_payload. apply load_bytes_after_munmap.
  specialize (Hapart q (or_introl eq_refl)). unfold apart in Hapart.
  destruct Hoff as [Hoff _]. lia.
Qed.

Lemma load_after_mmap (k : Kernel) (len fd a : Z) (b : Byte.byte) :
  load k a = Some b ->
  load (add_mapping (mkMapping (fresh_addr (k_mappings k)) len fd) k) a = Some b.
Proof.
  unfold load, add_mapping. cbn [k_mappings k_file List.find m_addr m_len].
  intros Hload.
  destruct (List.find _ (k_mappings k)) as [m|] eqn:Hfind; [|discriminate].
  apply find_some in Hfind. destruct Hfind as [Hin Hcover].
  apply andb_true_iff in Hcover. rewrite Z.leb_le, Z.ltb_lt in Hcover.
  pose proof (mapping_below_fresh _ _ Hin) as Hbelow. unfold page_size in Hbelow.
  assert (Hskip : (fresh_addr (k_mappings k) <=? a) = false) by (apply Z.leb_gt; lia).
  rewrite Hskip. cbn [andb]. exact Hload.
Qed.

Lemma load_bytes_after_mmap (k : Kernel) (len fd : Z) (n : nat) :
  forall (a : Z) (bytes : list Byte.byte),
    load_bytes k a n = Some bytes ->
    load_bytes (add_mapping (mkMapping (fresh_addr (k_mappings k)) len fd) k) a n
    = Some bytes.
Proof.
  induction n as [|n IH]; intros a bytes; cbn [load_bytes]; [auto|].
  destruct (load k a) as [b|] eqn:Hb; [|discriminate].
  destruct (load_bytes k (a + 1) n) as [bs|] eqn:Hbs; [|discriminate].
  intros H. rewrite (load_after_mmap _ _ _ _ _ Hb), (IH _ _ Hbs). exact H.
Qed.

Lemma load_bytes_after_map_planes (fbPlanes : list Plane) :
  forall (i : nat) (mappedBuffer : MappedBuffer) (k : Kernel)
         (mappedBuffer' : MappedBuffer) (k' : Kernel) (a : Z) (n : nat)
         (bytes : list Byte.byte),
    map_planes fbPlanes i mappedBuffer k = (inr mappedBuffer', k') ->
    load_bytes k a n = Some bytes ->
    load_bytes k' a n = Some bytes.
Proof.
  induction fbPlanes as [|plane rest IH]; intros i mb k mb' k' a n bytes Hrun Hload.
  - cbn in Hrun. injection Hrun as _ <-. exact Hload.
  - cbn [map_planes] in Hrun.
    destruct (pl_fd plane <? 0); [discriminate|].
    destruct (mapSize plane =? 0); [discriminate|].
    destruct (mmap k (mapSize plane) (pl_fd plane)) as [err|[data k1]] eqn:Hmmap;
      [discriminate|].
    apply mmap_success in Hmmap. destruct Hmmap as [-> ->].
    apply (IH _ _ _ _ _ a n bytes Hrun). apply load_bytes_after_mmap, Hload.
Qed.

Lemma readable_view_transfer (k k' : Kernel) (view : MappedBuffer)
  (payloads : list (list Byte.byte)) :
  (forall p bytes,
      In p (mb_planes view) -> offset_inside p ->
      plane_payload k p = Some bytes -> plane_payload k' p = Some bytes) ->
  readable_view k view payloads -> readable_view k' view payloads.
Proof.
  intros Hmove [Hplanes Htotal]. split; [|exact Htotal].
  clear Htotal. revert Hmove. generalize (mb_planes view) as planes, Hplanes.
  clear Hplanes. intros planes Hplanes.
  induction Hplanes as [|p bytes planes payloads [Hoff Hpay] _ IH];
    intros Hmove; constructor.
  - split; [exact Hoff|]. apply Hmove; [left; reflexivity|exact Hoff|exact Hpay].
  - apply IH. intros q bs Hin. apply Hmove. right. exact Hin.
Qed.

(** What is mapped stays mapped when the pipeline writes the memory behind
    it; what is read there is what was written. *)
Lemma load_bytes_rewritten (k : Kernel) (file : Z -> Z -> Byte.byte) (n : nat) :
  forall (a : Z) (bytes : list Byte.byte),
    load_bytes k a n = Some bytes ->
    exists bytes',
      load_bytes (mkKernel (k_mappings k) (k_mmap_errno k) file) a n = Some bytes'.
Proof.
  induction n as [|n IH]; intros a bytes; cbn [load_bytes]; [eexists; reflexivity|].
  unfold load. cbn [k_mappings k_file].
  destruct (List.find _ (k_mappings k)) as [m|]; [|discriminate].
  destruct (load_bytes k (a + 1) n) as [bs|] eqn:Hbs; [|discriminate].
  intros _. destruct (IH _ _ Hbs) as [bs' ->]. eexists. reflexivity.
Qed.

Lemma readable_planes_rewritten (k : Kernel) (file : Z -> Z -> Byte.byte)
  (planes : list MappedPlane) (payloads : list (list Byte.byte)) :
  Forall2 (fun mp bytes => offset_inside mp /\ plane_payload k mp = Some bytes)
          planes payloads ->
  exists payloads',
    Forall2 (fun mp bytes =>
               offset_inside mp
               /\ plane_payload (mkKernel (k_mappings k) (k_mmap_errno k) file) mp
                  = Some bytes)
            planes payloads'
    /\ map (@List.length Byte.byte) payloads' = map (@List.length Byte.byte) payloads.
Proof.
  induction 1 as [|mp bytes planes payloads [Hoff Hpay] _ [payloads' [Hall Hlen]]].
  - exists []. split; [constructor|reflexivity].
  - unfold plane_payload in Hpay.
    destruct (load_bytes_rewritten k file _ _ _ Hpay) as [bytes' Hbytes'].
    exists (bytes' :: payloads'). split.
    + constructor; [split; [exact Hoff|exact Hbytes']|exact Hall].
    + cbn [map]. rewrite Hlen.
      rewrite (load_bytes_length _ _ _ _ Hpay), (load_bytes_length _ _ _ _ Hbytes').
      reflexivity.
Qed.

Lemma length_concat_by_lengths (l1 l2 : list (list Byte.byte)) :
  map (@List.length Byte.byte) l1 = map (@List.length Byte.byte) l2 ->
  List.length (List.concat l1) = List.length (List.concat l2).
Proof.
  revert l2. induction l1 as [|x l1 IH]; intros [|y l2] H; try discriminate;
    [reflexivity|].
  cbn [map] in H. injection H as Hx Hrest.
  cbn [List.concat]. rewrite !length_app, Hx, (IH l2 Hrest). reflexivity.
Qed.

(** A readable view after one more call that is not its own [unmap]. *)
Lemma view_after_step
  (c : Call) (s s' : State) (h : Z) (view : MappedBuffer)
  (payloads : list (list Byte.byte)) :
  handles_ok s -> views_ok s ->
  step c s = Some s' ->
  c <> UnmapBuffer h ->
  StdMap.find h (g_mappedBuffers s) = Some view ->
  readable_view (kernel s) view payloads ->
  StdMap.find h (g_mappedBuffers s') = Some view
  /\ exists payloads',
      readable_view (kernel s') view payloads'
      /\ map (@List.length Byte.byte) payloads' = map (@List.length Byte.byte) payloads
      /\ ((forall file, c <> BuffersWritten file) -> payloads' = payloads).
Proof.
  intros Hok [_ Hapart] Hstep Hne Hfind Hread.
  pose proof (step_keeps_views c s s' Hstep) as Hframe.
  destruct c;
    try (rewrite (proj1 Hframe), (proj2 Hframe); split; [assumption|];
         exists payloads; auto).
  - (* MapBuffer *)
    cbn [step] in Hstep. unfold defined in Hstep.
    destruct (FrameBuffer_nativeMapBuffer allocatorHandle configHandle streamIndex
                                          bufferIndex s)
      as [[mapHandle|e v|] s1] eqn:Hmap;
      cbn [fst snd] in Hstep; [| |discriminate]; injection Hstep as ->.
    + destruct (map_buffer_success_state _ _ _ _ _ _ _ Hmap)
        as [fbPlanes [new [Hloop [Hhandle Hviews]]]].
      assert (Hfresh : h <> mapHandle).
      { intros ->. pose proof (counter_names_nothing s Hok) as Hzero.
        unfold kinds in Hzero. rewrite <- Hhandle in Hzero.
        rewrite (has_find _ _ _ Hfind) in Hzero. cbn [Nat.b2n] in Hzero. lia. }
      split.
      * rewrite Hviews, find_insert. apply Z.eqb_neq in Hfresh. rewrite Hfresh.
        exact Hfind.
      * exists payloads. split; [|auto].
        apply (readable_view_transfer (kernel s)); [|exact Hread].
        intros p bytes _ _. unfold plane_payload.
        apply (load_bytes_after_map_planes _ _ _ _ _ _ _ _ _ Hloop).
    + pose proof (map_buffer_failure_state allocatorHandle configHandle streamIndex
                    bufferIndex s) as Hsame.
      rewrite Hmap in Hsame. cbn [fst snd] in Hsame.
      rewrite Hsame; [split; [assumption|exists payloads; auto]|].
      unfold raises. eauto.
  - (* UnmapBuffer *)
    cbn [step] in Hstep. injection Hstep as <-.
    assert (Hother : h <> mapHandle) by congruence.
    unfold FrameBuffer_nativeUnmapBuffer.
    destruct (StdMap.find mapHandle (g_mappedBuffers s)) as [gone|] eqn:Hgone;
      [|split; [assumption|exists payloads; auto]].
    state_fields. split.
    + rewrite find_erase. apply Z.eqb_neq in Hother. rewrite Hother. exact Hfind.
    + exists payloads. split; [|auto].
      apply (readable_view_transfer (kernel s)); [|exact Hread].
      intros p bytes Hin Hoff Hpay.
      rewrite plane_payload_after_munmap_planes; [exact Hpay|exact Hoff|].
      intros q Hq.
      destruct (plane_of_In s mapHandle gone q Hgone Hq) as [j Hj].
      destruct (plane_of_In s h view p Hfind Hin) as [i Hi].
      apply (Hapart mapHandle j q h i p Hj Hi). congruence.
  - (* BuffersWritten *)
    rewrite Hframe. unfold buffers_written. state_fields.
    split; [exact Hfind|].
    destruct Hread as [Hplanes Htotal].
    destruct (readable_planes_rewritten (kernel s) file _ _ Hplanes)
      as [payloads' [Hall Hlen]].
    exists payloads'. split; [|split; [exact Hlen|]].
    + split; [exact Hall|]. rewrite Htotal.
      rewrite (length_concat_by_lengths _ _ Hlen). reflexivity.
    + intros Hnot. exfalso. apply (Hnot file). reflexivity.
Qed.

(** What [copyOut] does on a readable view, for arguments that fit. *)
Lemma copy_out_of_readable_view
  (mapHandle : Z) (view : MappedBuffer) (payloads : list (list Byte.byte))
  (dest : list Byte.byte) (destOffset maxLength : Z) (s : State) :
  StdMap.find mapHandle (g_mappedBuffers s) = Some view ->
  readable_view (kernel s) view payloads ->
  0 <= destOffset ->
  0 <= maxLength < 2 ^ 31 ->
  Z.of_nat (List.length dest) < 2 ^ 31 ->
  destOffset + Z.min maxLength (mb_totalLength view) <= Z.of_nat (List.length dest) ->
  FrameBuffer_nativeCopyBuffer mapHandle dest destOffset maxLength s
  = (Returns tt,
     splice dest (Z.to_nat destOffset)
            (firstn (Z.to_nat (Z.min maxLength (mb_totalLength view)))
                    (List.concat payloads))).
Proof.
  intros Hfind [Hplanes Htotal] Hoff Hmax Hjava Hfit.
  set (n := Z.min maxLength (mb_totalLength view)) in *.
  assert (Hmin : Z.min n (Z.of_nat (List.length (List.concat payloads))) = n)
    by (unfold n; lia).
  unfold FrameBuffer_nativeCopyBuffer. rewrite Hfind.
  rewrite to_size_t_in_range by lia. fold n.
  rewrite (copy_planes_spec _ _ _ Hplanes); rewrite ?Hmin; [reflexivity|lia..].
Qed.

(** X21.  No call but the [unmap] of a view itself takes the view away: in
    a state a process has reached, a view that is readable is, after any
    further call other than [unmap] of its own handle (a [map] or [unmap]
    of another buffer, the destruction of its allocator, a capture
    written into the buffers, ...), still in the table under its handle,
    of the same length, and readable plane by plane with as many bytes.
    The bytes are the same, and [copyOut] with arguments that fit gives
    what it gave before, unless the call is the pipeline writing the
    memory behind the buffers, which are mapped shared; [copyOut] then
    gives what is read there afterwards. *)
Theorem readable_view_survives_other_calls
  (k : Kernel) (calls : list Call) (c : Call) (s s' : State)
  (h : Z) (view : MappedBuffer) (payloads : list (list Byte.byte)) :
  1 + Z.of_nat (List.length calls) <= jlong_max ->
  process k calls = Some s ->
  step c s = Some s' ->
  c <> UnmapBuffer h ->
  StdMap.find h (g_mappedBuffers s) = Some view ->
  readable_view (kernel s) view payloads ->
  StdMap.find h (g_mappedBuffers s') = Some view
  /\ FrameBuffer_nativeGetBufferSize h s' = FrameBuffer_nativeGetBufferSize h s
  /\ exists payloads',
      readable_view (kernel s') view payloads'
      /\ map (@List.length Byte.byte) payloads' = map (@List.length Byte.byte) payloads
      /\ ((forall file, c <> BuffersWritten file) -> payloads' = payloads)
      /\ (forall dest destOffset maxLength,
             0 <= destOffset ->
             0 <= maxLength < 2 ^ 31 ->
             Z.of_nat (List.length dest) < 2 ^ 31 ->
             destOffset + Z.min maxLength (mb_totalLength view)
             <= Z.of_nat (List.length dest) ->
             FrameBuffer_nativeCopyBuffer h dest destOffset maxLength s'
             = (Returns tt,
                splice dest (Z.to_nat destOffset)
                       (firstn (Z.to_nat (Z.min maxLength (mb_totalLength view)))
                               (List.concat payloads')))
             /\ ((forall file, c <> BuffersWritten file) ->
                 FrameBuffer_nativeCopyBuffer h dest destOffset maxLength s'
                 = FrameBuffer_nativeCopyBuffer h dest destOffset maxLength s)).
Proof.
  intros Hmax Hrun Hstep Hne Hfind Hread.
  assert (Hstart : handles_ok (with_kernel k initial_state)).
  { pose proof initial_handles_ok as H. unfold handles_ok, kinds in *. exact H. }
  destruct (run_handles_ok calls _ s Hstart) as [Hok _];
    [cbn [with_kernel initial_state g_nextHandle]; exact Hmax|exact Hrun|].
  pose proof (run_views_ok calls _ s (process_start_views_ok k) Hrun) as Hviews.
  destruct (view_after_step c s s' h view payloads Hok Hviews Hstep Hne Hfind Hread)
    as [Hfind' [payloads' [Hread' [Hlen Hsame]]]].
  split; [exact Hfind'|]. split.
  { unfold FrameBuffer_nativeGetBufferSize. rewrite Hfind, Hfind'. reflexivity. }
  exists payloads'. split; [exact Hread'|]. split; [exact Hlen|]. split; [exact Hsame|].
  intros dest destOffset maxLength Hoff Hmaxlen Hjava Hfit.
  split.
  - apply (copy_out_of_readable_view h view payloads' dest destOffset maxLength s'
             Hfind' Hread' Hoff Hmaxlen Hjava Hfit).
  - intros Hnot.
    rewrite (copy_out_of_readable_view h view payloads' dest destOffset maxLength s'
               Hfind' Hread' Hoff Hmaxlen Hjava Hfit).
    rewrite (copy_out_of_readable_view h view payloads dest destOffset maxLength s
               Hfind Hread Hoff Hmaxlen Hjava Hfit).
    rewrite (Hsame Hnot). reflexivity.
Qed.

(** With the small buffer mapped twice, under the handles 5 and 6, the
    second view is there and of the same length after the first one is
    unmapped, and is read as before. *)
Lemma readable_view_survives_other_calls_witness :
  let view := mkMappedBuffer [mkMappedPlane 12296 5 2; mkMappedPlane 16397 3 1] 5 in
  let s' := FrameBuffer_nativeUnmapBuffer 5 two_views_state in
  k_mappings (kernel s') <> k_mappings (kernel two_views_state)
  /\ StdMap.find 6 (g_mappedBuffers s') = Some view
  /\ FrameBuffer_nativeGetBufferSize 6 s' = FrameBuffer_nativeGetBufferSize 6 two_views_state.
Proof.
  cbv zeta. split; [vm_compute; discriminate|].
  pose proof (readable_view_survives_other_calls
                counting_kernel (small_view_calls ++ [MapBuffer 4 3 0 0]) (UnmapBuffer 5)
                two_views_state (FrameBuffer_nativeUnmapBuffer 5 two_views_state) 6
                (mkMappedBuffer [mkMappedPlane 12296 5 2; mkMappedPlane 16397 3 1] 5)
                [[Byte.x02; Byte.x03; Byte.x04]; [Byte.x01; Byte.x02]]) as H.
  split; apply H; try reflexivity; try discriminate.
  - split; [|reflexivity]. repeat constructor; cbn; lia.
  - split; [|reflexivity]. repeat constructor; cbn; lia.
Defined.

(** ** Which calls are defined *)

Lemma config_at_none (conf : CameraConfiguration) (streamIndex : Z) :
  - 2 ^ 31 <= streamIndex < 2 ^ 31 ->
  config_size conf < 2 ^ 31 ->
  config_at conf streamIndex = None <-> streamIndex < 0 \/ config_size conf <= streamIndex.
Proof.
  intros Hjint Hsize. unfold config_at, config_size in *. rewrite nth_error_None.
  assert (Hwrap : to_uint streamIndex
                  = if streamIndex <? 0 then streamIndex + 2 ^ 32 else streamIndex).
  { unfold to_uint, wrap_unsigned. destruct (streamIndex <? 0) eqn:E.
    - apply Z.ltb_lt in E. symmetry. apply (Z.mod_unique _ _ (-1)); lia.
    - apply Z.ltb_ge in E. apply Z.mod_small. lia. }
  rewrite Hwrap. destruct (streamIndex <? 0) eqn:E.
  - apply Z.ltb_lt in E. split; [intros _; left; exact E|intros _; lia].
  - apply Z.ltb_ge in E. split; [intros H; right; lia|intros [H|H]; lia].
Qed.

Lemma map_buffer_undefined
  (allocatorHandle configHandle streamIndex bufferIndex : Z) (s : State) :
  fst (FrameBuffer_nativeMapBuffer allocatorHandle configHandle streamIndex bufferIndex s)
  = Undefined
  <-> exists alloc conf,
      StdMap.find allocatorHandle (g_allocators s) = Some alloc
      /\ StdMap.find configHandle (g_configurations s) = Some conf
      /\ config_at conf streamIndex = None.
Proof.
  unfold FrameBuffer_nativeMapBuffer.
  split; [|intros [alloc [conf [-> [-> ->]]]]; reflexivity].
  destruct (StdMap.find allocatorHandle (g_allocators s)) as [alloc|]; [|discriminate].
  destruct (StdMap.find configHandle (g_configurations s)) as [conf|]; [|discriminate].
  destruct (config_at conf streamIndex) as [sc|] eqn:Hat;
    [|intros _; exists alloc, conf; auto].
  destruct ((bufferIndex <? 0) || _) eqn:Hcheck; [discriminate|].
  apply orb_false_iff in Hcheck. destruct Hcheck as [Hlow Hhigh].
  apply Z.ltb_ge in Hlow. apply Z.leb_gt in Hhigh.
  destruct (nth_error _ _) as [fb|] eqn:Hnth.
  - destruct (fb_planes fb) as [|plane rest]; [discriminate|].
    destruct (map_planes _ _ _ _) as [[errMsg|view] k']; discriminate.
  - apply nth_error_None in Hnth. lia.
Qed.

Lemma config_set_defined (assign : StreamConfiguration -> StreamConfiguration)
  (handle index : Z) (s : State) :
  fst (config_set assign handle index s) <> Undefined.
Proof.
  unfold config_set.
  destruct (StdMap.find handle (g_configurations s)) as [conf|]; [|discriminate].
  destruct ((index <? 0) || (config_size conf <=? index)) eqn:Hcheck; [discriminate|].
  destruct (config_at_in_range conf index Hcheck) as [sc ->]. discriminate.
Qed.

Lemma allocate_defined (handle configHandle streamIndex : Z)
  (pipeline : FrameBufferAllocator -> Z -> Z * FrameBufferAllocator) (s : State) :
  fst (FrameBufferAllocator_nativeAllocate handle configHandle streamIndex pipeline s)
  <> Undefined.
Proof.
  unfold FrameBufferAllocator_nativeAllocate.
  destruct (StdMap.find handle (g_allocators s)) as [alloc|]; [|discriminate].
  destruct (StdMap.find configHandle (g_configurations s)) as [conf|]; [|discriminate].
  destruct ((streamIndex <? 0) || (config_size conf <=? streamIndex)) eqn:Hcheck;
    [discriminate|].
  destruct (config_at_in_range conf streamIndex Hcheck) as [sc ->].
  destruct (pipeline alloc (sc_stream sc)). discriminate.
Qed.

Lemma buffer_count_defined (handle configHandle streamIndex : Z) (s : State) :
  FrameBufferAllocator_nativeGetBufferCount handle configHandle streamIndex s <> Undefined.
Proof.
  unfold FrameBufferAllocator_nativeGetBufferCount.
  destruct (StdMap.find handle (g_allocators s)) as [alloc|]; [|discriminate].
  destruct (StdMap.find configHandle (g_configurations s)) as [conf|]; [|discriminate].
  destruct ((streamIndex <? 0) || (config_size conf <=? streamIndex)) eqn:Hcheck;
    [discriminate|].
  destruct (config_at_in_range conf streamIndex Hcheck) as [sc ->]. discriminate.
Qed.

Lemma buffer_lookup_in_range {A : Type} (bufs : list A) (bufferIndex : Z) :
  0 <= bufferIndex < Z.of_nat (List.length bufs) ->
  exists fb, nth_error bufs (Z.to_nat bufferIndex) = Some fb.
Proof.
  intros Hrange. destruct (nth_error bufs (Z.to_nat bufferIndex)) as [fb|] eqn:E;
    [exists fb; reflexivity|].
  apply nth_error_None in E. lia.
Qed.

Lemma add_buffer_undefined
  (handle configHandle streamIndex allocatorHandle bufferIndex : Z)
  (addBuffer : Request -> Z -> FrameBuffer -> Z) (s : State) :
  Request_nativeAddBuffer handle configHandle streamIndex allocatorHandle bufferIndex
                          addBuffer s = Undefined
  <-> exists conf,
      unchecked_index (AddBuffer handle configHandle streamIndex allocatorHandle
                                 bufferIndex addBuffer) s = Some (conf, streamIndex)
      /\ config_at conf streamIndex = None.
Proof.
  unfold Request_nativeAddBuffer, unchecked_index.
  destruct (StdMap.find handle (g_requests s)) as [r|];
    [|split; [discriminate|intros [c [H _]]; discriminate]].
  destruct (StdMap.find configHandle (g_configurations s)) as [conf|];
    [|split; [discriminate|intros [c [H _]]; discriminate]].
  destruct (StdMap.find allocatorHandle (g_allocators s)) as [alloc|];
    [|split; [discriminate|intros [c [H _]]; discriminate]].
  destruct (config_at conf streamIndex) as [sc|] eqn:Hat.
  - split; [|intros [c [H Hnone]]; injection H as <-; congruence].
    destruct ((bufferIndex <? 0) || _) eqn:Hcheck; [discriminate|].
    apply orb_false_iff in Hcheck. rewrite Z.ltb_ge, Z.leb_gt in Hcheck.
    destruct (buffer_lookup_in_range (buffers alloc (sc_stream sc)) bufferIndex) as [fb ->];
      [lia|discriminate].
  - split; [intros _; exists conf; auto|reflexivity].
Qed.

Lemma buffer_metadata_undefined (field : FrameBuffer -> Z)
  (handle configHandle streamIndex allocatorHandle bufferIndex : Z) (s : State) :
  buffer_metadata field handle configHandle streamIndex allocatorHandle bufferIndex s
  = Undefined
  <-> exists conf,
      unchecked_index (GetTimestamp field handle configHandle streamIndex allocatorHandle
                                    bufferIndex) s = Some (conf, streamIndex)
      /\ config_at conf streamIndex = None.
Proof.
  unfold buffer_metadata, unchecked_index.
  destruct (StdMap.find allocatorHandle (g_allocators s)) as [alloc|];
    [|split; [discriminate|intros [c [H _]]; discriminate]].
  destruct (StdMap.find configHandle (g_configurations s)) as [conf|];
    [|split; [discriminate|intros [c [H _]]; discriminate]].
  destruct (config_at conf streamIndex) as [sc|] eqn:Hat.
  - split; [|intros [c [H Hnone]]; injection H as <-; congruence].
    destruct ((0 <=? bufferIndex) && _) eqn:Hcheck; [|discriminate].
    apply andb_true_iff in Hcheck. rewrite Z.leb_le, Z.ltb_lt in Hcheck.
    destruct (buffer_lookup_in_range (buffers alloc (sc_stream sc)) bufferIndex) as [fb ->];
      [lia|discriminate].
  - split; [intros _; exists conf; auto|reflexivity].
Qed.

Lemma map_buffer_unchecked_index
  (allocatorHandle configHandle streamIndex bufferIndex : Z) (s : State) :
  fst (FrameBuffer_nativeMapBuffer allocatorHandle configHandle streamIndex bufferIndex s)
  = Undefined
  <-> exists conf,
      unchecked_index (MapBuffer allocatorHandle configHandle streamIndex bufferIndex) s
      = Some (conf, streamIndex)
      /\ config_at conf streamIndex = None.
Proof.
  rewrite map_buffer_undefined. unfold unchecked_index. split.
  - intros [alloc [conf [-> [-> Hnone]]]]. exists conf. auto.
  - intros [conf [Hidx Hnone]].
    destruct (StdMap.find allocatorHandle (g_allocators s)) as [alloc|]; [|discriminate].
    destruct (StdMap.find configHandle (g_configurations s)) as [conf0|]; [|discriminate].
    injection Hidx as <-. exists alloc, conf0. auto.
Qed.

(** X22.  The four natives that look a buffer up, [map], [addBuffer],
    [getTimestamp] and [getSequence], hand the stream index to
    [at(index)] unchecked: each runs into undefined behaviour exactly when
    the handles it checks are found and the configuration does not hold
    the index, which for a [jint] index and a configuration of fewer than
    2^31 streams means an index outside [0, size()).  The natives that
    test the index first, [allocate], [getBufferCount] and the
    configuration getters and setters, never reach [at(index)] out of
    range. *)
Theorem buffer_lookups_do_not_check_the_stream_index
  (handle configHandle streamIndex allocatorHandle bufferIndex : Z) (s : State) :
  let out_of_range := fun c : Call =>
    exists conf, unchecked_index c s = Some (conf, streamIndex)
                 /\ config_at conf streamIndex = None in
  (g_nextHandle s < jlong_max ->
   fst (FrameBuffer_nativeMapBuffer allocatorHandle configHandle streamIndex
                                    bufferIndex s) = Undefined
   <-> out_of_range (MapBuffer allocatorHandle configHandle streamIndex bufferIndex))
  /\ (forall addBuffer,
         Request_nativeAddBuffer handle configHandle streamIndex allocatorHandle
                                 bufferIndex addBuffer s = Undefined
         <-> out_of_range (AddBuffer handle configHandle streamIndex allocatorHandle
                                     bufferIndex addBuffer))
  /\ (forall timestamp,
         Request_nativeGetTimestamp timestamp handle configHandle streamIndex
                                    allocatorHandle bufferIndex s = Undefined
         <-> out_of_range (GetTimestamp timestamp handle configHandle streamIndex
                                        allocatorHandle bufferIndex))
  /\ (forall sequence,
         Request_nativeGetSequence sequence handle configHandle streamIndex
                                   allocatorHandle bufferIndex s = Undefined
         <-> out_of_range (GetSequence sequence handle configHandle streamIndex
                                       allocatorHandle bufferIndex))
  /\ (forall conf,
         - 2 ^ 31 <= streamIndex < 2 ^ 31 ->
         config_size conf < 2 ^ 31 ->
         config_at conf streamIndex = None
         <-> streamIndex < 0 \/ config_size conf <= streamIndex)
  /\ (forall pipeline,
         fst (FrameBufferAllocator_nativeAllocate allocatorHandle configHandle streamIndex
                                                  pipeline s) <> Undefined)
  /\ FrameBufferAllocator_nativeGetBufferCount allocatorHandle configHandle streamIndex s
     <> Undefined
  /\ (forall field, config_get field configHandle streamIndex s <> Undefined)
  /\ (forall assign, fst (config_set assign configHandle streamIndex s) <> Undefined).
Proof.
  intros out_of_range.
  split; [intros _; apply map_buffer_unchecked_index|].
  split; [intros addBuffer; apply add_buffer_undefined|].
  split; [intros timestamp; apply buffer_metadata_undefined|].
  split; [intros sequence; apply buffer_metadata_undefined|].
  split; [intros conf; apply config_at_none|].
  split; [intros pipeline; apply allocate_defined|].
  split; [apply buffer_count_defined|].
  split; [|intros assign; apply config_set_defined].
  intros field. unfold config_get.
  destruct (StdMap.find configHandle (g_configurations s)) as [conf|]; [|discriminate].
  destruct ((streamIndex <? 0) || (config_size conf <=? streamIndex)) eqn:Hcheck;
    [discriminate|].
  destruct (config_at_in_range conf streamIndex Hcheck) as [sc ->]. discriminate.
Qed.

(** ** The buffer count and the buffer index of [map] *)

(** The messages of the mapping loop are not the message of the index
    check. *)
Lemma map_planes_message (fbPlanes : list Plane) :
  forall (i : nat) (mappedBuffer : MappedBuffer) (k : Kernel) (errMsg : string) (k' : Kernel),
    map_planes fbPlanes i mappedBuffer k = (inl errMsg, k') ->
    errMsg <> "Invalid buffer index"%string.
Proof.
  induction fbPlanes as [|plane rest IH]; intros i mb k errMsg k' Hrun; [discriminate|].
  cbn [map_planes] in Hrun.
  destruct (pl_fd plane <? 0).
  { injection Hrun as <- _. cbn [snprintf128 substring append]. discriminate. }
  destruct (mapSize plane =? 0).
  { injection Hrun as <- _. cbn [snprintf128 substring append]. discriminate. }
  destruct (mmap k (mapSize plane) (pl_fd plane)) as [err|[data k1]].
  { injection Hrun as <- _. cbn [snprintf128 substring append]. discriminate. }
  apply (IH _ _ _ _ _ Hrun).
Qed.

(** X23.  The buffer count is the bound of the buffer index: for valid
    handles and a stream index inside the configuration, [getBufferCount]
    returns the number of buffers the allocator holds for the stream; [map]
    and [addBuffer] raise "Invalid buffer index", and [getTimestamp] and
    [getSequence] return 0, exactly for the indices outside [0, count); and
    for an index inside, [addBuffer] hands over, and the two getters read,
    the buffer that [map] maps.  After [allocate] the count is the number
    of buffers the pipeline left for the stream, and what [allocate]
    returns is the pipeline's return code. *)
Theorem buffer_count_bounds_the_buffer_index
  (allocatorHandle configHandle streamIndex : Z)
  (alloc : FrameBufferAllocator) (conf : CameraConfiguration) (sc : StreamConfiguration)
  (s : State) :
  StdMap.find allocatorHandle (g_allocators s) = Some alloc ->
  StdMap.find configHandle (g_configurations s) = Some conf ->
  0 <= streamIndex < config_size conf ->
  config_at conf streamIndex = Some sc ->
  let count := fun a : FrameBufferAllocator =>
                 Z.of_nat (List.length (buffers a (sc_stream sc))) in
  (count alloc < 2 ^ 31 ->
   FrameBufferAllocator_nativeGetBufferCount allocatorHandle configHandle streamIndex s
   = Returns (count alloc))
  /\ (forall bufferIndex,
         fst (FrameBuffer_nativeMapBuffer allocatorHandle configHandle streamIndex
                                          bufferIndex s)
         = Throws (LibCameraException "Invalid buffer index") 0
         <-> bufferIndex < 0 \/ count alloc <= bufferIndex)
  /\ (forall bufferIndex handle r addBuffer field,
         StdMap.find handle (g_requests s) = Some r ->
         (bufferIndex < 0 \/ count alloc <= bufferIndex ->
          Request_nativeAddBuffer handle configHandle streamIndex allocatorHandle
                                  bufferIndex addBuffer s
          = Throws (LibCameraException "Invalid buffer index") (-1)
          /\ Request_nativeGetTimestamp field handle configHandle streamIndex
                                        allocatorHandle bufferIndex s = Returns 0
          /\ Request_nativeGetSequence field handle configHandle streamIndex
                                       allocatorHandle bufferIndex s = Returns 0)
         /\ (0 <= bufferIndex < count alloc ->
             exists fb,
               target_buffer allocatorHandle configHandle streamIndex bufferIndex s
               = Some fb
               /\ Request_nativeAddBuffer handle configHandle streamIndex allocatorHandle
                                          bufferIndex addBuffer s
                  = Returns (addBuffer r (sc_stream sc) fb)
               /\ Request_nativeGetTimestamp field handle configHandle streamIndex
                                             allocatorHandle bufferIndex s
                  = Returns (to_jlong (field fb))
               /\ Request_nativeGetSequence field handle configHandle streamIndex
                                            allocatorHandle bufferIndex s
                  = Returns (to_jlong (field fb))))
  /\ (forall pipeline,
         let r := FrameBufferAllocator_nativeAllocate allocatorHandle configHandle
                    streamIndex pipeline s in
         fst r = Returns (fst (pipeline alloc (sc_stream sc)))
         /\ (count (snd (pipeline alloc (sc_stream sc))) < 2 ^ 31 ->
             FrameBufferAllocator_nativeGetBufferCount allocatorHandle configHandle
               streamIndex (snd r)
             = Returns (count (snd (pipeline alloc (sc_stream sc)))))).
Proof.
  intros Halloc Hconf Hidx Hat count.
  assert (Hcheck : (streamIndex <? 0) || (config_size conf <=? streamIndex) = false).
  { apply orb_false_iff. split; [apply Z.ltb_ge|apply Z.leb_gt]; lia. }
  split; [|split; [|split]].
  - intros Hfit. unfold FrameBufferAllocator_nativeGetBufferCount.
    rewrite Halloc, Hconf, Hcheck, Hat. fold (count alloc).
    rewrite to_jint_in_range by (unfold count in *; lia). reflexivity.
  - intros bufferIndex. unfold FrameBuffer_nativeMapBuffer.
    rewrite Halloc, Hconf, Hat. fold (count alloc).
    destruct ((bufferIndex <? 0) || (count alloc <=? bufferIndex)) eqn:Hb.
    + apply orb_true_iff in Hb. rewrite Z.ltb_lt, Z.leb_le in Hb.
      split; [intros _; exact Hb|reflexivity].
    + apply orb_false_iff in Hb. rewrite Z.ltb_ge, Z.leb_gt in Hb.
      split; [|lia].
      destruct (nth_error _ _) as [fb|]; [|discriminate].
      destruct (fb_planes fb) as [|plane rest]; [discriminate|].
      destruct (map_planes _ _ _ _) as [[errMsg|view] k'] eqn:Hrun; [|discriminate].
      cbn [fst]. unfold throwLibCameraException. intros Heq. exfalso.
      apply (map_planes_message _ _ _ _ _ _ Hrun). congruence.
  - intros bufferIndex handle r addBuffer field Hreq.
    unfold Request_nativeAddBuffer, Request_nativeGetTimestamp, Request_nativeGetSequence,
      buffer_metadata, target_buffer.
    rewrite Hreq, Halloc, Hconf, Hat. fold (count alloc).
    split.
    + intros Hout.
      assert (Hb : (bufferIndex <? 0) || (count alloc <=? bufferIndex) = true).
      { apply orb_true_iff. rewrite Z.ltb_lt, Z.leb_le. exact Hout. }
      assert (Hb' : (0 <=? bufferIndex) && (bufferIndex <? count alloc) = false).
      { apply andb_false_iff. rewrite Z.leb_gt, Z.ltb_ge. lia. }
      rewrite Hb, Hb'. auto.
    + intros Hin.
      assert (Hb : (bufferIndex <? 0) || (count alloc <=? bufferIndex) = false).
      { apply orb_false_iff. rewrite Z.ltb_ge, Z.leb_gt. lia. }
      assert (Hb' : (0 <=? bufferIndex) && (bufferIndex <? count alloc) = true).
      { apply andb_true_iff. rewrite Z.leb_le, Z.ltb_lt. lia. }
      rewrite Hb, Hb'.
      destruct (buffer_lookup_in_range (buffers alloc (sc_stream sc)) bufferIndex Hin)
        as [fb Hfb].
      exists fb. rewrite Hfb. auto.
  - intros pipeline r. unfold r, FrameBufferAllocator_nativeAllocate.
    rewrite Halloc, Hconf, Hcheck, Hat.
    destruct (pipeline alloc (sc_stream sc)) as [rc alloc'] eqn:Hpipe. cbn [fst snd].
    split; [reflexivity|]. intros Hfit.
    unfold FrameBufferAllocator_nativeGetBufferCount. state_fields.
    rewrite find_insert_same, Hconf, Hcheck, Hat. fold (count alloc').
    rewrite to_jint_in_range by (unfold count in *; lia). reflexivity.
Qed.

(** In [small_buffer_state] the stream has one buffer: index 0 is mapped,
    index 1 is refused. *)
Lemma buffer_count_bounds_the_buffer_index_witness :
  FrameBufferAllocator_nativeGetBufferCount 4 3 0 small_buffer_state = Returns 1
  /\ fst (FrameBuffer_nativeMapBuffer 4 3 0 0 small_buffer_state) = Returns 5
  /\ fst (FrameBuffer_nativeMapBuffer 4 3 0 1 small_buffer_state)
     = Throws (LibCameraException "Invalid buffer index") 0.
Proof.
  pose proof (buffer_count_bounds_the_buffer_index
                4 3 0 [(20480, [mkFrameBuffer [mkPlane 9 2 3; mkPlane 10 1 2]])]
                [mkStreamConfiguration 128 96 128 842094158 4 20480]
                (mkStreamConfiguration 128 96 128 842094158 4 20480)
                small_buffer_state eq_refl eq_refl) as H.
  cbv zeta in H. destruct H as [Hcount [Hindex _]]; [cbn; lia|reflexivity|].
  split; [apply Hcount; cbn; lia|]. split; [reflexivity|].
  apply Hindex. right. cbn. lia.
Defined.

(** ** A handle lives until its own destroy *)

Lemma live_handle_below_counter (h : Z) (s : State) :
  handles_ok s -> (kinds h s <> 0)%nat -> h <> g_nextHandle s.
Proof. intros [_ [Halloc _]] Hlive. specialize (Halloc h Hlive). lia. Qed.

(** [map] leaves every table but the view table alone, and the view table
    with at most one more view, under the counter's value. *)
Lemma map_buffer_tables
  (allocatorHandle configHandle streamIndex bufferIndex : Z) (s : State) :
  let s' := snd (FrameBuffer_nativeMapBuffer allocatorHandle configHandle streamIndex
                                             bufferIndex s) in
  g_cameraManagers s' = g_cameraManagers s
  /\ g_cameras s' = g_cameras s
  /\ g_configurations s' = g_configurations s
  /\ g_allocators s' = g_allocators s
  /\ g_requests s' = g_requests s
  /\ g_completedRequests s' = g_completedRequests s
  /\ (g_mappedBuffers s' = g_mappedBuffers s
      \/ exists view,
          g_mappedBuffers s' = StdMap.insert (g_nextHandle s) view (g_mappedBuffers s)).
Proof.
  unfold FrameBuffer_nativeMapBuffer.
  destruct (StdMap.find allocatorHandle (g_allocators s)) as [alloc|]; [|cbn; tauto].
  destruct (StdMap.find configHandle (g_configurations s)) as [conf|]; [|cbn; tauto].
  destruct (config_at conf streamIndex) as [sc|]; [|cbn; tauto].
  destruct ((bufferIndex <? 0) || _); [cbn; tauto|].
  destruct (nth_error _ _) as [fb|]; [|cbn; tauto].
  destruct (fb_planes fb) as [|plane rest]; [cbn; tauto|].
  destruct (map_planes (plane :: rest) 0 (mkMappedBuffer [] 0) (kernel s))
    as [[errMsg|view] k']; [cbn; tauto|].
  unfold allocHandle. cbv zeta. state_fields.
  repeat (split; [reflexivity|]). right. exists view. reflexivity.
Qed.

(** Case analysis on the innermost scrutinee, keeping what it was. *)
Ltac innermost_cases_eqn :=
  repeat match goal with
         | |- context [match ?x with _ => _ end] =>
             lazymatch x with
             | context [match _ with _ => _ end] => fail
             | _ => destruct x eqn:?
             end
         end.

(** The state after a call, with the call's cases laid out. *)
Ltac after_call Hstep :=
  cbn [step] in Hstep;
  first [apply defined_snd in Hstep | injection Hstep as Hstep];
  cbn [snd] in Hstep; rewrite <- Hstep;
  try match goal with
      | |- context [FrameBuffer_nativeMapBuffer ?a ?ch ?si ?bi ?s] =>
          let H1 := fresh in
          let H2 := fresh in
          let H3 := fresh in
          let H4 := fresh in
          let H5 := fresh in
          let H6 := fresh in
          let Hv := fresh "Hviews" in
          let view := fresh "view" in
          destruct (map_buffer_tables a ch si bi s)
            as (H1 & H2 & H3 & H4 & H5 & H6 & [Hv|[view Hv]]);
          cbv zeta in *; rewrite ?H1, ?H2, ?H3, ?H4, ?H5, ?H6, ?Hv
      end;
  unfold CameraManager_nativeCreate, CameraManager_nativeDestroy,
    CameraManager_nativeGetCamera, Camera_nativeRelease,
    Camera_nativeGenerateConfiguration, Camera_nativeConfigure, Camera_nativeStop,
    Camera_nativeCreateRequest, requestCompleted, Camera_nativePollCompletedRequest,
    CameraConfiguration_nativeDestroy, config_set, FrameBufferAllocator_nativeCreate,
    FrameBufferAllocator_nativeDestroy, FrameBufferAllocator_nativeAllocate,
    Request_nativeDestroy, set_control, FrameBuffer_nativeUnmapBuffer,
    CameraManager_nativeStart, CameraManager_nativeStop,
    CameraConfiguration_nativeValidate, Request_nativeReuse, buffers_written,
    metadata_written, allocHandle;
  innermost_cases_eqn; state_fields.

(** A lookup under [h] after an insertion under the counter's value or an
    erasure under another handle. *)
Ltac other_key Hfresh :=
  rewrite ?find_insert, ?find_erase, ?has_insert, ?has_erase;
  try rewrite (proj2 (Z.eqb_neq _ _) Hfresh);
  repeat match goal with
         | |- context [?h =? ?k] =>
             let E := fresh "E" in
             destruct (h =? k) eqn:E;
             [apply Z.eqb_eq in E; try subst k; try congruence|]
         end;
  cbn [negb andb orb]; try assumption; try reflexivity; try congruence.

Ltac live_handle Hok Hhas :=
  apply (live_handle_below_counter _ _ Hok); unfold kinds;
  rewrite Hhas; cbn [Nat.b2n]; lia.

Lemma managers_live (c : Call) (s s' : State) (h : Z) :
  handles_ok s -> step c s = Some s' ->
  has h (g_cameraManagers s) = true ->
  c <> ManagerDestroy h ->
  has h (g_cameraManagers s') = true.
Proof.
  intros Hok Hstep Hhas Hne.
  assert (Hfresh : h <> g_nextHandle s) by live_handle Hok Hhas.
  destruct c; after_call Hstep; other_key Hfresh.
Qed.

Lemma sessions_live (c : Call) (s s' : State) (h : Z) (camera : Camera) :
  handles_ok s -> step c s = Some s' ->
  StdMap.find h (g_cameras s) = Some camera ->
  c <> Release h ->
  StdMap.find h (g_cameras s') = Some camera.
Proof.
  intros Hok Hstep Hfind Hne.
  assert (Hfresh : h <> g_nextHandle s) by live_handle Hok (has_find _ _ _ Hfind).
  destruct c; after_call Hstep; other_key Hfresh.
Qed.

Lemma views_live (c : Call) (s s' : State) (h : Z) (view : MappedBuffer) :
  handles_ok s -> step c s = Some s' ->
  StdMap.find h (g_mappedBuffers s) = Some view ->
  c <> UnmapBuffer h ->
  StdMap.find h (g_mappedBuffers s') = Some view.
Proof.
  intros Hok Hstep Hfind Hne.
  assert (Hfresh : h <> g_nextHandle s) by live_handle Hok (has_find _ _ _ Hfind).
  destruct c; after_call Hstep; other_key Hfresh.
Qed.

Lemma configurations_live (c : Call) (s s' : State) (h : Z) :
  handles_ok s -> step c s = Some s' ->
  has h (g_configurations s) = true ->
  c <> ConfigurationDestroy h ->
  has h (g_configurations s') = true.
Proof.
  intros Hok Hstep Hhas Hne.
  assert (Hfresh : h <> g_nextHandle s) by live_handle Hok Hhas.
  destruct c; after_call Hstep; other_key Hfresh.
Qed.

Lemma allocators_live (c : Call) (s s' : State) (h : Z) :
  handles_ok s -> step c s = Some s' ->
  has h (g_allocators s) = true ->
  c <> AllocatorDestroy h ->
  has h (g_allocators s') = true.
Proof.
  intros Hok Hstep Hhas Hne.
  assert (Hfresh : h <> g_nextHandle s) by live_handle Hok Hhas.
  destruct c; after_call Hstep; other_key Hfresh.
Qed.

(** A request keeps its address and its cookie. *)
Lemma requests_live (c : Call) (s s' : State) (h : Z) (r : Request) :
  handles_ok s -> step c s = Some s' ->
  StdMap.find h (g_requests s) = Some r ->
  c <> RequestDestroy h ->
  exists r',
    StdMap.find h (g_requests s') = Some r'
    /\ req_addr r' = req_addr r /\ req_cookie r' = req_cookie r.
Proof.
  intros Hok Hstep Hfind Hne.
  assert (Hfresh : h <> g_nextHandle s) by live_handle Hok (has_find _ _ _ Hfind).
  destruct c; after_call Hstep;
    rewrite ?find_insert, ?find_erase; try rewrite (proj2 (Z.eqb_neq _ _) Hfresh);
    repeat match goal with
           | |- context [?h =? ?k] =>
               let E := fresh "E" in
               destruct (h =? k) eqn:E;
               [apply Z.eqb_eq in E; try subst k; try congruence|]
           end;
    try (exists r; split; [assumption|auto]);
    (eexists; split; [reflexivity|]; cbn [req_addr req_cookie];
     match goal with
     | H : StdMap.find h (g_requests s) = Some ?r0 |- _ =>
         assert (r0 = r) by congruence; subst r0; auto
     end).
Qed.

(** X24.  A handle lives until its own destroy: in a state that keeps the
    handle discipline, whatever the next call of the process is (a native
    of the bindings, a completion signal, the pipeline writing buffers or
    metadata), a manager, a configuration and an allocator stay valid
    unless the call is their own destroy; a session stays on its camera
    unless the call is its own release; a view stays what it was mapped as
    unless the call is its own unmap; and a request stays valid, at the
    native address and with the cookie it had, unless the call is its own
    destroy. *)
Theorem handles_live_until_destroyed (c : Call) (s s' : State) (h : Z) :
  handles_ok s ->
  step c s = Some s' ->
  (has h (g_cameraManagers s) = true ->
   c <> ManagerDestroy h ->
   has h (g_cameraManagers s') = true)
  /\ (forall camera, StdMap.find h (g_cameras s) = Some camera ->
                     c <> Release h ->
                     StdMap.find h (g_cameras s') = Some camera)
  /\ (forall view, StdMap.find h (g_mappedBuffers s) = Some view ->
                   c <> UnmapBuffer h ->
                   StdMap.find h (g_mappedBuffers s') = Some view)
  /\ (has h (g_configurations s) = true ->
      c <> ConfigurationDestroy h ->
      has h (g_configurations s') = true)
  /\ (has h (g_allocators s) = true ->
      c <> AllocatorDestroy h ->
      has h (g_allocators s') = true)
  /\ (forall r, StdMap.find h (g_requests s) = Some r ->
                c <> RequestDestroy h ->
                exists r',
                  StdMap.find h (g_requests s') = Some r'
                  /\ req_addr r' = req_addr r /\ req_cookie r' = req_cookie r).
Proof.
  intros Hok Hstep.
  split; [apply (managers_live c s s' h Hok Hstep)|].
  split; [intros camera; apply (sessions_live c s s' h camera Hok Hstep)|].
  split; [intros view; apply (views_live c s s' h view Hok Hstep)|].
  split; [apply (configurations_live c s s' h Hok Hstep)|].
  split; [apply (allocators_live c s s' h Hok Hstep)|].
  intros r. apply (requests_live c s s' h r Hok Hstep).
Qed.

(** In [request_state] the request of handle 3 outlives the release of the
    session it was created through. *)
Lemma handles_live_until_destroyed_witness :
  let s' := Camera_nativeRelease 2 request_state in
  StdMap.find 2 (g_cameras s') = None
  /\ exists r',
      StdMap.find 3 (g_requests s') = Some r'
      /\ req_addr r' = 65536 /\ req_cookie r' = 61440.
Proof.
  cbv zeta. split; [reflexivity|].
  assert (Hok : handles_ok request_state).
  { apply (run_handles_ok
             [ManagerCreate (inr [("cam0"%string, 61440)]); GetCamera 1 "cam0";
              CreateRequest 2 0 (Some 65536)] initial_state request_state
             initial_handles_ok); [vm_compute; discriminate|reflexivity]. }
  pose proof (handles_live_until_destroyed (Release 2) request_state
                (Camera_nativeRelease 2 request_state) 3 Hok eq_refl) as H.
  apply (proj2 (proj2 (proj2 (proj2 (proj2 H)))) (mkRequest 65536 61440 [] []));
    [reflexivity|discriminate].
Defined.
